(** * pre-commit-vauxoo: a shallow embedding of [pre_commit_vauxoo.py]

    The development follows the source file top to bottom:
    - [Py]: the fragments of the Python library the program calls
      ([str] methods, [os.path.join], [os.path.dirname], [re.escape],
      text-file iteration);
    - [Re]: a backtracking matcher for the regular-expression constructs
      that occur in [re_export];
    - the program state (file system, environment, subprocess calls, log,
      the [all_status] dictionary) and a state-and-exception monad;
    - the functions of the module, under their own names;
    - the properties.

    Conventions.  A Python [str] is a [string]; a character is a code point
    below 256.  The character classes ([\w], whitespace, the characters
    escaped by [re.escape]) are those of CPython 3.7 and later on that
    range.  Paths are compared as strings (no symbolic links, no
    normalisation).  A text file is its content after newline translation.
    An [int] is a [Z]: the return code of a subprocess is negative when a
    signal ended it. *)

From Stdlib Require Import ZArith Ascii String.
From stdpp Require Import base option list gmap strings.

Local Open Scope Z_scope.

(** ** Characters and strings of the Python library *)

Module Py.

Definition LF : ascii := "010"%char.
Definition DQUOTE : ascii := "034"%char.
Definition SQUOTE : ascii := "039"%char.
Definition BACKSLASH : ascii := "092"%char.

Definition chr (c : ascii) : string := String c EmptyString.

Definition code (c : ascii) : nat := nat_of_ascii c.

Definition between (lo hi n : nat) : bool := (lo <=? n)%nat && (n <=? hi)%nat.

(** [str.isspace] on one character, as used by [str.strip]. *)
Definition isspace (c : ascii) : bool :=
  let n := code c in
  between 9 13 n || between 28 32 n || (n =? 133)%nat || (n =? 160)%nat.

(** The class [\w] of a [str] pattern: alphanumerics and the underscore. *)
Definition isword (c : ascii) : bool :=
  let n := code c in
  between 48 57 n || between 65 90 n || (n =? 95)%nat || between 97 122 n
  || (n =? 170)%nat || between 178 179 n || (n =? 181)%nat
  || between 185 186 n || between 188 190 n
  || between 192 214 n || between 216 246 n || between 248 255 n.

(** [s * n] *)
Fixpoint repeat_str (s : string) (n : nat) : string :=
  match n with
  | O => EmptyString
  | S k => s +:+ repeat_str s k
  end.

(** [sep.join(l)] *)
Fixpoint join (sep : string) (l : list string) : string :=
  match l with
  | [] => EmptyString
  | [x] => x
  | x :: rest => x +:+ sep +:+ join sep rest
  end.

(** [bool(s)]: a string is true when it is not empty. *)
Definition truthy (s : string) : bool :=
  match s with EmptyString => false | String _ _ => true end.

(** [s.startswith(p)] *)
Definition startswith (s p : string) : bool := String.prefix p s.

(** [sub in s] *)
Fixpoint contains (sub s : string) : bool :=
  String.prefix sub s ||
  match s with
  | EmptyString => false
  | String _ rest => contains sub rest
  end.

Fixpoint lstrip (s : string) : string :=
  match s with
  | EmptyString => EmptyString
  | String c rest => if isspace c then lstrip rest else s
  end.

Fixpoint rstrip (s : string) : string :=
  match s with
  | EmptyString => EmptyString
  | String c rest =>
      match rstrip rest with
      | EmptyString => if isspace c then EmptyString else chr c
      | r => String c r
      end
  end.

(** [s.strip()] *)
Definition strip (s : string) : string := rstrip (lstrip s).

(** [s.split(sep)] for a separator of one character. *)
Fixpoint split (sep : ascii) (s : string) : list string :=
  match s with
  | EmptyString => [EmptyString]
  | String c rest =>
      if Ascii.eqb c sep then EmptyString :: split sep rest
      else match split sep rest with
           | [] => [chr c]
           | x :: xs => String c x :: xs
           end
  end.

(** [s.replace(old, new)] for a non-empty [old]: the occurrences are
    replaced from left to right and do not overlap.  [skip] counts the
    characters of the occurrence just replaced that are still to pass. *)
Fixpoint replace_from (old new : string) (skip : nat) (s : string) : string :=
  match s with
  | EmptyString => EmptyString
  | String c rest =>
      match skip with
      | S k => replace_from old new k rest
      | O =>
          if String.prefix old s
          then new +:+ replace_from old new (String.length old - 1) rest
          else String c (replace_from old new 0 rest)
      end
  end.

Definition replace (old new s : string) : string := replace_from old new 0 s.

(** ["{:<w}".format(s)]: pad with spaces on the right up to width [w]. *)
Definition ljust (w : nat) (s : string) : string :=
  s +:+ repeat_str " " (w - String.length s).

(** The characters [re.escape] puts a backslash before. *)
Definition special_char (c : ascii) : bool :=
  let n := code c in
  between 9 13 n || (n =? 32)%nat || between 35 36 n || (n =? 38)%nat
  || between 40 43 n || between 45 46 n || (n =? 63)%nat
  || between 91 94 n || between 123 126 n.

(** [re.escape(s)] *)
Fixpoint re_escape (s : string) : string :=
  match s with
  | EmptyString => EmptyString
  | String c rest =>
      if special_char c then String BACKSLASH (String c (re_escape rest))
      else String c (re_escape rest)
  end.

(** [os.path.join(a, b)] on a POSIX system. *)
Definition ends_with_slash (a : string) : bool :=
  match String.get (String.length a - 1) a with
  | Some c => Ascii.eqb c "/"%char
  | None => false
  end.

Definition path_join (a b : string) : string :=
  if startswith b "/" then b
  else if negb (truthy a) || ends_with_slash a then a +:+ b
  else a +:+ "/" +:+ b.

(** [p[:p.rfind("/") + 1]]: the path up to its last slash, slash included. *)
Fixpoint dir_head (p : string) : string :=
  match p with
  | EmptyString => EmptyString
  | String c rest =>
      if Ascii.eqb c "/"%char || contains "/" rest then String c (dir_head rest)
      else EmptyString
  end.

(** [s.rstrip("/")] *)
Fixpoint rstrip_slash (s : string) : string :=
  match s with
  | EmptyString => EmptyString
  | String c rest =>
      match rstrip_slash rest with
      | EmptyString => if Ascii.eqb c "/"%char then EmptyString else chr c
      | r => String c r
      end
  end.

(** [os.path.dirname(p)] on a POSIX system: the head of the path, without
    its trailing slashes unless it is made of slashes only. *)
Definition dirname (p : string) : string :=
  let head := dir_head p in
  match rstrip_slash head with
  | EmptyString => head
  | stripped => stripped
  end.

(** The lines a text file yields when iterated: each keeps its newline,
    the last one may lack it. *)
Fixpoint file_lines (s : string) : list string :=
  match s with
  | EmptyString => []
  | String c rest =>
      if Ascii.eqb c LF then chr c :: file_lines rest
      else match file_lines rest with
           | [] => [chr c]
           | l :: ls => String c l :: ls
           end
  end.

(** What successive [write] calls leave in a file. *)
Fixpoint concat_str (l : list string) : string :=
  match l with
  | [] => EmptyString
  | x :: rest => x +:+ concat_str rest
  end.

End Py.

(** ** Regular expressions

  The constructs of [re_export]: the anchor [^], an alternation of
  literals, and the greedy repetition of a one-character class, each with
  an optional group name.  [match_items] is the backtracking search of
  [Pattern.match]: a repetition first takes as many characters as it can
  and gives them back one at a time while the rest of the pattern fails;
  the alternatives of an alternation are tried from left to right. *)

Module Re.

Inductive item : Type :=
| Bol
| Lits (name : option string) (alts : list string)
| Rep (name : option string) (cls : ascii → bool) (lo : nat) (hi : option nat).

(** The groups of a match object, by name. *)
Definition groups : Type := list (string * string).

Definition bind_group (name : option string) (text : string) (g : groups) : groups :=
  match name with
  | Some n => (n, text) :: g
  | None => g
  end.

(** [m[name]] *)
Fixpoint group (g : groups) (name : string) : option string :=
  match g with
  | [] => None
  | (n, text) :: rest => if String.eqb n name then Some text else group rest name
  end.

Fixpoint take (n : nat) (s : string) : string :=
  match n, s with
  | S k, String c rest => String c (take k rest)
  | _, _ => EmptyString
  end.

Fixpoint drop (n : nat) (s : string) : string :=
  match n, s with
  | S k, String _ rest => drop k rest
  | _, _ => s
  end.

(** The character before the position reached after [n] characters. *)
Fixpoint last_before (prev : option ascii) (n : nat) (s : string) : option ascii :=
  match n, s with
  | S k, String c rest => last_before (Some c) k rest
  | _, _ => prev
  end.

(** [^] under [re.M]: at the start of the text or just after a newline. *)
Definition at_bol (prev : option ascii) : bool :=
  match prev with
  | None => true
  | Some c => Ascii.eqb c Py.LF
  end.

(** Length of the longest run of class characters at the head of [s],
    cut at the upper bound of the repetition. *)
Fixpoint run (cls : ascii → bool) (hi : option nat) (s : string) : nat :=
  match s with
  | EmptyString => O
  | String c rest =>
      match hi with
      | Some O => O
      | Some (S h) => if cls c then S (run cls (Some h) rest) else O
      | None => if cls c then S (run cls None rest) else O
      end
  end.

(** Try [k] characters, then [k - 1], ... down to [lo]. *)
Fixpoint give_back {A} (try : nat → option A) (lo k : nat) : option A :=
  if (k <? lo)%nat then None
  else match try k with
       | Some r => Some r
       | None =>
           match k with
           | O => None
           | S k' => give_back try lo k'
           end
       end.

Fixpoint first_alt {A} (try : string → option A) (alts : list string) : option A :=
  match alts with
  | [] => None
  | a :: rest =>
      match try a with
      | Some r => Some r
      | None => first_alt try rest
      end
  end.

Fixpoint match_items (items : list item) (prev : option ascii) (s : string)
  : option groups :=
  match items with
  | [] => Some []
  | Bol :: rest => if at_bol prev then match_items rest prev s else None
  | Lits name alts :: rest =>
      first_alt
        (λ a, if String.prefix a s
              then bind_group name a <$>
                     match_items rest (last_before prev (String.length a) s)
                                 (drop (String.length a) s)
              else None)
        alts
  | Rep name cls lo hi :: rest =>
      give_back
        (λ k, bind_group name (take k s) <$>
                match_items rest (last_before prev k s) (drop k s))
        lo (run cls hi s)
  end.

(** [pattern.match(s)]: the match starts at the first character. *)
Definition match_ (pattern : list item) (s : string) : option groups :=
  match_items pattern None s.

End Re.

(** ** [re_export] *)

Definition is_char (x : ascii) (c : ascii) : bool := Ascii.eqb c x.

(** The class of the two quote characters. *)
Definition is_quote (c : ascii) : bool :=
  Ascii.eqb c Py.DQUOTE || Ascii.eqb c Py.SQUOTE.

(** The class [[\w\.\-\_/\$\{\}\:,\(\)\#\* ]]. *)
Definition is_value_char (c : ascii) : bool :=
  Py.isword c ||
  existsb (Ascii.eqb c)
    ["."; "-"; "_"; "/"; "$"; "{"; "}"; ":"; ","; "("; ")"; "#"; "*"; " "]%char.

(** The pattern, item by item: the anchor; the group [export], one of two
    literals; one or more spaces (a group repeated, its text is never read);
    the group [variable], word characters; spaces; the class of the sign
    [=], once; spaces; at most one quote; the group [value]; at most one
    quote.  The flag [re.M] bears on the anchor only. *)
Definition re_export : list Re.item :=
  [ Re.Bol;
    Re.Lits (Some "export") ["export"; "EXPORT"];
    Re.Rep None (is_char " ") 1 None;
    Re.Rep (Some "variable") Py.isword 0 None;
    Re.Rep None (is_char " ") 0 None;
    Re.Rep None (is_char "=") 1 (Some 1%nat);
    Re.Rep None (is_char " ") 0 None;
    Re.Rep None is_quote 0 (Some 1%nat);
    Re.Rep (Some "value") is_value_char 0 None;
    Re.Rep None is_quote 0 (Some 1%nat) ].

(** ** The state of a run *)

(** A path names a regular file with its text, or a directory with the names
    [os.listdir] returns for it. *)
Inductive node : Type :=
| File (content : string)
| Dir (entries : list string).

(** The levels of the [logging] module. *)
Module logging.
Definition DEBUG : Z := 10.
Definition INFO : Z := 20.
Definition WARNING : Z := 30.
Definition ERROR : Z := 40.
End logging.

(** A value of [all_status]: [{'status': .., 'level': .., 'status_msg': ..}]. *)
Record tier_result : Type := TierResult {
  status : Z;
  level : Z;
  status_msg : string
}.

Inductive exn : Type :=
| CalledProcessError (cmd : list string)
| FileNotFoundError (path : string)
| NotADirectoryError (path : string)
| IsADirectoryError (path : string)
| OSError (msg : string)
| UserWarning (msg : string)
| SystemExit (code : Z).

(** [calls] lists the commands given to [subprocess.call], [log] the records
    handed to [_logger], both oldest first.  [all_status] is the dictionary
    [main] fills and [print_summary] reads, in insertion order. *)
Record state : Type := State {
  fs : gmap string node;
  environ : gmap string string;
  calls : list (list string);
  log : list (Z * string);
  all_status : list (string * tier_result)
}.

Definition set_fs (f : gmap string node → gmap string node) (st : state) : state :=
  State (f (fs st)) (environ st) (calls st) (log st) (all_status st).

Definition set_environ (f : gmap string string → gmap string string) (st : state) : state :=
  State (fs st) (f (environ st)) (calls st) (log st) (all_status st).

Definition set_calls (f : list (list string) → list (list string)) (st : state) : state :=
  State (fs st) (environ st) (f (calls st)) (log st) (all_status st).

Definition set_log (f : list (Z * string) → list (Z * string)) (st : state) : state :=
  State (fs st) (environ st) (calls st) (f (log st)) (all_status st).

Definition set_all_status
    (f : list (string * tier_result) → list (string * tier_result)) (st : state) : state :=
  State (fs st) (environ st) (calls st) (log st) (f (all_status st)).

(** What the run does not decide: the answers of git, of the subprocesses
    and of the two library functions whose text is not part of the module. *)
Record world : Type := World {
  (** [git rev-parse --show-toplevel], made absolute; [None]: git fails *)
  git_toplevel : option string;
  (** [os.path.abspath(os.path.realpath(os.getcwd()))] *)
  getcwd : string;
  (** [os.path.dirname(os.path.abspath(__file__))] *)
  module_dir : string;
  (** [git ls-files -- path], stripped and split in lines; [None]: git fails *)
  git_ls_files : string → option (list string);
  (** the return code [subprocess.call] gives for a command; a run calls no
      command twice *)
  returncode : list string → Z;
  (** [os.path.relpath] *)
  relpath : string → string → string;
  (** [logging_colored.colorized_msg] *)
  colorized_msg : string → Z → string
}.

(** ** A state and exception monad *)

Inductive result (A : Type) : Type :=
| Ok (a : A)
| Raise (e : exn).
Arguments Ok {A} a.
Arguments Raise {A} e.

Definition M (A : Type) : Type := state → result A * state.

#[global] Instance M_ret : MRet M := λ A a st, (Ok a, st).

#[global] Instance M_bind : MBind M := λ A B f m st,
  match m st with
  | (Ok a, st') => f a st'
  | (Raise e, st') => (Raise e, st')
  end.

Definition raise {A} (e : exn) : M A := λ st, (Raise e, st).

Definition gets {A} (f : state → A) : M A := λ st, (Ok (f st), st).

Definition modify (f : state → state) : M unit := λ st, (Ok tt, f st).

(** [for x in l: body] *)
Fixpoint for_each {A} (l : list A) (body : A → M unit) : M unit :=
  match l with
  | [] => mret tt
  | x :: rest => body x ;; for_each rest body
  end.

(** [_logger.debug], [_logger.info], ... with the message formatted. *)
Definition logger (lvl : Z) (msg : string) : M unit :=
  modify (set_log (λ l, l ++ [(lvl, msg)])).

(** ** The file system *)

(** [os.path.isfile] *)
Definition isfile (path : string) : M bool :=
  gets (λ st, match fs st !! path with Some (File _) => true | _ => false end).

(** [os.listdir] *)
Definition listdir (path : string) : M (list string) :=
  λ st, match fs st !! path with
        | Some (Dir names) => (Ok names, st)
        | Some (File _) => (Raise (NotADirectoryError path), st)
        | None => (Raise (FileNotFoundError path), st)
        end.

(** [open(path, "r")] *)
Definition open_r (path : string) : M unit :=
  λ st, match fs st !! path with
        | Some (File _) => (Ok tt, st)
        | Some (Dir _) => (Raise (IsADirectoryError path), st)
        | None => (Raise (FileNotFoundError path), st)
        end.

(** The path [d] names a directory: the root, the current directory (the
    empty path) or a directory of the file system. *)
Definition dir_exists (m : gmap string node) (d : string) : bool :=
  match Py.rstrip_slash d with
  | EmptyString => true
  | _ => match m !! d with Some (Dir _) => true | _ => false end
  end.

(** The nearest path that exists among [d] and the directories above it is a
    regular file.  [fuel] bounds the number of steps upwards; the length of
    [d] is enough. *)
Fixpoint below_file (fuel : nat) (m : gmap string node) (d : string) : bool :=
  match m !! d with
  | Some (File _) => true
  | Some (Dir _) => false
  | None =>
      match fuel with
      | O => false
      | S k =>
          match Py.rstrip_slash d with
          | EmptyString => false
          | _ => below_file k m (Py.dirname d)
          end
      end
  end.

(** [open(path, "w")]: a regular file is emptied; a file that does not exist
    is created when the directory it lies in exists.  Otherwise nothing is
    written: a directory cannot be opened, and a path below a regular file or
    in a directory that does not exist cannot be created.  (Permissions are
    not modelled.) *)
Definition open_w (path : string) : M unit :=
  λ st, match fs st !! path with
        | Some (Dir _) => (Raise (IsADirectoryError path), st)
        | Some (File _) => (Ok tt, set_fs (insert path (File EmptyString)) st)
        | None =>
            let d := Py.dirname path in
            if dir_exists (fs st) d
            then (Ok tt, set_fs (insert path (File EmptyString)) st)
            else if below_file (String.length d) (fs st) d
                 then (Raise (NotADirectoryError path), st)
                 else (Raise (FileNotFoundError path), st)
        end.

(** The text an open file has left to give when its iteration starts. *)
Definition read (path : string) : M string :=
  gets (λ st, match fs st !! path with Some (File c) => c | _ => EmptyString end).

(** [f.write(text)] on the file opened at [path]. *)
Definition write (path text : string) : M unit :=
  modify (set_fs (λ m, match m !! path with
                       | Some (File c) => <[path := File (c +:+ text)]> m
                       | _ => m
                       end)).

(** ** The module *)

Section Program.

Context (w : world).

Definition get_repo : M string :=
  match git_toplevel w with
  | Some repo_root => mret repo_root
  | None => raise (CalledProcessError ["git"; "rev-parse"; "--show-toplevel"])
  end.

Definition get_files (path : string) : M (list string) :=
  match git_ls_files w path with
  | Some ls_files => mret ls_files
  | None => raise (CalledProcessError ["git"; "ls-files"; "--"; path])
  end.

(** Lines 32 to 40. *)
Definition exclude_regex_of (exclude_lint : string) : string :=
  if Py.truthy exclude_lint then
    "(" +:+
    Py.join "|"
      (map (λ exclude_path, Py.re_escape (Py.strip exclude_path))
         (filter (λ exclude_path,
                    Py.truthy exclude_path && Py.truthy (Py.strip exclude_path) = true)
                 (Py.split "," exclude_lint)))
    +:+ ")|"
  else EmptyString.

(** Lines 57 to 61: the line handed to [fdst.write]. *)
Definition patch_line (exclude_lint exclude_regex disable_pylint_checks fname dst line : string)
  : M string :=
  line ←
    (if Py.truthy exclude_lint && Py.startswith fname ".pre-commit-config"
        && Py.contains "# EXCLUDE_LINT" line
     then
       logger logging.INFO ("Apply EXCLUDE_LINT=" +:+ exclude_lint +:+ " to " +:+ dst);;
       mret ("    " +:+ exclude_regex +:+ Py.chr Py.LF)
     else mret line);
  if Py.truthy disable_pylint_checks && Py.startswith fname ".pre-commit-config"
     && Py.contains "--disable=R0000" line
  then mret (Py.replace "R0000" disable_pylint_checks line)
  else mret line.

(** Lines 43 to 62: the body of the loop over the template directory. *)
Definition copy_cfg_file
    (precommit_config_dir repo_dirname : string) (overwrite : bool)
    (exclude_lint exclude_regex disable_pylint_checks fname : string) : M unit :=
  if negb (Py.startswith fname ".") && negb (String.eqb fname "pyproject.toml")
  then mret tt
  else
    let src := Py.path_join precommit_config_dir fname in
    src_is_file ← isfile src;
    if negb src_is_file then mret tt
    else
      let dst := Py.path_join repo_dirname fname in
      dst_is_file ← isfile dst;
      if negb overwrite && dst_is_file
      then logger logging.WARNING ("Use custom file " +:+ dst)
      else
        open_r src;;
        open_w dst;;
        text ← read src;
        for_each (Py.file_lines text)
          (λ line,
             line ← patch_line exclude_lint exclude_regex disable_pylint_checks
                      fname dst line;
             write dst line).

Definition copy_cfg_files
    (precommit_config_dir repo_dirname : string) (overwrite : bool)
    (exclude_lint disable_pylint_checks : string) : M unit :=
  let exclude_regex := exclude_regex_of exclude_lint in
  logger logging.INFO
    ("Copying configuration files 'cp -rnT " +:+ precommit_config_dir +:+ "/ "
     +:+ repo_dirname +:+ "/");;
  names ← listdir precommit_config_dir;
  for_each names
    (copy_cfg_file precommit_config_dir repo_dirname overwrite
       exclude_lint exclude_regex disable_pylint_checks).

(** [line_match[name]]; every group of [re_export] takes part in every
    match, so the default is never returned. *)
Definition getitem (line_match : Re.groups) (name : string) : string :=
  default EmptyString (Re.group line_match name).

(** Lines 77 to 80: the body of the loop over the lines. *)
Definition envdict_update (envdict : gmap string string) (line : string)
  : gmap string string :=
  match Re.match_ re_export line with
  | None => envdict
  | Some line_match =>
      <[getitem line_match "variable" := getitem line_match "value"]> envdict
  end.

Definition envfile2envdict (repo_dirname source_file : string) : M (gmap string string) :=
  let envdict : gmap string string := ∅ in
  let source_file_path := Py.path_join repo_dirname source_file in
  found ← isfile source_file_path;
  if negb found then
    logger logging.INFO ("Skip 'source " +:+ source_file_path +:+ "' file not found");;
    mret envdict
  else
    open_r source_file_path;;
    logger logging.INFO ("Running 'source " +:+ source_file_path +:+ "'");;
    text ← read source_file_path;
    mret (foldl envdict_update envdict (Py.file_lines text)).

Definition subprocess_call (command : list string) : M Z :=
  logger logging.DEBUG ("Command executed: " +:+ Py.join " " command);;
  modify (set_calls (λ l, l ++ [command]));;
  mret (returncode w command).

(** [os.environ.update(envdict)]: setting a variable of empty name fails
    (EINVAL); the names [re_export] captures hold no [=] and no NUL. *)
Definition environ_update (envdict : gmap string string) : M unit :=
  if bool_decide (is_Some (envdict !! EmptyString))
  then raise (OSError "[Errno 22] Invalid argument")
  else modify (set_environ (λ env, envdict ∪ env)).

(** [os.environ.get(name, dflt)] *)
Definition environ_get (name dflt : string) : M string :=
  gets (λ st, default dflt (environ st !! name)).

(** [d[key] = value] on a dictionary kept in insertion order. *)
Fixpoint dict_set {V} (key : string) (value : V) (d : list (string * V))
  : list (string * V) :=
  match d with
  | [] => [(key, value)]
  | (k, v) :: rest =>
      if String.eqb k key then (k, value) :: rest
      else (k, v) :: dict_set key value rest
  end.

(** Lines 193 to 203. *)
Definition summary_msg (all_status : list (string * tier_result)) : list string :=
  [ "+" +:+ Py.repeat_str "=" 39; "|  Tests summary:"; "|" +:+ Py.repeat_str "-" 39 ]
  ++ map (λ '(test_name, test_result),
            let outcome :=
              if negb (status test_result =? 0)
              then colorized_msg w (status_msg test_result) (level test_result)
              else colorized_msg w (status_msg test_result) (level test_result) in
            "| " +:+ Py.ljust 28 test_name +:+ outcome)
         all_status
  ++ [ "+" +:+ Py.repeat_str "=" 39 ].

Definition print_summary (all_status : list (string * tier_result)) : M unit :=
  logger logging.INFO
    ("Tests summary" +:+ Py.chr Py.LF +:+ Py.join (Py.chr Py.LF) (summary_msg all_status)).

(** [all_status[test_name] = {'status': ..}] followed by the assignments of
    ['level'] and ['status_msg'] in the branch taken. *)
Definition record_tier (test_name : string) (r : tier_result) : M unit :=
  modify (set_all_status (dict_set test_name r)).

(** The local variables of [main] that are still read after line 124. *)
Record locals : Type := Locals {
  repo_dirname : string;
  cwd : string;
  enable_auto_fix : bool;
  pre_commit_cfg_mandatory : string;
  pre_commit_cfg_optional : string;
  pre_commit_cfg_autofix : string
}.

(** [main], lines 91 to 124: environment, configuration files, hooks. *)
Definition main_setup : M locals :=
  repo_dirname ← get_repo;
  let cwd := getcwd w in
  envdict ← envfile2envdict repo_dirname "variables.sh";
  environ_update envdict;;
  v ← environ_get "PRECOMMIT_OVERWRITE_CONFIG_FILES" "1";
  let overwrite := String.eqb v "1" in
  exclude_lint ← environ_get "EXCLUDE_LINT" EmptyString;
  disable_pylint_checks ← environ_get "DISABLE_PYLINT_CHECKS" EmptyString;
  v ← environ_get "PRECOMMIT_AUTOFIX" EmptyString;
  let enable_auto_fix := String.eqb v "1" in
  let root_dir := module_dir w in
  let precommit_config_dir := Py.path_join root_dir "cfg" in
  copy_cfg_files precommit_config_dir repo_dirname overwrite exclude_lint
    disable_pylint_checks;;
  logger logging.INFO "Installing pre-commit hooks";;
  let cmd := ["pre-commit"; "install-hooks"; "--color=always"] in
  let pre_commit_cfg_mandatory := Py.path_join repo_dirname ".pre-commit-config.yaml" in
  let pre_commit_cfg_optional :=
    Py.path_join repo_dirname ".pre-commit-config-optional.yaml" in
  let pre_commit_cfg_autofix :=
    Py.path_join repo_dirname ".pre-commit-config-autofix.yaml" in
  subprocess_call (cmd ++ ["-c"; pre_commit_cfg_mandatory]);;
  subprocess_call (cmd ++ ["-c"; pre_commit_cfg_optional]);;
  (if enable_auto_fix
   then subprocess_call (cmd ++ ["-c"; pre_commit_cfg_autofix]);; mret tt
   else mret tt);;
  mret (Locals repo_dirname cwd enable_auto_fix pre_commit_cfg_mandatory
          pre_commit_cfg_optional pre_commit_cfg_autofix).

(** [main], lines 127 to 136: the command of the checks and its file scope. *)
Definition main_scope (l : locals) : M (list string) :=
  let cmd := ["pre-commit"; "run"; "--color=always"] in
  if negb (String.eqb (cwd l) (repo_dirname l)) then
    let cwd_short := relpath w (cwd l) (repo_dirname l) in
    logger logging.WARNING ("Running only for sub-path '" +:+ cwd_short +:+ "'");;
    files ← get_files (cwd l);
    match files with
    | [] => raise (UserWarning ("Not files detected in current path " +:+ cwd_short))
    | _ => mret (cmd ++ ["--files"] ++ files)
    end
  else mret (cmd ++ ["--all"]).

(** [main], line 126 and lines 137 to 189: the three tiers, the summary
    and the exit. *)
Definition main_tiers (l : locals) (cmd : list string) (do_exit : bool) : M unit :=
  let status := 0 in
  modify (set_all_status (λ _, []));;
  status ←
    (if enable_auto_fix l then
       logger logging.INFO
         (Py.repeat_str "-" 25 +:+ " AUTOFIX CHECKS " +:+ Py.repeat_str "-" 25);;
       logger logging.INFO
         "Running autofix checks (affect status build but you can autofix them locally)";;
       autofix_status ← subprocess_call (cmd ++ ["-c"; pre_commit_cfg_autofix l]);
       let status := status + autofix_status in
       let test_name := "Autofix checks" in
       (if negb (autofix_status =? 0) then
          logger logging.ERROR (test_name +:+ " reformatted");;
          record_tier test_name (TierResult autofix_status logging.ERROR "Reformatted")
        else
          logger logging.INFO (test_name +:+ " passed!");;
          record_tier test_name (TierResult autofix_status logging.INFO "Passed"));;
       logger logging.INFO (Py.repeat_str "-" 66);;
       mret status
     else mret status);
  logger logging.INFO
    (Py.repeat_str "*" 25 +:+ " MANDATORY CHECKS " +:+ Py.repeat_str "*" 25);;
  logger logging.INFO "Running mandatory checks (affect status build)";;
  mandatory_status ← subprocess_call (cmd ++ ["-c"; pre_commit_cfg_mandatory l]);
  let status := status + mandatory_status in
  let test_name := "Mandatory checks" in
  (if negb (status =? 0) then
     logger logging.ERROR (test_name +:+ " failed");;
     record_tier test_name (TierResult mandatory_status logging.ERROR "Failed")
   else
     logger logging.INFO (test_name +:+ " passed!");;
     record_tier test_name (TierResult mandatory_status logging.INFO "Passed"));;
  logger logging.INFO (Py.repeat_str "*" 68);;
  logger logging.INFO
    (Py.repeat_str "~" 25 +:+ " OPTIONAL CHECKS " +:+ Py.repeat_str "~" 25);;
  logger logging.INFO "Running optional checks (does not affect status build)";;
  status_optional ←
    subprocess_call
      (cmd ++ ["-c"; Py.path_join (repo_dirname l) (pre_commit_cfg_optional l)]);
  let test_name := "Optional checks" in
  (if negb (status_optional =? 0) then
     logger logging.WARNING "Optional checks failed";;
     record_tier test_name (TierResult status_optional logging.WARNING "Failed")
   else
     logger logging.INFO "Optional checks passed!";;
     record_tier test_name (TierResult status_optional logging.INFO "Passed"));;
  logger logging.INFO (Py.repeat_str "~" 67);;
  all_status ← gets all_status;
  print_summary all_status;;
  if do_exit then raise (SystemExit (if status =? 0 then 0 else 1)) else mret tt.

Definition main (do_exit : bool) : M unit :=
  l ← main_setup;
  cmd ← main_scope l;
  main_tiers l cmd do_exit.

End Program.

(** The exit code of the process that ran [main] as its entry point: the
    argument of [sys.exit], 1 for any other exception that nothing catches,
    0 when the interpreter reaches the end of the script. *)
Definition exit_code (r : result unit) : Z :=
  match r with
  | Ok _ => 0
  | Raise (SystemExit code) => code
  | Raise _ => 1
  end.

(** The state [main] starts in: a file system and an environment, nothing
    called or logged yet. *)
Definition start (files : gmap string node) (env : gmap string string) : state :=
  State files env [] [] [].

(** A command of the checker: [pre-commit run ...]. *)
Definition is_run (command : list string) : bool :=
  match command with
  | prog :: sub :: _ => String.eqb prog "pre-commit" && String.eqb sub "run"
  | _ => false
  end.

(** [d[key]] *)
Fixpoint dict_get {V} (key : string) (d : list (string * V)) : option V :=
  match d with
  | [] => None
  | (k, v) :: rest => if String.eqb k key then Some v else dict_get key rest
  end.

(** ** Vocabulary of the statements *)

(** Every character of [s] is in the class. *)
Fixpoint all_chars (cls : ascii → bool) (s : string) : bool :=
  match s with
  | EmptyString => true
  | String c rest => cls c && all_chars cls rest
  end.

(** [s] is empty or starts with a character outside the class. *)
Definition stops (cls : ascii → bool) (s : string) : bool :=
  match s with
  | EmptyString => true
  | String c _ => negb (cls c)
  end.

(** Nothing, or one quote character. *)
Definition opt_quote (q : string) : bool :=
  match q with
  | EmptyString => true
  | String c EmptyString => is_quote c
  | _ => false
  end.

Definition TAB : ascii := "009"%char.

(** [n] space characters. *)
Definition spaces (n : nat) : string := Py.repeat_str " " n.

(** The line [kw], spaces, [name], spaces, [=], spaces, an optional quote,
    [value], an optional quote, and whatever follows. *)
Definition export_line (kw : string) (n1 : nat) (name : string) (n2 n3 : nat)
    (q1 value q2 rest : string) : string :=
  kw +:+ spaces n1 +:+ name +:+ spaces n2 +:+ "=" +:+ spaces n3
  +:+ q1 +:+ value +:+ q2 +:+ rest.

(** A computation keeps the relation [R] between the state it starts in
    and the state it ends in, whether it returns or raises. *)
Definition preserves {A} (R : relation state) (m : M A) : Prop :=
  ∀ st, R st (m st).2.

(** The regular files of [st] are there in [st'], with the same text. *)
Definition keeps_files (st st' : state) : Prop :=
  ∀ path text, fs st !! path = Some (File text) → fs st' !! path = Some (File text).

(** The file systems of [st] and [st'] agree everywhere but at [path]. *)
Definition only_changes (path : string) (st st' : state) : Prop :=
  ∀ p, p ≠ path → fs st' !! p = fs st !! p.

(** If no checker command was called in [st], none was in [st']. *)
Definition no_run_added (st st' : state) : Prop :=
  Forall (λ c, is_run c = false) (calls st) → Forall (λ c, is_run c = false) (calls st').

(** The exceptions a computation can raise are in [Q]. *)
Definition throws {A} (Q : exn → Prop) (m : M A) : Prop :=
  ∀ st e st', m st = (Raise e, st') → Q e.

Definition not_exit (e : exn) : Prop := ∀ code, e ≠ SystemExit code.

(** The value of [patch_line]: the line written for [line], without the
    log record. *)
Definition written_line (exclude_lint exclude_regex disable_pylint_checks fname line : string)
  : string :=
  let line1 :=
    if Py.truthy exclude_lint && Py.startswith fname ".pre-commit-config"
       && Py.contains "# EXCLUDE_LINT" line
    then "    " +:+ exclude_regex +:+ Py.chr Py.LF
    else line in
  if Py.truthy disable_pylint_checks && Py.startswith fname ".pre-commit-config"
     && Py.contains "--disable=R0000" line1
  then Py.replace "R0000" disable_pylint_checks line1
  else line1.

(** ** A small installation, for the examples *)

Definition NL : string := Py.chr Py.LF.

(** The line [export FOO = "bar"], newline included. *)
Definition line_foo_bar : string :=
  "export FOO = " +:+ String Py.DQUOTE ("bar" +:+ String Py.DQUOTE NL).

Definition demo_config_yaml : string :=
  "repos:" +:+ NL +:+ "    # EXCLUDE_LINT" +:+ NL +:+ "  args: [--disable=R0000]" +:+ NL.

Definition demo_pylintrc : string :=
  "[MASTER]" +:+ NL +:+ "# run with --disable=R0000" +:+ NL.

Definition demo_files : gmap string node :=
  list_to_map
    [ ("/pkg/cfg", Dir [".pre-commit-config.yaml"; ".pylintrc"; "README.md"; "hooks"]);
      ("/pkg/cfg/.pre-commit-config.yaml", File demo_config_yaml);
      ("/pkg/cfg/.pylintrc", File demo_pylintrc);
      ("/pkg/cfg/README.md", File ("read me" +:+ NL));
      ("/pkg/cfg/hooks", Dir []);
      ("/repo", Dir [".pylintrc"; "variables.sh"]);
      ("/repo/.pylintrc", File ("custom" +:+ NL));
      ("/repo/variables.sh",
       File ("export PRECOMMIT_AUTOFIX=1" +:+ NL +:+ "export EXCLUDE_LINT=a,b" +:+ NL)) ].

(** A world whose repository is [/repo], with the module installed in
    [/pkg]; the three checks return the codes given, every other command
    returns 0, and git lists no file under any path. *)
Definition demo_world (rc_autofix rc_mandatory rc_optional : Z) (cwd : string) : world :=
  World (Some "/repo") cwd "/pkg"
    (λ _, Some [])
    (λ command,
       match command with
       | _ :: sub :: _ =>
           if String.eqb sub "run" then
             let cfg := List.last command EmptyString in
             if String.eqb cfg "/repo/.pre-commit-config-autofix.yaml" then rc_autofix
             else if String.eqb cfg "/repo/.pre-commit-config.yaml" then rc_mandatory
             else rc_optional
           else 0
       | _ => 0
       end)
    (λ path start, "sub")
    (λ msg lvl, msg).

(** The return codes of the three checks, as [main] asks for them. *)
Definition autofix_status (w : world) (l : locals) (cmd : list string) : Z :=
  returncode w (cmd ++ ["-c"; pre_commit_cfg_autofix l]).

Definition mandatory_status (w : world) (l : locals) (cmd : list string) : Z :=
  returncode w (cmd ++ ["-c"; pre_commit_cfg_mandatory l]).

Definition status_optional (w : world) (l : locals) (cmd : list string) : Z :=
  returncode w
    (cmd ++ ["-c"; Py.path_join (repo_dirname l) (pre_commit_cfg_optional l)]).

(** The value of [status] at line 162. *)
Definition cumulative_status (w : world) (l : locals) (cmd : list string) : Z :=
  (if enable_auto_fix l then 0 + autofix_status w l cmd else 0) + mandatory_status w l cmd.

(** The commands of a run: the installation of the hooks of a configuration
    file, and the checks. *)
Definition install_hooks (cfg : string) : list string :=
  ["pre-commit"; "install-hooks"; "--color=always"; "-c"; cfg].

Definition setup_calls (l : locals) : list (list string) :=
  [install_hooks (pre_commit_cfg_mandatory l); install_hooks (pre_commit_cfg_optional l)]
  ++ (if enable_auto_fix l then [install_hooks (pre_commit_cfg_autofix l)] else []).

Definition tier_calls (l : locals) (cmd : list string) : list (list string) :=
  (if enable_auto_fix l then [cmd ++ ["-c"; pre_commit_cfg_autofix l]] else [])
  ++ [cmd ++ ["-c"; pre_commit_cfg_mandatory l];
      cmd ++ ["-c"; Py.path_join (repo_dirname l) (pre_commit_cfg_optional l)]].

(** The state differs from the one before by the log, the files or the
    environment, not by the commands called. *)
Definition same_calls (st st' : state) : Prop := calls st' = calls st.

(** ** Vocabulary of the further properties *)

(** What a deterministic reading of a line after the sign [=] keeps as the
    value: the spaces are passed, then one quote if there is one, and the
    value is the longest run of value characters from there. *)
Definition value_after_equal (tail : string) : string :=
  let t1 := Re.drop (Re.run (is_char " ") None tail) tail in
  let t2 := Re.drop (Re.run is_quote (Some 1%nat) t1) t1 in
  Re.take (Re.run is_value_char None t2) t2.

(** The text must start with the sign [=]. *)
Definition after_equal (s : string) : option string :=
  match s with
  | String c tail => if Ascii.eqb c "=" then Some (value_after_equal tail) else None
  | EmptyString => None
  end.

(** One pass over a line, from left to right and without going back: the
    keyword in one of its two spellings, at least one space, the longest run
    of word characters (the name), spaces, the sign [=], the value.  The
    result is the keyword, the name and the value. *)
Definition scan_export (line : string) : option (string * string * string) :=
  kw ← (if String.prefix "export" line then Some "export"
        else if String.prefix "EXPORT" line then Some "EXPORT"
        else None);
  let s1 := Re.drop 6 line in
  let n := Re.run (is_char " ") None s1 in
  if (n =? 0)%nat then None
  else
    let s2 := Re.drop n s1 in
    let m := Re.run Py.isword None s2 in
    let s3 := Re.drop m s2 in
    v ← after_equal (Re.drop (Re.run (is_char " ") None s3) s3);
    Some (kw, Re.take m s2, v).

(** [open(path, "w")] succeeds: a regular file is there, or nothing is there
    and the directory the path lies in exists. *)
Definition writable (m : gmap string node) (path : string) : bool :=
  match m !! path with
  | Some (File _) => true
  | Some (Dir _) => false
  | None => dir_exists m (Py.dirname path)
  end.

(** The entry is passed because the repository has its own file: [overwrite]
    is false and a regular file is at the destination (line 51). *)
Definition uses_custom (overwrite : bool) (m : gmap string node) (dst : string) : bool :=
  negb overwrite && match m !! dst with Some (File _) => true | _ => false end.

(** The names [copy_cfg_files] distributes. *)
Definition qualifies (fname : string) : bool :=
  Py.startswith fname "." || String.eqb fname "pyproject.toml".

(** The world [w] with other return codes. *)
Definition with_returncode (w : world) (rc : list string → Z) : world :=
  World (git_toplevel w) (getcwd w) (module_dir w) (git_ls_files w) rc
    (relpath w) (colorized_msg w).

(** The states have the same environment. *)
Definition same_environ (st st' : state) : Prop := environ st' = environ st.

(** The states differ by the log at most. *)
Definition same_but_log (st st' : state) : Prop :=
  fs st' = fs st ∧ environ st' = environ st ∧ calls st' = calls st
  ∧ all_status st' = all_status st.

(** What [copy_cfg_files] leaves at the destination of a template of text
    [text]: the lines written for its lines, or nothing when the template and
    the destination are the same path (opening the destination empties the
    file before its first line is read). *)
Definition copied_text (exclude_lint disable_pylint_checks fname src dst text : string)
  : string :=
  if bool_decide (src = dst) then EmptyString
  else Py.concat_str
         (map (written_line exclude_lint (exclude_regex_of exclude_lint)
                 disable_pylint_checks fname)
              (Py.file_lines text)).

(** Every space and every dash of [s] comes just after a backslash; [prev]
    is the character before [s]. *)
Fixpoint guarded (prev : option ascii) (s : string) : bool :=
  match s with
  | EmptyString => true
  | String c rest =>
      (if Ascii.eqb c " " || Ascii.eqb c "-"
       then match prev with
            | Some p => Ascii.eqb p Py.BACKSLASH
            | None => false
            end
       else true)
      && guarded (Some c) rest
  end.

(** The line is the keyword in one of its two spellings, [S n1] spaces, a
    name of word characters, [n2] spaces, the sign [=] and [tail]. *)
Definition export_shape (kw : string) (n1 : nat) (name : string) (n2 : nat)
    (tail line : string) : Prop :=
  (kw = "export" ∨ kw = "EXPORT")
  ∧ all_chars Py.isword name = true
  ∧ line = kw +:+ spaces (S n1) +:+ name +:+ spaces n2 +:+ "=" +:+ tail.


(** * Properties *)

(** ** The library functions on examples *)

Example strip_ex : Py.strip "  a b  " = "a b".
Proof. reflexivity. Qed.

Example split_ex : Py.split "," ",a,, b ," = [EmptyString; "a"; EmptyString; " b "; EmptyString].
Proof. reflexivity. Qed.

Example replace_ex : Py.replace "R0000" "X" "aR0000R0000R00000" = "aXXX0".
Proof. reflexivity. Qed.

Example file_lines_ex :
  Py.file_lines ("ab" +:+ Py.chr Py.LF +:+ Py.chr Py.LF +:+ "c")
  = ["ab" +:+ Py.chr Py.LF; Py.chr Py.LF; "c"].
Proof. reflexivity. Qed.

Example path_join_ex :
  Py.path_join "/repo" ".a" = "/repo/.a" ∧ Py.path_join "/repo/" ".a" = "/repo/.a"
  ∧ Py.path_join "/repo" "/x/.a" = "/x/.a" ∧ Py.path_join EmptyString ".a" = ".a".
Proof. repeat split; reflexivity. Qed.

Example re_export_ex1 :
  Re.match_ re_export line_foo_bar
  = Some [("export", "export"); ("variable", "FOO"); ("value", "bar")].
Proof. reflexivity. Qed.

Example re_export_ex2 : Re.match_ re_export "echo hi" = None.
Proof. reflexivity. Qed.

Example re_export_ex3 :
  Re.match_ re_export "export =1"
  = Some [("export", "export"); ("variable", EmptyString); ("value", "1")].
Proof. reflexivity. Qed.

Example re_export_ex4 :
  Re.match_ re_export "EXPORT  A_b9=x/y z;rest"
  = Some [("export", "EXPORT"); ("variable", "A_b9"); ("value", "x/y z")].
Proof. reflexivity. Qed.

(** ** The monad *)

Lemma bind_ok {A B} (m : M A) (f : A → M B) st a st' :
  m st = (Ok a, st') → (m ≫= f) st = f a st'.
Proof. intros H. unfold mbind, M_bind. by rewrite H. Qed.

Lemma bind_raise {A B} (m : M A) (f : A → M B) st e st' :
  m st = (Raise e, st') → (m ≫= f) st = (Raise e, st').
Proof. intros H. unfold mbind, M_bind. by rewrite H. Qed.

Lemma bind_inv_ok {A B} (m : M A) (f : A → M B) st b st' :
  (m ≫= f) st = (Ok b, st') → ∃ a st1, m st = (Ok a, st1) ∧ f a st1 = (Ok b, st').
Proof.
  unfold mbind, M_bind. destruct (m st) as [[a|e] st1]; [eauto | discriminate].
Qed.

(** Unfold the operations of the monad in straight-line code. *)
Ltac run_monad :=
  unfold subprocess_call, print_summary, record_tier, logger, modify, gets, raise,
    mbind, M_bind, mret, M_ret;
  simpl.

(** ** The parser *)

Lemma envdict_update_foo_bar envdict :
  envdict_update envdict line_foo_bar = <["FOO" := "bar"]> envdict.
Proof. reflexivity. Qed.

Lemma envdict_update_echo envdict :
  envdict_update envdict ("echo hi" +:+ Py.chr Py.LF) = envdict.
Proof. reflexivity. Qed.

(** A line that starts with neither spelling of the keyword adds nothing. *)
Lemma envdict_update_other_line envdict line :
  Py.startswith line "export" = false → Py.startswith line "EXPORT" = false →
  envdict_update envdict line = envdict.
Proof.
  unfold Py.startswith, envdict_update, Re.match_, re_export. intros H1 H2.
  simpl. by rewrite H1, H2.
Qed.

Lemma envfile2envdict_file repo source_file st text :
  fs st !! Py.path_join repo source_file = Some (File text) →
  (envfile2envdict repo source_file st).1
  = Ok (foldl envdict_update ∅ (Py.file_lines text)).
Proof.
  intros H. unfold envfile2envdict, isfile, open_r, read, logger, modify, gets.
  unfold mbind, M_bind, mret, M_ret. simpl.
  repeat (rewrite H; simpl). reflexivity.
Qed.

Lemma envfile2envdict_missing repo source_file st :
  (∀ text, fs st !! Py.path_join repo source_file ≠ Some (File text)) →
  (envfile2envdict repo source_file st).1 = Ok ∅.
Proof.
  intros H. unfold envfile2envdict, isfile, logger, modify, gets.
  unfold mbind, M_bind, mret, M_ret. simpl.
  destruct (fs st !! Py.path_join repo source_file) as [[text|names]|] eqn:E;
    [by destruct (H text) | done | done].
Qed.

(** C7. A file made of the line [export FOO = "bar"] and of the line
    [echo hi] parses to the mapping with the single entry FOO -> bar, the
    quotes stripped; more precisely the first line sets FOO to bar in any
    mapping built so far, and the second line leaves any mapping as it is. *)
Theorem envfile2envdict_export_foo_bar :
  ∀ repo source_file st,
    fs st !! Py.path_join repo source_file
      = Some (File (line_foo_bar +:+ "echo hi" +:+ Py.chr Py.LF)) →
    (envfile2envdict repo source_file st).1 = Ok {["FOO" := "bar"]}
    ∧ (∀ envdict, envdict_update envdict line_foo_bar = <["FOO" := "bar"]> envdict)
    ∧ (∀ envdict, envdict_update envdict ("echo hi" +:+ Py.chr Py.LF) = envdict).
Proof.
  intros repo source_file st H. split; [| split].
  - rewrite (envfile2envdict_file _ _ _ _ H). reflexivity.
  - apply envdict_update_foo_bar.
  - apply envdict_update_echo.
Qed.

Lemma envfile2envdict_export_foo_bar_witness :
  (envfile2envdict "/repo" "variables.sh"
     (start {["/repo/variables.sh" := File (line_foo_bar +:+ "echo hi" +:+ Py.chr Py.LF)]}
            ∅)).1
  = Ok {["FOO" := "bar"]}.
Proof.
  apply (envfile2envdict_export_foo_bar "/repo" "variables.sh"
           (start {["/repo/variables.sh" :=
                      File (line_foo_bar +:+ "echo hi" +:+ Py.chr Py.LF)]} ∅)).
  reflexivity.
Defined.

(** C9. The variable part of [re_export] accepts no character at all: the
    line [export =1] adds the entry whose key is the empty string, and a
    file made of that line parses to a mapping with the empty key. *)
Theorem envfile2envdict_empty_variable :
  ∃ line,
    (∀ envdict, envdict_update envdict line = <[EmptyString := "1"]> envdict)
    ∧ ∀ repo source_file env,
        ∃ envdict,
          (envfile2envdict repo source_file
             (start {[Py.path_join repo source_file := File line]} env)).1 = Ok envdict
          ∧ envdict !! EmptyString = Some "1".
Proof.
  exists "export =1". split; [reflexivity |].
  intros repo source_file env. eexists. split.
  - apply envfile2envdict_file. simpl. apply lookup_singleton_eq.
  - reflexivity.
Qed.

(** ** The summary *)

Lemma summary_msg_same_rows w d1 d2 :
  Forall2 (λ a b, a.1 = b.1 ∧ status_msg a.2 = status_msg b.2 ∧ level a.2 = level b.2)
    d1 d2 →
  summary_msg w d1 = summary_msg w d2.
Proof.
  intros H. unfold summary_msg. do 2 f_equal.
  induction H as [| [n1 r1] [n2 r2] l1 l2 (Hn & Hm & Hl) _ IH]; [done |].
  simpl in *. subst n2. rewrite Hm, Hl, IH.
  by destruct (status r1 =? 0), (status r2 =? 0).
Qed.

(** C10. Two dictionaries that differ in the [status] of one tier only, the
    message and the level being the same, give the same summary lines and
    the same logged summary; the row of that tier is the padded name followed
    by the message coloured for the level, whatever the status. *)
Theorem print_summary_ignores_status :
  ∀ w before after test_name msg lvl (s1 s2 : Z),
    let d1 := before ++ (test_name, TierResult s1 lvl msg) :: after in
    let d2 := before ++ (test_name, TierResult s2 lvl msg) :: after in
    summary_msg w d1 = summary_msg w d2
    ∧ print_summary w d1 = print_summary w d2
    ∧ summary_msg w d1 !! (3 + length before)%nat
      = Some ("| " +:+ Py.ljust 28 test_name +:+ colorized_msg w msg lvl).
Proof.
  intros w before after test_name msg lvl s1 s2 d1 d2.
  assert (E : summary_msg w d1 = summary_msg w d2).
  { apply summary_msg_same_rows. subst d1 d2.
    apply Forall2_app; [by apply Forall_Forall2_diag, Forall_forall |].
    constructor; [done |]. by apply Forall_Forall2_diag, Forall_forall. }
  split; [exact E |]. split.
  - unfold print_summary. by rewrite E.
  - subst d1. unfold summary_msg.
    rewrite (lookup_app_r [_; _; _]) by (simpl; lia).
    rewrite map_app, <- app_assoc.
    rewrite lookup_app_r by (rewrite length_map; simpl; lia).
    rewrite length_map. simpl length.
    replace (3 + length before - 3 - length before)%nat with 0%nat by lia.
    simpl. by destruct (s1 =? 0).
Qed.

(** ** Matching [re_export] *)

#[local] Arguments String.append : simpl nomatch.

Lemma take_app a b : Re.take (String.length a) (a +:+ b) = a.
Proof. induction a as [| c a IH]; simpl; [by destruct b | by rewrite IH]. Qed.

Lemma drop_app a b : Re.drop (String.length a) (a +:+ b) = b.
Proof. induction a as [| c a IH]; simpl; [by destruct b | done]. Qed.

Lemma append_assoc (a b c : string) : (a +:+ b) +:+ c = a +:+ b +:+ c.
Proof. induction a as [| x a IH]; simpl; [done | by rewrite IH]. Qed.

Lemma append_nil_r (a : string) : a +:+ EmptyString = a.
Proof. induction a as [| x a IH]; simpl; [done | by rewrite IH]. Qed.

Lemma run_stops cls hi s : stops cls s = true → Re.run cls hi s = 0%nat.
Proof.
  destruct s as [| c s]; simpl; [done |]. intros H%negb_true_iff.
  rewrite H. by destruct hi as [[| h] |].
Qed.

Lemma run_app cls a b :
  all_chars cls a = true → stops cls b = true →
  Re.run cls None (a +:+ b) = String.length a.
Proof.
  intros Ha Hb. induction a as [| c a IH]; simpl.
  - by apply run_stops.
  - simpl in Ha. apply andb_true_iff in Ha as [Hc Ha]. rewrite Hc. f_equal. auto.
Qed.

Lemma run_one cls c s : cls c = true → Re.run cls (Some 1%nat) (String c s) = 1%nat.
Proof. intros H. simpl. rewrite H. by destruct s. Qed.

Lemma give_back_first {A} (try : nat → option A) lo k r :
  (lo ≤ k)%nat → try k = Some r → Re.give_back try lo k = Some r.
Proof.
  intros Hk Ht. destruct k; simpl; rewrite Ht.
  - by replace lo with 0%nat by lia.
  - destruct (Nat.ltb_spec (S k) lo); [lia | done].
Qed.

(** A greedy repetition whose longest run lets the rest of the pattern match
    never gives a character back. *)
Lemma match_rep name cls lo hi rest prev s k g :
  Re.run cls hi s = k → (lo ≤ k)%nat →
  Re.match_items rest (Re.last_before prev k s) (Re.drop k s) = Some g →
  Re.match_items (Re.Rep name cls lo hi :: rest) prev s
  = Some (Re.bind_group name (Re.take k s) g).
Proof.
  intros Hr Hk Hg. simpl. rewrite Hr.
  apply give_back_first; [done |]. by rewrite Hg.
Qed.

Lemma match_rep_app name cls lo rest prev a b g :
  all_chars cls a = true → stops cls b = true → (lo ≤ String.length a)%nat →
  (∀ prev', Re.match_items rest prev' b = Some g) →
  Re.match_items (Re.Rep name cls lo None :: rest) prev (a +:+ b)
  = Some (Re.bind_group name a g).
Proof.
  intros Ha Hb Hlo Hg.
  rewrite <- (take_app a b) at 2.
  apply match_rep; [by apply run_app | done |]. by rewrite drop_app.
Qed.

Lemma all_chars_spaces n : all_chars (is_char " ") (spaces n) = true.
Proof. unfold spaces. induction n; simpl; [done | by rewrite IHn]. Qed.

Lemma length_spaces n : String.length (spaces n) = n.
Proof. unfold spaces. induction n; simpl; [done | by rewrite IHn]. Qed.

Lemma spaces_add a b : spaces (a + b) = spaces a +:+ spaces b.
Proof. unfold spaces. induction a; simpl; [done | by rewrite IHa]. Qed.

Lemma quote_not_value c : is_quote c = true → is_value_char c = false.
Proof.
  unfold is_quote. intros [H | H]%orb_true_iff; apply Ascii.eqb_eq in H; by subst c.
Qed.

Lemma value_not_quote c : is_value_char c = true → is_quote c = false.
Proof.
  intros H. destruct (is_quote c) eqn:E; [| done].
  apply quote_not_value in E. congruence.
Qed.

Lemma space_is_value c : is_char " " c = true → is_value_char c = true.
Proof. intros H. apply Ascii.eqb_eq in H. by subst c. Qed.

Lemma word_not_space c : Py.isword c = true → is_char " " c = false.
Proof.
  intros H. destruct (is_char " " c) eqn:E; [| done].
  apply Ascii.eqb_eq in E. by subst c.
Qed.

Lemma stops_weaken (cls1 cls2 : ascii → bool) s :
  (∀ c, cls1 c = true → cls2 c = true) → stops cls2 s = true → stops cls1 s = true.
Proof.
  intros H. destruct s as [| c s]; simpl; [done |].
  intros Hc%negb_true_iff. apply negb_true_iff.
  destruct (cls1 c) eqn:E; [| done]. apply H in E. congruence.
Qed.

Local Abbreviation re_quote := (Re.Rep None is_quote 0 (Some 1%nat)).
Local Abbreviation re_value := (Re.Rep (Some "value") is_value_char 0 None).
Local Abbreviation re_spaces := (Re.Rep None (is_char " ") 0 None).
Local Abbreviation re_equal := (Re.Rep None (is_char "=") 1 (Some 1%nat)).
Local Abbreviation re_variable := (Re.Rep (Some "variable") Py.isword 0 None).

Lemma match_close_quote prev s : Re.match_items [re_quote] prev s = Some [].
Proof.
  by apply (match_rep None is_quote 0 (Some 1%nat) [] prev s
              (Re.run is_quote (Some 1%nat) s) []); [| lia |].
Qed.

Lemma match_value prev v b :
  all_chars is_value_char v = true → stops is_value_char b = true →
  Re.match_items [re_value; re_quote] prev (v +:+ b) = Some [("value", v)].
Proof.
  intros Hv Hb.
  apply (match_rep_app (Some "value") is_value_char 0 [re_quote] prev v b []);
    [done | done | lia |]. intros prev'. apply match_close_quote.
Qed.

Lemma stops_value_close q2 rest :
  opt_quote q2 = true → stops is_value_char rest = true →
  stops is_value_char (q2 +:+ rest) = true.
Proof.
  intros Hq Hr. destruct q2 as [| c [| ? ?]]; simpl in *; [done | | done].
  by rewrite quote_not_value.
Qed.

Lemma match_quoted prev q1 v q2 rest :
  opt_quote q1 = true → all_chars is_value_char v = true → opt_quote q2 = true →
  stops is_value_char rest = true → stops is_quote rest = true →
  Re.match_items [re_quote; re_value; re_quote] prev (q1 +:+ v +:+ q2 +:+ rest)
  = Some [("value", v)].
Proof.
  intros Hq1 Hv Hq2 Hrv Hrq.
  pose proof (stops_value_close q2 rest Hq2 Hrv) as Hb.
  destruct q1 as [| c [| ? ?]]; simpl in Hq1; [| | done].
  - destruct v as [| x v].
    + destruct q2 as [| c [| ? ?]]; simpl in Hq2; [| | done].
      * apply (match_rep None is_quote 0 (Some 1%nat) _ prev _ 0%nat [("value", EmptyString)]);
          [by apply run_stops | lia |]. apply (match_value _ EmptyString rest); done.
      * apply (match_rep None is_quote 0 (Some 1%nat) _ prev _ 1%nat [("value", EmptyString)]);
          [by apply run_one | lia |]. apply (match_value _ EmptyString rest); done.
    + simpl in Hv. apply andb_true_iff in Hv as [Hx Hv].
      apply (match_rep None is_quote 0 (Some 1%nat) _ prev _ 0%nat [("value", String x v)]);
        [apply run_stops; simpl; by rewrite value_not_quote | lia |].
      apply (match_value _ (String x v) (q2 +:+ rest)); [| done].
      simpl. by rewrite Hx.
  - apply (match_rep None is_quote 0 (Some 1%nat) _ prev _ 1%nat [("value", v)]);
      [by apply run_one | lia |]. by apply (match_value _ v (q2 +:+ rest)).
Qed.

Lemma stops_space_quoted q1 v q2 rest :
  opt_quote q1 = true → opt_quote q2 = true →
  (q1 = EmptyString → stops (is_char " ") v = true) →
  all_chars is_value_char v = true →
  stops is_value_char rest = true →
  stops (is_char " ") (q1 +:+ v +:+ q2 +:+ rest) = true.
Proof.
  intros Hq1 Hq2 Hsp Hv Hr.
  destruct q1 as [| c [| ? ?]]; simpl in Hq1; [| | done].
  - specialize (Hsp eq_refl). destruct v as [| x v]; [| done].
    apply (stops_weaken _ is_value_char); [apply space_is_value |].
    simpl. by apply stops_value_close.
  - simpl. apply negb_true_iff. destruct (is_char " " c) eqn:E; [| done].
    apply space_is_value in E. apply quote_not_value in Hq1. congruence.
Qed.

Lemma match_assignment prev name n2 n3 q1 v q2 rest :
  all_chars Py.isword name = true →
  opt_quote q1 = true → all_chars is_value_char v = true → opt_quote q2 = true →
  (q1 = EmptyString → stops (is_char " ") v = true) →
  stops is_value_char rest = true → stops is_quote rest = true →
  Re.match_items
    [re_variable; re_spaces; re_equal; re_spaces; re_quote; re_value; re_quote]
    prev (name +:+ spaces n2 +:+ "=" +:+ spaces n3 +:+ q1 +:+ v +:+ q2 +:+ rest)
  = Some [("variable", name); ("value", v)].
Proof.
  intros Hn Hq1 Hv Hq2 Hsp Hrv Hrq.
  apply (match_rep_app (Some "variable") Py.isword 0 _ prev name _ [("value", v)]);
    [done | by destruct n2 | lia |]. intros p3.
  apply (match_rep_app None (is_char " ") 0 _ p3 (spaces n2) _ [("value", v)]);
    [apply all_chars_spaces | done | lia |]. intros p4.
  apply (match_rep None (is_char "=") 1 (Some 1%nat) _ p4 _ 1%nat [("value", v)]);
    [by apply run_one | lia |]. simpl Re.drop.
  apply (match_rep_app None (is_char " ") 0 _ _ (spaces n3) _ [("value", v)]);
    [apply all_chars_spaces | by apply stops_space_quoted | lia |]. intros p6.
  by apply match_quoted.
Qed.

Lemma match_re_export kw n1 name n2 n3 q1 v q2 rest :
  kw = "export" ∨ kw = "EXPORT" →
  all_chars Py.isword name = true →
  opt_quote q1 = true → all_chars is_value_char v = true → opt_quote q2 = true →
  (q1 = EmptyString → stops (is_char " ") v = true) →
  stops is_value_char rest = true → stops is_quote rest = true →
  Re.match_ re_export (export_line kw (S n1) name n2 n3 q1 v q2 rest)
  = Some [("export", kw); ("variable", name); ("value", v)].
Proof.
  intros Hkw Hn Hq1 Hv Hq2 Hsp Hrv Hrq.
  assert (Hgen : ∀ m1 m2, (name = EmptyString → m2 = 0%nat) →
    Re.match_ re_export (export_line kw (S m1) name m2 n3 q1 v q2 rest)
    = Some [("export", kw); ("variable", name); ("value", v)]).
  { intros m1 m2 Hm. unfold Re.match_, export_line, re_export.
    match goal with |- Re.match_items (_ :: _ :: ?r) _ _ = _ => set (R := r) end.
    assert (Hrest : ∀ prev,
      Re.match_items R prev
        (spaces (S m1) +:+ name +:+ spaces m2 +:+ "=" +:+ spaces n3
         +:+ q1 +:+ v +:+ q2 +:+ rest)
      = Some [("variable", name); ("value", v)]).
    { intros prev. subst R.
      apply (match_rep_app None (is_char " ") 1 _ prev (spaces (S m1)) _
               [("variable", name); ("value", v)]);
        [apply all_chars_spaces | | rewrite length_spaces; lia
        | intros p; by apply match_assignment].
      destruct name as [| c name]; [by rewrite Hm |].
      simpl in Hn. apply andb_true_iff in Hn as [Hc _].
      simpl. by rewrite word_not_space. }
    clearbody R.
    destruct Hkw as [-> | ->]; simpl; rewrite Hrest; reflexivity. }
  destruct name as [| c name]; [| by apply Hgen].
  rewrite <- (Hgen (n1 + n2)%nat 0%nat (λ _, eq_refl)).
  unfold export_line. do 2 f_equal.
  change (S (n1 + n2)) with (S n1 + n2)%nat.
  rewrite spaces_add, append_assoc. reflexivity.
Qed.

(** The quoted form.  A line that starts with the keyword spelled
    [export] or [EXPORT], then one or more spaces, a name of word characters,
    any number of spaces, [=], any number of spaces, an optional quote, a
    value of value characters, an optional quote, and then ends or goes on
    with a character that is neither a value character nor a quote, produces
    the entry name -> value.  (Without an opening quote the value must not
    start with a space: the spaces after [=] are not part of it.) *)
Lemma envdict_update_export_line :
  ∀ kw n1 name n2 n3 q1 value q2 rest (envdict : gmap string string),
    kw = "export" ∨ kw = "EXPORT" →
    all_chars Py.isword name = true →
    opt_quote q1 = true →
    all_chars is_value_char value = true →
    opt_quote q2 = true →
    (q1 = EmptyString → stops (is_char " ") value = true) →
    stops is_value_char rest = true →
    stops is_quote rest = true →
    envdict_update envdict (export_line kw (S n1) name n2 n3 q1 value q2 rest)
    = <[name := value]> envdict.
Proof.
  intros kw n1 name n2 n3 q1 value q2 rest envdict Hkw Hn Hq1 Hv Hq2 Hsp Hrv Hrq.
  unfold envdict_update.
  rewrite (match_re_export kw n1 name n2 n3 q1 value q2 rest) by done.
  reflexivity.
Qed.

(** C8, as stated, fails: the keyword is matched in two spellings only, and
    only spaces may surround [=].  A line that starts with [Export], and a
    line with tabs around [=], add no entry; a file made of them parses to
    the empty mapping. *)
Lemma envfile2envdict_Export_and_tabs_skipped :
  envdict_update ∅ ("Export FOO = bar" +:+ Py.chr Py.LF) = ∅
  ∧ envdict_update ∅
      ("export FOO" +:+ Py.chr TAB +:+ "=" +:+ Py.chr TAB +:+ "bar" +:+ Py.chr Py.LF) = ∅
  ∧ (envfile2envdict "/repo" "variables.sh"
       (start {["/repo/variables.sh" :=
                  File ("Export FOO = bar" +:+ Py.chr Py.LF +:+
                        "export FOO" +:+ Py.chr TAB +:+ "=" +:+ Py.chr TAB +:+ "bar"
                        +:+ Py.chr Py.LF)]} ∅)).1 = Ok ∅.
Proof. split; [| split]; vm_compute; reflexivity. Qed.

(** ** Frame rules *)

#[local] Instance keeps_files_preorder : PreOrder keeps_files.
Proof. split; [by intros st p c | intros a b c H1 H2 p t Hp; eauto]. Qed.

#[local] Instance only_changes_preorder path : PreOrder (only_changes path).
Proof.
  split; [by intros st p | intros a b c H1 H2 p Hp; by rewrite H2, H1].
Qed.

#[local] Instance no_run_added_preorder : PreOrder no_run_added.
Proof.
  split; [intros st H; exact H | intros a b c H1 H2 H; apply H2, H1, H].
Qed.

Section Frame.

Context (R : relation state) {HR : PreOrder R}.
Hypothesis R_log : ∀ f st, R st (set_log f st).

Lemma preserves_ret {A} (a : A) : preserves R (mret a).
Proof. intros st. change (R st st). reflexivity. Qed.

Lemma preserves_raise {A} e : preserves R (@raise A e).
Proof. intros st. change (R st st). reflexivity. Qed.

Lemma preserves_gets {A} (f : state → A) : preserves R (gets f).
Proof. intros st. change (R st st). reflexivity. Qed.

Lemma preserves_bind {A B} (m : M A) (f : A → M B) :
  preserves R m → (∀ a, preserves R (f a)) → preserves R (m ≫= f).
Proof.
  intros Hm Hf st. specialize (Hm st). unfold mbind, M_bind.
  destruct (m st) as [[a | e] st1]; simpl in *; [| done].
  etrans; [exact Hm | apply Hf].
Qed.

Lemma preserves_for_each {A} (l : list A) (body : A → M unit) :
  (∀ x, preserves R (body x)) → preserves R (for_each l body).
Proof.
  intros Hb. induction l as [| x l IH]; simpl.
  - apply preserves_ret.
  - apply preserves_bind; [apply Hb | by intros _].
Qed.

Lemma preserves_logger lvl msg : preserves R (logger lvl msg).
Proof. intros st. apply R_log. Qed.

Lemma preserves_isfile path : preserves R (isfile path).
Proof. apply preserves_gets. Qed.

Lemma preserves_read path : preserves R (read path).
Proof. apply preserves_gets. Qed.

Lemma preserves_listdir path : preserves R (listdir path).
Proof.
  intros st. unfold listdir. by destruct (fs st !! path) as [[? | ?] |].
Qed.

Lemma preserves_open_r path : preserves R (open_r path).
Proof.
  intros st. unfold open_r. by destruct (fs st !! path) as [[? | ?] |].
Qed.

Lemma preserves_patch_line exclude_lint exclude_regex disable fname dst line :
  preserves R (patch_line exclude_lint exclude_regex disable fname dst line).
Proof.
  unfold patch_line. apply preserves_bind.
  - destruct (_ && _); [| apply preserves_ret].
    apply preserves_bind; [apply preserves_logger | intros _; apply preserves_ret].
  - intros l. destruct (_ && _); apply preserves_ret.
Qed.

Lemma preserves_envfile2envdict repo source_file :
  preserves R (envfile2envdict repo source_file).
Proof.
  unfold envfile2envdict. apply preserves_bind; [apply preserves_isfile |].
  intros []; simpl.
  - apply preserves_bind; [apply preserves_open_r | intros _].
    apply preserves_bind; [apply preserves_logger | intros _].
    apply preserves_bind; [apply preserves_read | intros text; apply preserves_ret].
  - apply preserves_bind; [apply preserves_logger | intros _; apply preserves_ret].
Qed.

Lemma preserves_print_summary w d : preserves R (print_summary w d).
Proof. apply preserves_logger. Qed.

(** What holds when the relation does not look at the file system. *)
Section IgnoresFiles.

Hypothesis R_fs : ∀ f st, R st (set_fs f st).

Lemma preserves_open_w path : preserves R (open_w path).
Proof.
  intros st. unfold open_w.
  destruct (fs st !! path) as [[? | ?] |]; [apply R_fs | reflexivity |].
  cbv zeta. destruct (dir_exists _ _); [apply R_fs |].
  destruct (below_file _ _ _); reflexivity.
Qed.

Lemma preserves_write path text : preserves R (write path text).
Proof. intros st. apply R_fs. Qed.

Lemma preserves_copy_cfg_files dir repo overwrite exclude_lint disable :
  preserves R (copy_cfg_files dir repo overwrite exclude_lint disable).
Proof.
  unfold copy_cfg_files.
  apply preserves_bind; [apply preserves_logger | intros _].
  apply preserves_bind; [apply preserves_listdir | intros names].
  apply preserves_for_each. intros fname. unfold copy_cfg_file.
  destruct (_ && _); [apply preserves_ret |].
  apply preserves_bind; [apply preserves_isfile | intros []; [| apply preserves_ret]].
  simpl. apply preserves_bind; [apply preserves_isfile | intros d].
  destruct (_ && _); [apply preserves_logger |].
  apply preserves_bind; [apply preserves_open_r | intros _].
  apply preserves_bind; [apply preserves_open_w | intros _].
  apply preserves_bind; [apply preserves_read | intros text].
  apply preserves_for_each. intros line.
  apply preserves_bind; [apply preserves_patch_line | intros l; apply preserves_write].
Qed.

End IgnoresFiles.

End Frame.

(** ** The distributor *)

Lemma keeps_files_log f st : keeps_files st (set_log f st).
Proof. by intros p c. Qed.

Lemma only_changes_log path f st : only_changes path st (set_log f st).
Proof. by intros p. Qed.

Lemma no_run_added_log f st : no_run_added st (set_log f st).
Proof. by intros H. Qed.

Lemma no_run_added_fs f st : no_run_added st (set_fs f st).
Proof. by intros H. Qed.

(** How the primitives run. *)
Lemma bind_isfile {B} path (f : bool → M B) st :
  (isfile path ≫= f) st
  = f (match fs st !! path with Some (File _) => true | _ => false end) st.
Proof. reflexivity. Qed.

Lemma bind_read {B} path (f : string → M B) st :
  (read path ≫= f) st
  = f (match fs st !! path with Some (File c) => c | _ => EmptyString end) st.
Proof. reflexivity. Qed.

Lemma bind_open_r {B} path (f : unit → M B) st :
  (open_r path ≫= f) st
  = match fs st !! path with
    | Some (File _) => f tt st
    | Some (Dir _) => (Raise (IsADirectoryError path), st)
    | None => (Raise (FileNotFoundError path), st)
    end.
Proof.
  unfold mbind, M_bind, open_r. by destruct (fs st !! path) as [[? | ?] |].
Qed.

Lemma bind_open_w {B} path (f : unit → M B) st :
  (open_w path ≫= f) st
  = if writable (fs st) path
    then f tt (set_fs (insert path (File EmptyString)) st)
    else (Raise (match fs st !! path with
                 | Some _ => IsADirectoryError path
                 | None =>
                     if below_file (String.length (Py.dirname path)) (fs st)
                          (Py.dirname path)
                     then NotADirectoryError path
                     else FileNotFoundError path
                 end), st).
Proof.
  unfold mbind, M_bind, open_w, writable.
  destruct (fs st !! path) as [[? | ?] |]; [done | done |].
  cbv zeta. destruct (dir_exists _ _); [done |]. by destruct (below_file _ _ _).
Qed.

Lemma bind_logger {B} lvl msg (f : unit → M B) st :
  (logger lvl msg ≫= f) st = f tt (set_log (λ l, l ++ [(lvl, msg)]) st).
Proof. reflexivity. Qed.

Lemma bind_listdir {B} path (f : list string → M B) st :
  (listdir path ≫= f) st
  = match fs st !! path with
    | Some (Dir names) => f names st
    | Some (File _) => (Raise (NotADirectoryError path), st)
    | None => (Raise (FileNotFoundError path), st)
    end.
Proof.
  unfold mbind, M_bind, listdir. by destruct (fs st !! path) as [[? | ?] |].
Qed.

(** The loop over the lines writes to the destination and nowhere else. *)
Lemma copy_lines_only_changes exclude_lint exclude_regex disable fname dst lines :
  preserves (only_changes dst)
    (for_each lines
       (λ line, line ← patch_line exclude_lint exclude_regex disable fname dst line;
                write dst line)).
Proof.
  apply preserves_for_each; [apply _ |]. intros line.
  apply preserves_bind; [apply _ | |].
  - apply preserves_patch_line; [apply _ | apply only_changes_log].
  - intros l st p Hp. unfold write, modify, set_fs. simpl.
    destruct (fs st !! dst) as [[c | ?] |]; [| done | done].
    by rewrite lookup_insert_ne.
Qed.

(** When nothing may be overwritten, one pass of the loop over the template
    directory leaves every regular file as it is. *)
Lemma copy_cfg_file_keeps_files dir repo exclude_lint exclude_regex disable fname :
  preserves keeps_files
    (copy_cfg_file dir repo false exclude_lint exclude_regex disable fname).
Proof.
  intros st. unfold copy_cfg_file.
  destruct (_ && _); [reflexivity |].
  rewrite bind_isfile.
  destruct (fs st !! Py.path_join dir fname) as [[src_text | ?] |] eqn:Esrc;
    [| reflexivity | reflexivity].
  cbn [negb]. rewrite bind_isfile.
  destruct (fs st !! Py.path_join repo fname) as [[c | names] |] eqn:Edst; cbn [negb andb].
  - apply (preserves_logger keeps_files keeps_files_log _ _ st).
  - rewrite bind_open_r, Esrc, bind_open_w. unfold writable. rewrite Edst. reflexivity.
  - rewrite bind_open_r, Esrc, bind_open_w.
    destruct (writable _ _); [| reflexivity].
    rewrite bind_read.
    match goal with |- keeps_files _ (for_each ?ls ?body ?s).2 =>
      pose proof (copy_lines_only_changes exclude_lint exclude_regex disable fname
                    (Py.path_join repo fname) ls s) as Hl
    end.
    intros p t Hp.
    assert (p ≠ Py.path_join repo fname) as Hne by (intros ->; congruence).
    rewrite (Hl p Hne). unfold set_fs; simpl. by rewrite lookup_insert_ne.
Qed.

Lemma copy_cfg_files_keeps_files dir repo exclude_lint disable :
  preserves keeps_files (copy_cfg_files dir repo false exclude_lint disable).
Proof.
  unfold copy_cfg_files.
  apply preserves_bind; [apply _ | apply preserves_logger, keeps_files_log | intros _].
  apply preserves_bind; [apply _ | apply preserves_listdir; apply _ | intros names].
  apply preserves_for_each; [apply _ |]. intros fname.
  apply copy_cfg_file_keeps_files.
Qed.

(** C4. With [overwrite] false, a regular file that exists at the
    destination of a template entry has the same content after
    [copy_cfg_files], whether the call returns or raises. *)
Theorem copy_cfg_files_keeps_existing :
  ∀ precommit_config_dir repo_dirname exclude_lint disable_pylint_checks fname st text,
    fs st !! Py.path_join repo_dirname fname = Some (File text) →
    fs (copy_cfg_files precommit_config_dir repo_dirname false exclude_lint
          disable_pylint_checks st).2
      !! Py.path_join repo_dirname fname
    = Some (File text).
Proof.
  intros dir repo exclude_lint disable fname st text H.
  by apply (copy_cfg_files_keeps_files dir repo exclude_lint disable st).
Qed.

Lemma copy_cfg_files_keeps_existing_witness :
  fs (copy_cfg_files "/pkg/cfg" "/repo" false "a,b" "C0111" (start demo_files ∅)).2
    !! Py.path_join "/repo" ".pylintrc"
  = Some (File ("custom" +:+ NL)).
Proof.
  apply (copy_cfg_files_keeps_existing "/pkg/cfg" "/repo" "a,b" "C0111" ".pylintrc"
           (start demo_files ∅) ("custom" +:+ NL)).
  reflexivity.
Defined.

(** With [overwrite] true the same file is replaced by the template. *)
Example copy_cfg_files_overwrites :
  fs (copy_cfg_files "/pkg/cfg" "/repo" true "a,b" "C0111" (start demo_files ∅)).2
    !! "/repo/.pylintrc"
  = Some (File demo_pylintrc).
Proof. vm_compute. reflexivity. Qed.

Example replace_placeholder :
  Py.replace "R0000" "C0111,W0201" ("  args: [--disable=R0000]" +:+ NL)
  = "  args: [--disable=C0111,W0201]" +:+ NL.
Proof. reflexivity. Qed.

(** ** What a copied file holds *)

Lemma patch_line_run exclude_lint exclude_regex disable fname dst line st :
  ∃ st', patch_line exclude_lint exclude_regex disable fname dst line st
         = (Ok (written_line exclude_lint exclude_regex disable fname line), st')
         ∧ fs st' = fs st.
Proof.
  unfold patch_line, written_line.
  destruct (Py.truthy exclude_lint && Py.startswith fname ".pre-commit-config"
            && Py.contains "# EXCLUDE_LINT" line);
    run_monad;
    match goal with |- context [if ?c then _ else _] => destruct c end;
    eexists; split; reflexivity.
Qed.

Lemma copy_lines_run exclude_lint exclude_regex disable fname dst lines :
  ∀ st acc,
    fs st !! dst = Some (File acc) →
    fs (for_each lines
          (λ line, line ← patch_line exclude_lint exclude_regex disable fname dst line;
                   write dst line) st).2 !! dst
    = Some (File (acc +:+ Py.concat_str
                    (map (written_line exclude_lint exclude_regex disable fname) lines))).
Proof.
  induction lines as [| line lines IH]; intros st acc Hacc; simpl.
  - by rewrite append_nil_r.
  - destruct (patch_line_run exclude_lint exclude_regex disable fname dst line st)
      as (st1 & Hp & Hfs).
    unfold mbind at 1, M_bind at 1. rewrite (bind_ok _ _ _ _ _ Hp).
    unfold write, modify. cbn [fst snd]. rewrite <- append_assoc.
    apply IH. unfold set_fs; simpl. rewrite Hfs, Hacc. apply lookup_insert_eq.
Qed.

Lemma concat_file_lines text : Py.concat_str (Py.file_lines text) = text.
Proof.
  induction text as [| c text IH]; simpl; [done |].
  destruct (Ascii.eqb c Py.LF); simpl; [by rewrite IH |].
  destruct (Py.file_lines text) as [| l ls]; simpl in *; by rewrite <- IH.
Qed.

(** Without an exclusion list and without a token the copy is verbatim. *)
Lemma written_line_verbatim exclude_regex fname line :
  written_line EmptyString exclude_regex EmptyString fname line = line.
Proof. reflexivity. Qed.

(** ** Exceptions *)

Lemma throws_ret {A} Q (a : A) : throws Q (mret a).
Proof. intros st e st' H. discriminate H. Qed.

Lemma throws_gets {A} Q (f : state → A) : throws Q (gets f).
Proof. intros st e st' H. discriminate H. Qed.

Lemma throws_modify Q f : throws Q (modify f).
Proof. intros st e st' H. discriminate H. Qed.

Lemma throws_raise {A} (Q : exn → Prop) e : Q e → throws Q (@raise A e).
Proof. intros HQ st e' st' H. by inversion H; subst. Qed.

Lemma throws_bind {A B} Q (m : M A) (f : A → M B) :
  throws Q m → (∀ a, throws Q (f a)) → throws Q (m ≫= f).
Proof.
  intros Hm Hf st e st' H. unfold mbind, M_bind in H.
  destruct (m st) as [[a | e1] st1] eqn:E.
  - by apply (Hf a st1 e st').
  - inversion H; subst. by apply (Hm st e st').
Qed.

Lemma throws_for_each {A} Q (l : list A) (body : A → M unit) :
  (∀ x, throws Q (body x)) → throws Q (for_each l body).
Proof.
  intros Hb. induction l as [| x l IH]; simpl.
  - apply throws_ret.
  - apply throws_bind; [apply Hb | by intros _].
Qed.

Lemma throws_listdir path : throws not_exit (listdir path).
Proof.
  intros st e st' H. unfold listdir in H.
  destruct (fs st !! path) as [[? | ?] |]; inversion H; by intros c.
Qed.

Lemma throws_open_r path : throws not_exit (open_r path).
Proof.
  intros st e st' H. unfold open_r in H.
  destruct (fs st !! path) as [[? | ?] |]; inversion H; by intros c.
Qed.

Lemma throws_open_w path : throws not_exit (open_w path).
Proof.
  intros st e st' H. unfold open_w in H.
  destruct (fs st !! path) as [[? | ?] |]; [discriminate H | inversion H; by intros c |].
  cbv zeta in H. destruct (dir_exists _ _); [discriminate H |].
  destruct (below_file _ _ _); inversion H; by intros c.
Qed.

Lemma throws_patch_line Q exclude_lint exclude_regex disable fname dst line :
  throws Q (patch_line exclude_lint exclude_regex disable fname dst line).
Proof.
  unfold patch_line. apply throws_bind.
  - destruct (_ && _); [| apply throws_ret].
    apply throws_bind; [apply throws_modify | intros _; apply throws_ret].
  - intros l. destruct (_ && _); apply throws_ret.
Qed.

Lemma throws_copy_cfg_files dir repo overwrite exclude_lint disable :
  throws not_exit (copy_cfg_files dir repo overwrite exclude_lint disable).
Proof.
  unfold copy_cfg_files.
  apply throws_bind; [apply throws_modify | intros _].
  apply throws_bind; [apply throws_listdir | intros names].
  apply throws_for_each. intros fname. unfold copy_cfg_file.
  destruct (_ && _); [apply throws_ret |].
  apply throws_bind; [apply throws_gets | intros []; [| apply throws_ret]].
  simpl. apply throws_bind; [apply throws_gets | intros d].
  destruct (_ && _); [apply throws_modify |].
  apply throws_bind; [apply throws_open_r | intros _].
  apply throws_bind; [apply throws_open_w | intros _].
  apply throws_bind; [apply throws_gets | intros text].
  apply throws_for_each. intros line.
  apply throws_bind; [apply throws_patch_line | intros l; apply throws_modify].
Qed.

Lemma throws_envfile2envdict repo source_file :
  throws not_exit (envfile2envdict repo source_file).
Proof.
  unfold envfile2envdict. apply throws_bind; [apply throws_gets |].
  intros []; simpl.
  - apply throws_bind; [apply throws_open_r | intros _].
    apply throws_bind; [apply throws_modify | intros _].
    apply throws_bind; [apply throws_gets | intros text; apply throws_ret].
  - apply throws_bind; [apply throws_modify | intros _; apply throws_ret].
Qed.

Lemma throws_subprocess_call Q w command : throws Q (subprocess_call w command).
Proof.
  unfold subprocess_call.
  apply throws_bind; [apply throws_modify | intros _].
  apply throws_bind; [apply throws_modify | intros _; apply throws_ret].
Qed.

Lemma throws_main_setup w : throws not_exit (main_setup w).
Proof.
  unfold main_setup. apply throws_bind.
  { unfold get_repo. destruct (git_toplevel w); [apply throws_ret |].
    apply throws_raise. by intros c. }
  intros repo. apply throws_bind; [apply throws_envfile2envdict | intros envdict].
  apply throws_bind.
  { unfold environ_update. destruct (bool_decide _); [| apply throws_modify].
    apply throws_raise. by intros c. }
  intros _. do 4 (apply throws_bind; [apply throws_gets | intros ?]).
  apply throws_bind; [apply throws_copy_cfg_files | intros _].
  apply throws_bind; [apply throws_modify | intros _].
  do 2 (apply throws_bind; [apply throws_subprocess_call | intros _]).
  apply throws_bind; [| intros _; apply throws_ret].
  destruct (String.eqb _ _); [| apply throws_ret].
  apply throws_bind; [apply throws_subprocess_call | intros _; apply throws_ret].
Qed.

(** ** The orchestrator *)

Lemma preserves_subprocess_call w command :
  is_run command = false → preserves no_run_added (subprocess_call w command).
Proof.
  intros Hc st H. unfold subprocess_call. simpl.
  apply Forall_app. split; [exact H | by constructor].
Qed.

Lemma preserves_main_setup w : preserves no_run_added (main_setup w).
Proof.
  pose proof no_run_added_log as Hlog.
  pose proof no_run_added_fs as Hfs.
  unfold main_setup. apply preserves_bind; [apply _ | |].
  { unfold get_repo. destruct (git_toplevel w);
      [apply preserves_ret | apply preserves_raise]; apply _. }
  intros repo.
  apply preserves_bind; [apply _ | by apply preserves_envfile2envdict; [apply _ |] |].
  intros envdict. apply preserves_bind; [apply _ | |].
  { unfold environ_update. destruct (bool_decide _);
      [apply preserves_raise; apply _ | by intros st H]. }
  intros _. do 4 (apply preserves_bind; [apply _ | apply preserves_gets; apply _ | intros ?]).
  apply preserves_bind; [apply _ | by apply preserves_copy_cfg_files; [apply _ | |] |].
  intros _. apply preserves_bind; [apply _ | by apply preserves_logger | intros _].
  do 2 (apply preserves_bind; [apply _ | by apply preserves_subprocess_call | intros _]).
  apply preserves_bind; [apply _ | | intros _; apply preserves_ret; apply _].
  destruct (String.eqb _ _); [| apply preserves_ret; apply _].
  apply preserves_bind;
    [apply _ | by apply preserves_subprocess_call | intros _; apply preserves_ret; apply _].
Qed.

(** What [main_setup] leaves in the local variables. *)
Lemma main_setup_locals w st l st1 :
  main_setup w st = (Ok l, st1) →
  git_toplevel w = Some (repo_dirname l) ∧ cwd l = getcwd w
  ∧ pre_commit_cfg_mandatory l = Py.path_join (repo_dirname l) ".pre-commit-config.yaml"
  ∧ pre_commit_cfg_optional l
    = Py.path_join (repo_dirname l) ".pre-commit-config-optional.yaml"
  ∧ pre_commit_cfg_autofix l
    = Py.path_join (repo_dirname l) ".pre-commit-config-autofix.yaml".
Proof.
  unfold main_setup, get_repo. intros H.
  destruct (git_toplevel w) as [repo |]; [| discriminate H].
  apply bind_inv_ok in H as (? & ? & E & H). inversion E; subst. clear E.
  repeat (apply bind_inv_ok in H as (? & ? & _ & H)).
  inversion H; subst. simpl. done.
Qed.

Lemma main_scope_empty w l st :
  String.eqb (cwd l) (repo_dirname l) = false →
  git_ls_files w (cwd l) = Some [] →
  ∃ st', main_scope w l st
         = (Raise (UserWarning ("Not files detected in current path "
                                +:+ relpath w (cwd l) (repo_dirname l))), st')
         ∧ calls st' = calls st.
Proof.
  intros Hne Hls. unfold main_scope, get_files. rewrite Hne, Hls. simpl.
  eexists. split; reflexivity.
Qed.

Lemma main_scope_calls w l st : calls (main_scope w l st).2 = calls st.
Proof.
  unfold main_scope, get_files. destruct (String.eqb _ _); simpl; [reflexivity |].
  rewrite bind_logger. destruct (git_ls_files w (cwd l)) as [[| f files] |]; reflexivity.
Qed.

(** The three tiers: what is recorded, what is called and how it ends. *)
Lemma main_tiers_all_status w l cmd do_exit st :
  all_status (main_tiers w l cmd do_exit st).2
  = (if enable_auto_fix l
     then [("Autofix checks",
            if autofix_status w l cmd =? 0
            then TierResult (autofix_status w l cmd) logging.INFO "Passed"
            else TierResult (autofix_status w l cmd) logging.ERROR "Reformatted")]
     else [])
    ++ [("Mandatory checks",
         if cumulative_status w l cmd =? 0
         then TierResult (mandatory_status w l cmd) logging.INFO "Passed"
         else TierResult (mandatory_status w l cmd) logging.ERROR "Failed");
        ("Optional checks",
         if status_optional w l cmd =? 0
         then TierResult (status_optional w l cmd) logging.INFO "Passed"
         else TierResult (status_optional w l cmd) logging.WARNING "Failed")].
Proof.
  unfold main_tiers, cumulative_status, autofix_status, mandatory_status, status_optional.
  run_monad.
  destruct (enable_auto_fix l), do_exit; simpl;
    repeat (simpl; match goal with |- context [?x =? 0] => destruct (x =? 0) eqn:? end);
    simpl; try reflexivity; congruence.
Qed.

Lemma main_tiers_result w l cmd do_exit st :
  (main_tiers w l cmd do_exit st).1
  = if do_exit
    then Raise (SystemExit (if cumulative_status w l cmd =? 0 then 0 else 1))
    else Ok tt.
Proof.
  unfold main_tiers, cumulative_status, autofix_status, mandatory_status.
  run_monad.
  destruct (enable_auto_fix l), do_exit; simpl;
    repeat (simpl; match goal with |- context [?x =? 0] => destruct (x =? 0) eqn:? end);
    simpl; try reflexivity; congruence.
Qed.

Lemma main_reaches_tiers w do_exit st l st1 cmd st2 :
  main_setup w st = (Ok l, st1) → main_scope w l st1 = (Ok cmd, st2) →
  main w do_exit st = main_tiers w l cmd do_exit st2.
Proof.
  intros H1 H2. unfold main.
  rewrite (bind_ok _ _ _ _ _ H1). by rewrite (bind_ok _ _ _ _ _ H2).
Qed.

(** When the tiers are reached, the exit code is decided by the sum of the
    return codes of the autofix tier (when enabled) and of the mandatory
    tier; the return code of the optional tier has no part in it. *)
Lemma main_exit_code_sum w st l st1 cmd st2 :
  main_setup w st = (Ok l, st1) → main_scope w l st1 = (Ok cmd, st2) →
  (main w true st).1
  = Raise (SystemExit (if cumulative_status w l cmd =? 0 then 0 else 1)).
Proof.
  intros H1 H2. rewrite (main_reaches_tiers w true st l st1 cmd st2 H1 H2).
  apply main_tiers_result.
Qed.

(** For return codes that are not negative the sum is zero exactly when
    each of them is. *)
Lemma main_exit_code_nonnegative w st l st1 cmd st2 :
  main_setup w st = (Ok l, st1) → main_scope w l st1 = (Ok cmd, st2) →
  0 ≤ autofix_status w l cmd → 0 ≤ mandatory_status w l cmd →
  exit_code (main w true st).1
  = if bool_decide ((enable_auto_fix l = true → autofix_status w l cmd = 0)
                    ∧ mandatory_status w l cmd = 0)
    then 0 else 1.
Proof.
  intros H1 H2 Ha Hm. rewrite (main_exit_code_sum w st l st1 cmd st2 H1 H2). simpl.
  unfold cumulative_status.
  destruct (enable_auto_fix l); case_bool_decide as Hd;
    match goal with |- context [?x =? 0] => destruct (Z.eqb_spec x 0) as [E | E] end;
    try done; exfalso.
  - destruct Hd as [Hd ?]. specialize (Hd eq_refl). lia.
  - apply Hd. split; [intros _ |]; lia.
  - destruct Hd as [_ ?]. lia.
  - apply Hd. split; [done | lia].
Qed.

(** C1, where the code departs from it.  The autofix run ends on signal 1
    (return code -1) and the mandatory run fails with code 1: the sum is 0,
    the mandatory tier is recorded as passed and the process exits with 0. *)
Theorem main_exit_code_cancels :
  let w := demo_world (-1) 1 0 "/repo" in
  let out := main w true (start demo_files ∅) in
  out.1 = Raise (SystemExit 0)
  ∧ exit_code out.1 = 0
  ∧ all_status out.2
    = [("Autofix checks", TierResult (-1) logging.ERROR "Reformatted");
       ("Mandatory checks", TierResult 1 logging.INFO "Passed");
       ("Optional checks", TierResult 0 logging.INFO "Passed")]
  ∧ filter (λ c, is_run c = true) (calls out.2)
    = [["pre-commit"; "run"; "--color=always"; "--all"; "-c";
        "/repo/.pre-commit-config-autofix.yaml"];
       ["pre-commit"; "run"; "--color=always"; "--all"; "-c";
        "/repo/.pre-commit-config.yaml"];
       ["pre-commit"; "run"; "--color=always"; "--all"; "-c";
        "/repo/.pre-commit-config-optional.yaml"]].
Proof. repeat split; vm_compute; reflexivity. Qed.

(** C2. When [main] reaches the tiers, the entry recorded for the mandatory
    tier has the return code of the mandatory check as its status, and its
    level and message follow the cumulative status, the sum of the autofix
    return code (when the tier is enabled) and of the mandatory one: ERROR
    and Failed when the sum is not zero, INFO and Passed when it is.  With
    the autofix tier enabled and its return code not zero, a mandatory check
    that returns 0 is recorded as ERROR, Failed. *)
Theorem main_mandatory_tier_cumulative :
  ∀ w do_exit st l st1 cmd st2,
    main_setup w st = (Ok l, st1) →
    main_scope w l st1 = (Ok cmd, st2) →
    let recorded := dict_get "Mandatory checks" (all_status (main w do_exit st).2) in
    recorded
    = Some (if cumulative_status w l cmd =? 0
            then TierResult (mandatory_status w l cmd) logging.INFO "Passed"
            else TierResult (mandatory_status w l cmd) logging.ERROR "Failed")
    ∧ (enable_auto_fix l = true → autofix_status w l cmd ≠ 0 →
       mandatory_status w l cmd = 0 →
       recorded = Some (TierResult 0 logging.ERROR "Failed")).
Proof.
  intros w do_exit st l st1 cmd st2 H1 H2 recorded.
  assert (E : recorded
    = Some (if cumulative_status w l cmd =? 0
            then TierResult (mandatory_status w l cmd) logging.INFO "Passed"
            else TierResult (mandatory_status w l cmd) logging.ERROR "Failed")).
  { subst recorded. rewrite (main_reaches_tiers w do_exit st l st1 cmd st2 H1 H2).
    rewrite main_tiers_all_status. by destruct (enable_auto_fix l). }
  split; [exact E |]. intros He Ha Hm. rewrite E.
  unfold cumulative_status. rewrite He, Hm.
  destruct (Z.eqb_spec (0 + autofix_status w l cmd + 0) 0) as [E0 | E0]; [lia | done].
Qed.

Lemma main_mandatory_tier_cumulative_witness :
  dict_get "Mandatory checks"
    (all_status (main (demo_world 1 0 0 "/repo") true (start demo_files ∅)).2)
  = Some (TierResult 0 logging.ERROR "Failed").
Proof.
  eapply (main_mandatory_tier_cumulative (demo_world 1 0 0 "/repo") true
            (start demo_files ∅)).
  - vm_compute. reflexivity.
  - vm_compute. reflexivity.
  - vm_compute. reflexivity.
  - vm_compute. discriminate.
  - vm_compute. reflexivity.
Defined.

(** C3. When the working directory is not the root of the repository and
    git lists no file under it, [main] ends with an exception that is not an
    exit, and no [pre-commit run] command is called.  When the set-up
    (environment, configuration files, hooks) has gone through, the exception
    is the warning [Not files detected in current path ...], raised before
    any further subprocess is called. *)
Theorem main_no_files_detected :
  ∀ w do_exit files env,
    git_toplevel w ≠ Some (getcwd w) →
    git_ls_files w (getcwd w) = Some [] →
    let out := main w do_exit (start files env) in
    (∃ e, out.1 = Raise e ∧ not_exit e)
    ∧ Forall (λ c, is_run c = false) (calls out.2)
    ∧ (∀ l st1,
         main_setup w (start files env) = (Ok l, st1) →
         out.1 = Raise (UserWarning ("Not files detected in current path "
                                     +:+ relpath w (getcwd w) (repo_dirname l)))
         ∧ calls out.2 = calls st1).
Proof.
  intros w do_exit files env Hcwd Hls out.
  pose proof (preserves_main_setup w (start files env) (Forall_nil_2 _)) as Hcalls.
  pose proof (throws_main_setup w (start files env)) as Hthrows.
  subst out.
  destruct (main_setup w (start files env)) as [[l | e] st1] eqn:Hsetup; simpl in Hcalls.
  - destruct (main_setup_locals w _ l st1 Hsetup) as (Hrepo & Hl & _).
    assert (String.eqb (cwd l) (repo_dirname l) = false) as Hne.
    { apply String.eqb_neq. rewrite Hl. intros E. apply Hcwd. by rewrite Hrepo, E. }
    rewrite <- Hl in Hls.
    destruct (main_scope_empty w l st1 Hne Hls) as (st2 & Hscope & Hc).
    assert (main w do_exit (start files env)
            = (Raise (UserWarning ("Not files detected in current path "
                                   +:+ relpath w (cwd l) (repo_dirname l))), st2))
      as Hmain.
    { unfold main. rewrite (bind_ok _ _ _ _ _ Hsetup).
      apply (bind_raise _ _ _ _ _ Hscope). }
    rewrite Hmain. cbn [fst snd]. rewrite Hc, Hl.
    split; [eexists; split; [reflexivity | by intros c] |].
    split; [done |].
    intros l' st1' E. by inversion E; subst.
  - assert (main w do_exit (start files env) = (Raise e, st1)) as Hmain.
    { unfold main. apply (bind_raise _ _ _ _ _ Hsetup). }
    rewrite Hmain. cbn [fst snd].
    split; [exists e; split; [done | by apply (Hthrows e st1)] |].
    split; [done |]. intros l st1' E. discriminate E.
Qed.

Lemma main_no_files_detected_witness :
  (main (demo_world 0 0 0 "/repo/sub") true (start demo_files ∅)).1
  = Raise (UserWarning "Not files detected in current path sub").
Proof.
  pose proof (main_no_files_detected (demo_world 0 0 0 "/repo/sub") true demo_files ∅)
    as H.
  destruct H as (_ & _ & H); [discriminate | reflexivity |].
  eapply H. vm_compute. reflexivity.
Defined.

Example main_no_files_detected_calls :
  calls (main (demo_world 0 0 0 "/repo/sub") true (start demo_files ∅)).2
  = [["pre-commit"; "install-hooks"; "--color=always"; "-c";
      "/repo/.pre-commit-config.yaml"];
     ["pre-commit"; "install-hooks"; "--color=always"; "-c";
      "/repo/.pre-commit-config-optional.yaml"];
     ["pre-commit"; "install-hooks"; "--color=always"; "-c";
      "/repo/.pre-commit-config-autofix.yaml"]].
Proof. vm_compute. reflexivity. Qed.

(** ** The commands of a run

    The world gives one return code per command.  That fits a run in which
    no command is called twice, which is the case of every run of [main]. *)

#[local] Instance same_calls_preorder : PreOrder same_calls.
Proof.
  split; [by intros st | intros a b c H1 H2; unfold same_calls in *; congruence].
Qed.

Lemma bind_split {A B} (m : M A) (f : A → M B) st (P : result B * state → Prop) :
  (∀ e st1, m st = (Raise e, st1) → P (Raise e, st1)) →
  (∀ a st1, m st = (Ok a, st1) → P (f a st1)) →
  P ((m ≫= f) st).
Proof.
  intros Hr Ho. unfold mbind, M_bind. destruct (m st) as [[a | e] st1]; auto.
Qed.

Lemma preserves_run {A} R (m : M A) st r st' :
  preserves R m → m st = (r, st') → R st st'.
Proof. intros H E. specialize (H st). by rewrite E in H. Qed.

Lemma main_setup_calls w st :
  match main_setup w st with
  | (Ok l, st1) => calls st1 = calls st ++ setup_calls l
  | (Raise _, st1) => calls st1 = calls st
  end.
Proof.
  assert (Hlog : ∀ f s, same_calls s (set_log f s)) by done.
  assert (Hfs : ∀ f s, same_calls s (set_fs f s)) by done.
  unfold main_setup, get_repo.
  destruct (git_toplevel w) as [repo |]; [| reflexivity].
  apply bind_split; [intros e st1 E; by inversion E |].
  intros repo' st0 E. inversion E; subst repo' st0; clear E.
  apply bind_split; intros r1 st1 E1;
    pose proof (preserves_run _ _ _ _ _
                  (preserves_envfile2envdict same_calls Hlog repo "variables.sh") E1) as H1;
    [done |].
  apply bind_split; intros r2 st2 E2;
    (assert (calls st2 = calls st) as H2;
     [unfold environ_update in E2; destruct (bool_decide _); inversion E2; by subst |]);
    [done |].
  clear E1 E2 H1. revert st2 H2. clear st1. intros st2 H2.
  do 4 (apply bind_split; [intros ? ? E; discriminate E
                          | intros ? ? E; inversion E; subst; clear E]).
  apply bind_split; intros r3 st3 E3;
    pose proof (preserves_run _ _ _ _ _
                  (preserves_copy_cfg_files same_calls Hlog Hfs _ _ _ _ _) E3) as H3;
    unfold same_calls in H3; [congruence |].
  run_monad. unfold setup_calls, install_hooks.
  match goal with |- context [if ?c then _ else _] => destruct c end;
    simpl; rewrite H3, H2, <- ?app_assoc; reflexivity.
Qed.

Lemma main_tiers_calls w l cmd do_exit st :
  calls (main_tiers w l cmd do_exit st).2 = calls st ++ tier_calls l cmd.
Proof.
  unfold main_tiers, tier_calls. run_monad.
  destruct (enable_auto_fix l), do_exit; simpl;
    repeat (simpl; match goal with |- context [?x =? 0] => destruct (x =? 0) eqn:? end);
    simpl; rewrite <- ?app_assoc; reflexivity.
Qed.

Lemma main_scope_run w l st cmd st' :
  main_scope w l st = (Ok cmd, st') →
  calls st' = calls st ∧ ∃ rest, cmd = "pre-commit" :: "run" :: rest.
Proof.
  intros H. pose proof (main_scope_calls w l st) as Hc. rewrite H in Hc. split; [done |].
  unfold main_scope, get_files in H. destruct (String.eqb _ _); cbn [negb] in H.
  - inversion H; eauto.
  - rewrite bind_logger in H.
    destruct (git_ls_files w (cwd l)) as [[| f files] |]; inversion H; eauto.
Qed.

(** The configuration files have different paths. *)
Lemma append_inj_l (a x y : string) : a +:+ x = a +:+ y → x = y.
Proof. induction a as [| c a IH]; simpl; [done | intros H; inversion H; auto]. Qed.

Lemma length_append (a b : string) :
  String.length (a +:+ b) = (String.length a + String.length b)%nat.
Proof. induction a as [| c a IH]; simpl; [done | by rewrite IH]. Qed.

Lemma path_join_relative a b :
  Py.startswith b "/" = false →
  ∃ sep, Py.path_join a b = a +:+ sep +:+ b.
Proof.
  intros H. unfold Py.path_join. rewrite H.
  destruct (_ || _); [by exists EmptyString | by exists "/"].
Qed.

Lemma path_join_inj a x y :
  Py.startswith x "/" = false → Py.startswith y "/" = false →
  Py.path_join a x = Py.path_join a y → x = y.
Proof.
  intros Hx Hy. unfold Py.path_join. rewrite Hx, Hy.
  destruct (_ || _); intros H; [by apply append_inj_l in H |].
  apply append_inj_l in H. by inversion H.
Qed.

Lemma path_join_length a b :
  (String.length b ≤ String.length (Py.path_join a b))%nat.
Proof.
  unfold Py.path_join. destruct (Py.startswith b "/"); [done |].
  destruct (_ || _); rewrite !length_append; lia.
Qed.

Lemma path_join_twice a x y :
  Py.startswith x "/" = false → Py.startswith y "/" = false →
  (String.length y < String.length x)%nat → x ≠ y →
  Py.path_join a (Py.path_join a x) ≠ Py.path_join a y.
Proof.
  intros Hx Hy Hlen Hne E.
  destruct (Py.startswith (Py.path_join a x) "/") eqn:Hs.
  - unfold Py.path_join at 1 in E. rewrite Hs in E. by apply path_join_inj in E.
  - apply path_join_inj in E; [| done | done].
    pose proof (path_join_length a x) as Hl. rewrite E in Hl. lia.
Qed.

Lemma setup_locals_distinct w st l st1 :
  main_setup w st = (Ok l, st1) →
  let optional := Py.path_join (repo_dirname l) (pre_commit_cfg_optional l) in
  pre_commit_cfg_mandatory l ≠ pre_commit_cfg_optional l
  ∧ pre_commit_cfg_mandatory l ≠ pre_commit_cfg_autofix l
  ∧ pre_commit_cfg_optional l ≠ pre_commit_cfg_autofix l
  ∧ optional ≠ pre_commit_cfg_mandatory l
  ∧ optional ≠ pre_commit_cfg_autofix l.
Proof.
  intros H. destruct (main_setup_locals w st l st1 H) as (_ & _ & -> & -> & ->).
  assert (∀ x y, Py.startswith x "/" = false → Py.startswith y "/" = false → x ≠ y →
                 Py.path_join (repo_dirname l) x ≠ Py.path_join (repo_dirname l) y) as Hd.
  { intros x y Hx Hy Hne E. by apply path_join_inj in E. }
  repeat split; try (by apply Hd); apply path_join_twice; try done; simpl; lia.
Qed.

Lemma NoDup_2 {A} (a b : A) : a ≠ b → NoDup [a; b].
Proof.
  intros H. apply NoDup_cons. split; [| apply NoDup_singleton].
  rewrite list_elem_of_In. by intros [E | []].
Qed.

Lemma NoDup_3 {A} (a b c : A) : a ≠ b → a ≠ c → b ≠ c → NoDup [a; b; c].
Proof.
  intros H1 H2 H3. apply NoDup_cons. split; [| by apply NoDup_2].
  rewrite list_elem_of_In. by intros [E | [E | []]].
Qed.

Lemma with_config_inj (cmd : list string) x y :
  cmd ++ ["-c"; x] = cmd ++ ["-c"; y] → x = y.
Proof. intros E. apply app_inv_head in E. by inversion E. Qed.

(** No run of [main] gives the same command to [subprocess.call] twice. *)
Lemma main_calls_distinct w do_exit files env :
  NoDup (calls (main w do_exit (start files env)).2).
Proof.
  unfold main. apply bind_split; intros r1 st1 E1;
    pose proof (main_setup_calls w (start files env)) as H1; rewrite E1 in H1; simpl in H1.
  { simpl. rewrite H1. constructor. }
  destruct (setup_locals_distinct w _ r1 st1 E1) as (Hmo & Hma & Hoa & Hjm & Hja).
  assert (NoDup (setup_calls r1)) as Hsetup.
  { unfold setup_calls, install_hooks.
    destruct (enable_auto_fix r1); simpl; [apply NoDup_3 | apply NoDup_2];
      intros E; inversion E; done. }
  apply bind_split; intros r2 st2 E2.
  { pose proof (main_scope_calls w r1 st1) as Hc. rewrite E2 in Hc. simpl in Hc.
    simpl. by rewrite Hc, H1. }
  destruct (main_scope_run w r1 st1 r2 st2 E2) as (Hc & rest & ->).
  rewrite main_tiers_calls, Hc, H1. cbn [start calls app].
  apply NoDup_app. split; [done |]. split.
  - intros c Hin Hrun.
    assert (is_run c = false) as Hf.
    { unfold setup_calls, install_hooks in Hin. rewrite list_elem_of_In in Hin.
      destruct (enable_auto_fix r1); simpl in Hin;
        repeat destruct Hin as [<- | Hin]; done. }
    assert (is_run c = true) as Ht.
    { unfold tier_calls in Hrun. rewrite list_elem_of_In in Hrun.
      destruct (enable_auto_fix r1); simpl in Hrun;
        repeat destruct Hrun as [<- | Hrun]; done. }
    congruence.
  - unfold tier_calls.
    destruct (enable_auto_fix r1); cbn [app]; [apply NoDup_3 | apply NoDup_2];
      intros E; apply (with_config_inj ("pre-commit" :: "run" :: rest)) in E; congruence.
Qed.

(** * Further properties *)

(** ** The search of [re_export] is one pass *)

Lemma match_rep_eq name cls lo hi rest prev s :
  Re.match_items (Re.Rep name cls lo hi :: rest) prev s
  = Re.give_back
      (λ k, Re.bind_group name (Re.take k s) <$>
              Re.match_items rest (Re.last_before prev k s) (Re.drop k s))
      lo (Re.run cls hi s).
Proof. reflexivity. Qed.

Lemma give_back_none {A} (try : nat → option A) lo k :
  (∀ j, (lo ≤ j ≤ k)%nat → try j = None) → Re.give_back try lo k = None.
Proof.
  induction k as [| k IH]; intros H; simpl.
  - destruct (Nat.ltb_spec 0 lo); [done |]. by rewrite H by lia.
  - destruct (Nat.ltb_spec (S k) lo); [done |]. rewrite H by lia.
    apply IH. intros j Hj. apply H. lia.
Qed.

Lemma give_back_low {A} (try : nat → option A) lo k :
  (k < lo)%nat → Re.give_back try lo k = None.
Proof.
  intros H. destruct k as [| k]; simpl.
  - destruct (Nat.ltb_spec 0 lo); [done | lia].
  - destruct (Nat.ltb_spec (S k) lo); [done | lia].
Qed.

Lemma give_back_greedy {A} (try : nat → option A) lo k :
  (lo ≤ k)%nat → (∀ j, (lo ≤ j < k)%nat → try j = None) →
  Re.give_back try lo k = try k.
Proof.
  intros Hk H. destruct (try k) as [r |] eqn:E.
  - by apply give_back_first.
  - apply give_back_none. intros j Hj.
    destruct (decide (j = k)) as [-> | Hne]; [done | apply H; lia].
Qed.

Lemma take_drop k s : Re.take k s +:+ Re.drop k s = s.
Proof.
  revert s. induction k as [| k IH]; intros [| c s]; simpl; try done. by rewrite IH.
Qed.

Lemma drop_drop j k s : Re.drop k (Re.drop j s) = Re.drop (j + k) s.
Proof.
  revert s. induction j as [| j IH]; intros s; simpl; [done |].
  destruct s as [| c s]; [by destruct k | apply IH].
Qed.

(** Inside the longest run the next character is of the class. *)
Lemma drop_in_run cls s j :
  (j < Re.run cls None s)%nat →
  ∃ c t, Re.drop j s = String c t ∧ cls c = true
         ∧ Re.run cls None (Re.drop j s) = (Re.run cls None s - j)%nat.
Proof.
  revert j. induction s as [| c s IH]; intros j Hj; simpl in *; [lia |].
  destruct (cls c) eqn:Hc; [| lia].
  destruct j as [| j]; simpl.
  - exists c, s. by rewrite Hc.
  - apply IH. lia.
Qed.

Lemma take_run_all cls s k :
  (k ≤ Re.run cls None s)%nat → all_chars cls (Re.take k s) = true.
Proof.
  revert k. induction s as [| c s IH]; intros [| k] Hk; simpl in *; try done.
  destruct (cls c) eqn:Hc; [| lia]. rewrite IH by lia. done.
Qed.

Lemma run_after_run cls s :
  Re.run cls None (Re.drop (Re.run cls None s) s) = 0%nat.
Proof.
  induction s as [| c s IH]; simpl; [done |].
  destruct (cls c) eqn:Hc; simpl; [done | by rewrite Hc].
Qed.

Lemma word_not_equal c : Py.isword c = true → Ascii.eqb c "=" = false.
Proof.
  intros H. destruct (Ascii.eqb c "=") eqn:E; [| done].
  apply Ascii.eqb_eq in E. by subst c.
Qed.

Lemma space_not_equal c : is_char " " c = true → Ascii.eqb c "=" = false.
Proof. intros H. apply Ascii.eqb_eq in H. by subst c. Qed.

Lemma space_not_word c : is_char " " c = true → Py.isword c = false.
Proof. intros H. apply Ascii.eqb_eq in H. by subst c. Qed.

(** After the sign [=] the search always succeeds, at its first try. *)
Lemma match_tail prev s :
  Re.match_items [re_spaces; re_quote; re_value; re_quote] prev s
  = Some [("value", value_after_equal s)].
Proof.
  apply (match_rep None (is_char " ") 0 None _ prev s
           (Re.run (is_char " ") None s) [("value", value_after_equal s)]);
    [done | lia |].
  set (t1 := Re.drop _ s).
  apply (match_rep None is_quote 0 (Some 1%nat) _ _ t1
           (Re.run is_quote (Some 1%nat) t1) [("value", value_after_equal s)]);
    [done | lia |].
  set (t2 := Re.drop _ t1).
  apply (match_rep (Some "value") is_value_char 0 None _ _ t2
           (Re.run is_value_char None t2) []); [done | lia |].
  apply match_close_quote.
Qed.

Lemma match_equal prev s :
  Re.match_items [re_equal; re_spaces; re_quote; re_value; re_quote] prev s
  = (λ v, [("value", v)]) <$> after_equal s.
Proof.
  destruct s as [| c t]; [reflexivity |]. simpl after_equal.
  destruct (Ascii.eqb c "=") eqn:E.
  - apply (match_rep None (is_char "=") 1 (Some 1%nat) _ prev _ 1%nat
             [("value", value_after_equal t)]); [by apply run_one | lia |].
    apply match_tail.
  - rewrite match_rep_eq. apply give_back_low.
    simpl. unfold is_char. rewrite E. lia.
Qed.

Lemma match_spaces_equal prev s :
  Re.match_items [re_spaces; re_equal; re_spaces; re_quote; re_value; re_quote] prev s
  = (λ v, [("value", v)]) <$> after_equal (Re.drop (Re.run (is_char " ") None s) s).
Proof.
  rewrite match_rep_eq, give_back_greedy; [| lia |].
  - rewrite match_equal. by destruct (after_equal _).
  - intros j Hj. destruct (drop_in_run (is_char " ") s j) as (c & t & -> & Hc & _); [lia |].
    rewrite match_equal. simpl. by rewrite space_not_equal.
Qed.

Lemma match_variable prev s :
  let m := Re.run Py.isword None s in
  let s3 := Re.drop m s in
  Re.match_items
    [re_variable; re_spaces; re_equal; re_spaces; re_quote; re_value; re_quote] prev s
  = (λ v, [("variable", Re.take m s); ("value", v)]) <$>
      after_equal (Re.drop (Re.run (is_char " ") None s3) s3).
Proof.
  intros m s3. rewrite match_rep_eq, give_back_greedy; [| lia |].
  - rewrite match_spaces_equal. fold m s3. by destruct (after_equal _).
  - intros j Hj. destruct (drop_in_run Py.isword s j) as (c & t & E & Hc & _); [lia |].
    rewrite match_spaces_equal, E. simpl.
    rewrite (word_not_space c Hc). simpl. by rewrite word_not_equal.
Qed.

Lemma after_equal_start s v :
  after_equal s = Some v →
  Re.run Py.isword None s = 0%nat ∧ Re.run (is_char " ") None s = 0%nat.
Proof.
  destruct s as [| c t]; simpl; [done |].
  destruct (Ascii.eqb c "=") eqn:E; [| done]. apply Ascii.eqb_eq in E. by subst c.
Qed.

Lemma match_spaces_variable prev s :
  let n := Re.run (is_char " ") None s in
  let s2 := Re.drop n s in
  let m := Re.run Py.isword None s2 in
  let s3 := Re.drop m s2 in
  Re.match_items (tail (tail re_export)) prev s
  = if (n =? 0)%nat then None
    else (λ v, [("variable", Re.take m s2); ("value", v)]) <$>
           after_equal (Re.drop (Re.run (is_char " ") None s3) s3).
Proof.
  intros n s2 m s3. cbn [tail re_export]. rewrite match_rep_eq. fold n.
  destruct (Nat.eqb_spec n 0) as [E | Hn]; [rewrite E; apply give_back_low; lia |].
  set (try := λ k : nat, _).
  assert (try n = (λ v, [("variable", Re.take m s2); ("value", v)]) <$>
                    after_equal (Re.drop (Re.run (is_char " ") None s3) s3)) as Hgreedy.
  { subst try. cbv beta. fold s2. rewrite match_variable. fold m s3.
    by destruct (after_equal _). }
  destruct (after_equal (Re.drop (Re.run (is_char " ") None s3) s3)) as [v |] eqn:Ev.
  - apply give_back_first; [lia | exact Hgreedy].
  - apply give_back_none. intros j Hj.
    destruct (decide (j = n)) as [-> | Hne]; [exact Hgreedy |].
    destruct (drop_in_run (is_char " ") s j) as (c & t & E & Hc & Hrun); [fold n; lia |].
    subst try. cbv beta. rewrite match_variable.
    assert (Re.run Py.isword None (Re.drop j s) = 0%nat) as ->.
    { rewrite E. simpl. by rewrite space_not_word. }
    cbn [Re.drop]. rewrite Hrun, drop_drop. fold n.
    replace (j + (n - j))%nat with n by lia. fold s2.
    destruct (after_equal s2) as [v |] eqn:E2; [| done].
    destruct (after_equal_start s2 v E2) as (Hm & Hs).
    exfalso. subst m s3. rewrite Hm in Ev. cbn [Re.drop] in Ev.
    rewrite Hs in Ev. cbn [Re.drop] in Ev. congruence.
Qed.

Lemma prefix_drop a s : String.prefix a s = true → s = a +:+ Re.drop (String.length a) s.
Proof.
  revert s. induction a as [| c a IH]; intros s H; simpl; [by destruct s |].
  destruct s as [| c' s]; [done |]. simpl in H.
  destruct (ascii_dec c c') as [<- | Hne]; [| done]. f_equal. by apply IH.
Qed.

Lemma prefix_export_EXPORT line :
  String.prefix "export" line = true → String.prefix "EXPORT" line = false.
Proof.
  destruct line as [| c l]; [done |]. cbn [String.prefix].
  destruct (ascii_dec "e" c) as [<- | ?]; [intros _; reflexivity | done].
Qed.

(** The backtracking search and the single pass agree on every line. *)
Lemma match_re_export_scan line :
  Re.match_ re_export line
  = (λ '(kw, variable, value),
       [("export", kw); ("variable", variable); ("value", value)]) <$> scan_export line.
Proof.
  unfold Re.match_, scan_export.
  change re_export with (Re.Bol :: Re.Lits (Some "export") ["export"; "EXPORT"]
                           :: tail (tail re_export)).
  cbn [Re.match_items Re.at_bol Re.first_alt String.length].
  set (s1 := Re.drop 6 line).
  pose proof (λ prev, match_spaces_variable prev s1) as Hrest. cbv zeta in Hrest.
  clearbody s1. cbv zeta.
  destruct (String.prefix "export" line) eqn:E1.
  - rewrite (prefix_export_EXPORT line E1), Hrest. simpl.
    destruct (_ =? 0)%nat; [done |]. by destruct (after_equal _).
  - destruct (String.prefix "EXPORT" line) eqn:E2; [| done].
    rewrite Hrest. simpl.
    destruct (_ =? 0)%nat; [done |]. by destruct (after_equal _).
Qed.

Lemma envdict_update_scan_eq envdict line :
  envdict_update envdict line
  = match scan_export line with
    | Some (_, variable, value) => <[variable := value]> envdict
    | None => envdict
    end.
Proof.
  unfold envdict_update. rewrite match_re_export_scan.
  by destruct (scan_export line) as [[[kw k] v] |].
Qed.

(** X1. Reading a line with [re_export] is one pass from left to right:
    the line adds an entry exactly when it starts with [export] or [EXPORT],
    goes on with at least one space, a (possibly empty) run of word
    characters, spaces and the sign [=]; the entry maps that run of word
    characters to the longest run of value characters found after the spaces
    and the one optional quote that follow the sign.  Otherwise the mapping
    is left as it is. *)
Theorem envdict_update_one_pass :
  ∀ (envdict : gmap string string) line,
    envdict_update envdict line
    = match scan_export line with
      | Some (_, variable, value) => <[variable := value]> envdict
      | None => envdict
      end.
Proof. intros envdict line. apply envdict_update_scan_eq. Qed.

Lemma scan_export_shape kw m1 name m2 tail :
  kw = "export" ∨ kw = "EXPORT" →
  all_chars Py.isword name = true →
  (name = EmptyString → m2 = 0%nat) →
  scan_export (kw +:+ spaces (S m1) +:+ name +:+ spaces m2 +:+ "=" +:+ tail)
  = Some (kw, name, value_after_equal tail).
Proof.
  intros Hkw Hname Hm.
  set (x := spaces (S m1) +:+ name +:+ spaces m2 +:+ "=" +:+ tail).
  assert (Re.run (is_char " ") None x = S m1) as Hn.
  { subst x. rewrite run_app; [apply length_spaces | apply all_chars_spaces |].
    destruct name as [| c name]; [by rewrite Hm |].
    simpl in Hname. apply andb_true_iff in Hname as [Hc _].
    simpl. by rewrite word_not_space. }
  assert (Re.drop (S m1) x = name +:+ spaces m2 +:+ "=" +:+ tail) as Hs2.
  { subst x. rewrite <- (length_spaces (S m1)) at 1. apply drop_app. }
  assert (stops Py.isword (spaces m2 +:+ "=" +:+ tail) = true) as Hstop by by destruct m2.
  assert (scan_export (kw +:+ x)
          = (let n := Re.run (is_char " ") None x in
             if (n =? 0)%nat then None
             else
               let s2 := Re.drop n x in
               let m := Re.run Py.isword None s2 in
               let s3 := Re.drop m s2 in
               v ← after_equal (Re.drop (Re.run (is_char " ") None s3) s3);
               Some (kw, Re.take m s2, v))) as ->.
  { destruct Hkw as [-> | ->]; reflexivity. }
  cbv zeta. rewrite Hn. cbn [Nat.eqb]. rewrite Hs2.
  rewrite run_app by done. rewrite take_app, (drop_app name).
  rewrite run_app; [| apply all_chars_spaces | done].
  rewrite (drop_app (spaces m2)). reflexivity.
Qed.

(** X2. Whatever follows the sign [=], a line made of the keyword [export]
    or [EXPORT], one or more spaces, a name of word characters, any number
    of spaces and the sign [=] adds an entry for that name: nothing after the
    sign makes the line fail, the value is what [value_after_equal] keeps of
    it (the empty string when the text after the sign starts, for instance,
    with a tab). *)
Theorem envdict_update_any_tail :
  ∀ kw n1 name n2 tail (envdict : gmap string string),
    kw = "export" ∨ kw = "EXPORT" →
    all_chars Py.isword name = true →
    envdict_update envdict
      (kw +:+ spaces (S n1) +:+ name +:+ spaces n2 +:+ "=" +:+ tail)
    = <[name := value_after_equal tail]> envdict.
Proof.
  intros kw n1 name n2 tail envdict Hkw Hname.
  rewrite envdict_update_scan_eq.
  destruct name as [| c name].
  - assert (kw +:+ spaces (S n1) +:+ EmptyString +:+ spaces n2 +:+ "=" +:+ tail
            = kw +:+ spaces (S (n1 + n2)) +:+ EmptyString +:+ spaces 0 +:+ "=" +:+ tail)
      as ->.
    { f_equal. change (S (n1 + n2)) with (S n1 + n2)%nat.
      rewrite spaces_add, append_assoc. reflexivity. }
    by rewrite scan_export_shape.
  - by rewrite scan_export_shape.
Qed.

Lemma envdict_update_any_tail_witness :
  envdict_update ∅ ("export FOO =" +:+ Py.chr TAB +:+ "bar" +:+ NL) = <["FOO" := EmptyString]> ∅
  ∧ envdict_update ∅ ("EXPORT  A_1= 'x y';z" +:+ NL) = <["A_1" := "x y"]> ∅.
Proof.
  split.
  - apply (envdict_update_any_tail "export" 0 "FOO" 1 (Py.chr TAB +:+ "bar" +:+ NL) ∅);
      [by left | reflexivity].
  - apply (envdict_update_any_tail "EXPORT" 1 "A_1" 0 (" 'x y';z" +:+ NL) ∅);
      [by right | reflexivity].
Defined.

Lemma after_equal_class s v :
  after_equal s = Some v → all_chars is_value_char v = true.
Proof.
  destruct s as [| c t]; simpl; [done |].
  destruct (Ascii.eqb c "="); [| done]. intros [= <-]. by apply take_run_all.
Qed.

Lemma scan_export_classes line kw k v :
  scan_export line = Some (kw, k, v) →
  all_chars Py.isword k = true ∧ all_chars is_value_char v = true.
Proof.
  unfold scan_export. generalize (Re.drop 6 line). intros s1 H.
  destruct (if String.prefix "export" line then _ else _) as [kw' |]; [| done].
  simpl in H. destruct (_ =? 0)%nat; [done |].
  destruct (after_equal _) as [v' |] eqn:Ev; [| done]. simpl in H.
  inversion H; subst. split; [by apply take_run_all | by eapply after_equal_class].
Qed.

Lemma foldl_envdict_update_invariant (P : string → string → Prop) lines :
  (∀ line kw k v, scan_export line = Some (kw, k, v) → P k v) →
  ∀ envdict : gmap string string,
    map_Forall P envdict → map_Forall P (foldl envdict_update envdict lines).
Proof.
  intros HP. induction lines as [| line lines IH]; intros envdict Hd; [done |].
  simpl. apply IH. rewrite envdict_update_scan_eq.
  destruct (scan_export line) as [[[kw k] v] |] eqn:E; [| done].
  apply map_Forall_insert_2; [by eapply HP | done].
Qed.

(** What [envfile2envdict] returns, in every state. *)
Lemma envfile2envdict_run repo source_file st :
  ∃ st',
    envfile2envdict repo source_file st
    = (Ok (match fs st !! Py.path_join repo source_file with
           | Some (File text) => foldl envdict_update ∅ (Py.file_lines text)
           | _ => ∅
           end), st')
    ∧ same_but_log st st'.
Proof.
  unfold envfile2envdict. rewrite bind_isfile.
  destruct (fs st !! Py.path_join repo source_file) as [[text | names] |] eqn:E;
    cbn [negb]; rewrite ?bind_open_r, ?E; run_monad; rewrite ?E;
    eexists; (split; [reflexivity | done]).
Qed.

(** X3. The names of the mapping [envfile2envdict] returns are made of word
    characters and its values of value characters (so no name or value holds
    a quote, a newline, a tab or the sign [=]); a name may be empty. *)
Theorem envfile2envdict_entries_in_class :
  ∀ repo source_file st envdict k v,
    (envfile2envdict repo source_file st).1 = Ok envdict →
    envdict !! k = Some v →
    all_chars Py.isword k = true ∧ all_chars is_value_char v = true.
Proof.
  intros repo source_file st envdict k v H Hk.
  destruct (envfile2envdict_run repo source_file st) as (st' & E & _).
  rewrite E in H. simpl in H. inversion H as [Hd]. clear H.
  assert (map_Forall (λ k v, all_chars Py.isword k = true
                             ∧ all_chars is_value_char v = true) envdict) as Hall.
  { rewrite <- Hd. destruct (fs st !! _) as [[text | ?] |]; try apply map_Forall_empty.
    apply foldl_envdict_update_invariant; [| apply map_Forall_empty].
    intros line kw k' v'. apply scan_export_classes. }
  by apply Hall.
Qed.

Lemma envfile2envdict_entries_in_class_witness :
  all_chars Py.isword "FOO" = true ∧ all_chars is_value_char "bar" = true.
Proof.
  apply (envfile2envdict_entries_in_class "/repo" "variables.sh"
           (start {["/repo/variables.sh" := File (line_foo_bar +:+ "echo hi" +:+ NL)]} ∅)
           {["FOO" := "bar"]} "FOO" "bar"); reflexivity.
Defined.

Lemma envdict_update_lookup (envdict : gmap string string) line k :
  envdict_update envdict line !! k
  = match envdict_update ∅ line !! k with
    | Some v => Some v
    | None => envdict !! k
    end.
Proof.
  rewrite !envdict_update_scan_eq.
  destruct (scan_export line) as [[[kw k'] v] |]; [| by rewrite lookup_empty].
  destruct (decide (k' = k)) as [-> | Hne].
  - by rewrite !lookup_insert_eq.
  - by rewrite !lookup_insert_ne, lookup_empty.
Qed.

(** X4. The last assignment wins: when a line of the file sets a variable
    and no later line sets it again, the mapping returned has the value of
    that line, whatever the earlier lines say. *)
Theorem envfile2envdict_last_wins :
  ∀ repo source_file st text before line after k v,
    fs st !! Py.path_join repo source_file = Some (File text) →
    Py.file_lines text = before ++ line :: after →
    envdict_update ∅ line !! k = Some v →
    (∀ later, later ∈ after → envdict_update ∅ later !! k = None) →
    ∃ envdict,
      (envfile2envdict repo source_file st).1 = Ok envdict ∧ envdict !! k = Some v.
Proof.
  intros repo source_file st text before line after k v Hfile Hlines Hline Hafter.
  eexists. split; [by apply envfile2envdict_file |].
  rewrite Hlines, foldl_app. simpl.
  generalize (foldl envdict_update ∅ before). intros d0.
  assert (envdict_update d0 line !! k = Some v) as H0.
  { by rewrite envdict_update_lookup, Hline. }
  revert H0. generalize (envdict_update d0 line). clear Hlines Hline.
  induction after as [| l after IH]; intros d Hd; [done |].
  simpl. apply IH.
  - intros later Hin. apply Hafter. by right.
  - rewrite envdict_update_lookup, Hafter; [done | by left].
Qed.

Lemma envfile2envdict_last_wins_witness :
  ∃ envdict,
    (envfile2envdict "/repo" "variables.sh"
       (start {["/repo/variables.sh" :=
                  File ("export A=1" +:+ NL +:+ "export A=2" +:+ NL +:+ "export B=3" +:+ NL)]}
              ∅)).1 = Ok envdict
    ∧ envdict !! "A" = Some "2".
Proof.
  apply (envfile2envdict_last_wins "/repo" "variables.sh" _
           ("export A=1" +:+ NL +:+ "export A=2" +:+ NL +:+ "export B=3" +:+ NL)
           ["export A=1" +:+ NL] ("export A=2" +:+ NL) ["export B=3" +:+ NL] "A" "2").
  - reflexivity.
  - reflexivity.
  - reflexivity.
  - intros later Hin. apply list_elem_of_singleton in Hin. subst later. reflexivity.
Defined.

(** X5. [envfile2envdict] only reads: whether it returns or raises, the
    files, the environment and the commands called are what they were.  When
    there is no regular file at the path (nothing there, or a directory) it
    returns the empty mapping, and all it does is to log one INFO record,
    [Skip 'source <path>' file not found]. *)
Theorem envfile2envdict_reads_only :
  ∀ repo source_file st r st',
    envfile2envdict repo source_file st = (r, st') →
    fs st' = fs st ∧ environ st' = environ st ∧ calls st' = calls st
    ∧ ((∀ text, fs st !! Py.path_join repo source_file ≠ Some (File text)) →
       r = Ok ∅
       ∧ log st'
         = log st ++ [(logging.INFO,
                       "Skip 'source " +:+ Py.path_join repo source_file
                       +:+ "' file not found")]).
Proof.
  intros repo source_file st r st' Hrun.
  destruct (envfile2envdict_run repo source_file st) as (st0 & E & Hf & He & Hc & _).
  rewrite E in Hrun. injection Hrun as <- <-.
  split; [done |]. split; [done |]. split; [done |].
  intros Hno. revert E. unfold envfile2envdict. rewrite bind_isfile.
  destruct (fs st !! Py.path_join repo source_file) as [[text | ?] |];
    [by destruct (Hno text) | |];
    cbn [negb]; rewrite bind_logger; intros [= <-]; done.
Qed.

Lemma envfile2envdict_reads_only_witness :
  (envfile2envdict "/repo" "variables.sh" (start {["/repo" := Dir []]} ∅)).1 = Ok ∅
  ∧ log (envfile2envdict "/repo" "variables.sh" (start {["/repo" := Dir []]} ∅)).2
    = [(logging.INFO, "Skip 'source /repo/variables.sh' file not found")].
Proof.
  apply (envfile2envdict_reads_only "/repo" "variables.sh" (start {["/repo" := Dir []]} ∅)
           _ _ (surjective_pairing _)).
  intros text. vm_compute. discriminate.
Defined.

(** ** The lines the parser recognizes *)

Lemma take_run_spaces s :
  Re.take (Re.run (is_char " ") None s) s = spaces (Re.run (is_char " ") None s).
Proof.
  induction s as [| c s IH]; simpl; [done |].
  destruct (is_char " " c) eqn:Hc; [| done].
  apply Ascii.eqb_eq in Hc. subst c. simpl. unfold spaces in *. simpl. by rewrite IH.
Qed.

(** What the single pass reads after the keyword. *)
Lemma scan_after_keyword (kw0 s1 kw name v : string) :
  (let n := Re.run (is_char " ") None s1 in
   if (n =? 0)%nat then None
   else
     let s2 := Re.drop n s1 in
     let m := Re.run Py.isword None s2 in
     let s3 := Re.drop m s2 in
     v ← after_equal (Re.drop (Re.run (is_char " ") None s3) s3);
     Some (kw0, Re.take m s2, v)) = Some (kw, name, v) →
  kw = kw0
  ∧ ∃ n1 n2 tail,
      all_chars Py.isword name = true
      ∧ s1 = spaces (S n1) +:+ name +:+ spaces n2 +:+ "=" +:+ tail
      ∧ v = value_after_equal tail.
Proof.
  cbv zeta. intros H.
  set (n := Re.run (is_char " ") None s1) in *.
  destruct (Nat.eqb_spec n 0) as [| Hn]; [discriminate H |].
  set (s2 := Re.drop n s1) in *.
  set (m := Re.run Py.isword None s2) in *.
  set (s3 := Re.drop m s2) in *.
  set (k := Re.run (is_char " ") None s3) in *.
  destruct (Re.drop k s3) as [| c tail] eqn:Es4; [discriminate H |].
  cbn [after_equal] in H.
  destruct (Ascii.eqb c "=") eqn:Ec; [| discriminate H].
  apply Ascii.eqb_eq in Ec. subst c.
  cbn [mbind option_bind] in H. injection H as <- <- <-.
  split; [done |].
  exists (n - 1)%nat, k, tail. split; [by apply take_run_all |]. split; [| done].
  rewrite <- (take_drop n s1) at 1. fold s2. subst n. rewrite take_run_spaces.
  replace (S (Re.run (is_char " ") None s1 - 1)) with (Re.run (is_char " ") None s1) by lia.
  f_equal.
  rewrite <- (take_drop m s2) at 1. fold s3. f_equal.
  rewrite <- (take_drop k s3) at 1. subst k. rewrite take_run_spaces. f_equal.
  exact Es4.
Qed.

(** A line that the single pass reads has the shape: keyword, spaces, name,
    spaces, the sign [=]. *)
Lemma scan_export_inv line kw name v :
  scan_export line = Some (kw, name, v) →
  ∃ n1 n2 tail, export_shape kw n1 name n2 tail line ∧ v = value_after_equal tail.
Proof.
  unfold scan_export.
  destruct (String.prefix "export" line) eqn:E1;
    [| destruct (String.prefix "EXPORT" line) eqn:E2; [| done]];
    cbn [mbind option_bind]; intros H;
    apply scan_after_keyword in H as (-> & n1 & n2 & tail & Hname & Hs1 & ->);
    exists n1, n2, tail; (split; [| done]); (split; [auto |]); (split; [done |]);
    rewrite <- Hs1.
  - by apply (prefix_drop "export").
  - by apply (prefix_drop "EXPORT").
Qed.

(** After the name and the spaces the sign [=] must come. *)
Lemma scan_export_no_equal kw m1 name m2 c rest :
  kw = "export" ∨ kw = "EXPORT" →
  all_chars Py.isword name = true →
  (name = EmptyString → m2 = 0%nat) →
  Py.isword c = false → is_char " " c = false → Ascii.eqb c "=" = false →
  scan_export (kw +:+ spaces (S m1) +:+ name +:+ spaces m2 +:+ String c rest) = None.
Proof.
  intros Hkw Hname Hm Hw Hs He.
  set (x := spaces (S m1) +:+ name +:+ spaces m2 +:+ String c rest).
  assert (Re.run (is_char " ") None x = S m1) as Hn.
  { subst x. rewrite run_app; [apply length_spaces | apply all_chars_spaces |].
    destruct name as [| c' name]; [rewrite Hm by done; simpl; by rewrite Hs |].
    simpl in Hname. apply andb_true_iff in Hname as [Hc _].
    simpl. by rewrite word_not_space. }
  assert (Re.drop (S m1) x = name +:+ spaces m2 +:+ String c rest) as Hs2.
  { subst x. rewrite <- (length_spaces (S m1)) at 1. apply drop_app. }
  assert (stops Py.isword (spaces m2 +:+ String c rest) = true) as Hstop.
  { destruct m2; simpl; [by rewrite Hw | done]. }
  assert (scan_export (kw +:+ x)
          = (let n := Re.run (is_char " ") None x in
             if (n =? 0)%nat then None
             else
               let s2 := Re.drop n x in
               let m := Re.run Py.isword None s2 in
               let s3 := Re.drop m s2 in
               v ← after_equal (Re.drop (Re.run (is_char " ") None s3) s3);
               Some (kw, Re.take m s2, v))) as ->.
  { destruct Hkw as [-> | ->]; reflexivity. }
  cbv zeta. rewrite Hn. cbn [Nat.eqb]. rewrite Hs2.
  rewrite run_app by done. rewrite (drop_app name).
  rewrite run_app; [| apply all_chars_spaces | simpl; by rewrite Hs].
  rewrite (drop_app (spaces m2)). cbn [after_equal]. by rewrite He.
Qed.

Lemma envdict_update_no_equal kw n1 name n2 c rest (envdict : gmap string string) :
  kw = "export" ∨ kw = "EXPORT" →
  all_chars Py.isword name = true →
  Py.isword c = false → c ≠ " "%char → c ≠ "="%char →
  envdict_update envdict (kw +:+ spaces (S n1) +:+ name +:+ spaces n2 +:+ String c rest)
  = envdict.
Proof.
  intros Hkw Hname Hw Hs He. rewrite envdict_update_scan_eq.
  assert (is_char " " c = false) as Hs'.
  { unfold is_char. destruct (Ascii.eqb c " ") eqn:E; [| done].
    apply Ascii.eqb_eq in E. by destruct Hs. }
  assert (Ascii.eqb c "=" = false) as He'.
  { destruct (Ascii.eqb c "=") eqn:E; [| done]. apply Ascii.eqb_eq in E. by destruct He. }
  destruct name as [| c' name].
  - assert (kw +:+ spaces (S n1) +:+ EmptyString +:+ spaces n2 +:+ String c rest
            = kw +:+ spaces (S (n1 + n2)) +:+ EmptyString +:+ spaces 0 +:+ String c rest)
      as ->.
    { f_equal. change (S (n1 + n2)) with (S n1 + n2)%nat.
      rewrite spaces_add, append_assoc. reflexivity. }
    by rewrite scan_export_no_equal.
  - by rewrite scan_export_no_equal.
Qed.

Lemma envdict_update_shaped kw n1 name n2 tail line (envdict : gmap string string) :
  export_shape kw n1 name n2 tail line →
  envdict_update envdict line = <[name := value_after_equal tail]> envdict.
Proof.
  intros (Hkw & Hname & ->). rewrite envdict_update_scan_eq.
  destruct name as [| c name].
  - assert (kw +:+ spaces (S n1) +:+ EmptyString +:+ spaces n2 +:+ "=" +:+ tail
            = kw +:+ spaces (S (n1 + n2)) +:+ EmptyString +:+ spaces 0 +:+ "=" +:+ tail)
      as ->.
    { f_equal. change (S (n1 + n2)) with (S n1 + n2)%nat.
      rewrite spaces_add, append_assoc. reflexivity. }
    by rewrite scan_export_shape.
  - by rewrite scan_export_shape.
Qed.

(** C8, as the code has it.  A line adds an entry exactly when it is made
    of the keyword spelled [export] or [EXPORT], one or more spaces, a name
    of word characters (which may be empty), any number of spaces, the sign
    [=], and anything after it: a line of another shape (another spelling of
    the keyword, a tab or any other character where the spaces are) leaves
    the mapping as it is.  The entry maps the name to what
    [value_after_equal] keeps of the text after the sign.  For the text made
    of any number of spaces, an optional quote, a value of value characters,
    an optional quote, ended by the end of the line or by a character that is
    neither a value character nor a quote, that is the value (which, without
    an opening quote, must not start with a space); for a text that starts
    with a tab it is the empty string.  In particular a line that starts with
    neither spelling of the keyword adds no entry, and neither does a line
    in which the name and the spaces are followed by a character that is not
    a word character, a space or the sign [=] (a tab, for instance). *)
Theorem envdict_update_recognized :
  ∀ line (envdict : gmap string string),
    (∀ kw n1 name n2 tail,
       export_shape kw n1 name n2 tail line →
       envdict_update envdict line = <[name := value_after_equal tail]> envdict)
    ∧ ((∀ kw n1 name n2 tail, ¬ export_shape kw n1 name n2 tail line) →
       envdict_update envdict line = envdict)
    ∧ (∀ n3 q1 value q2 rest,
         opt_quote q1 = true →
         all_chars is_value_char value = true →
         opt_quote q2 = true →
         (q1 = EmptyString → stops (is_char " ") value = true) →
         stops is_value_char rest = true →
         stops is_quote rest = true →
         value_after_equal (spaces n3 +:+ q1 +:+ value +:+ q2 +:+ rest) = value)
    ∧ (∀ rest, value_after_equal (Py.chr TAB +:+ rest) = EmptyString)
    ∧ (String.prefix "export" line = false → String.prefix "EXPORT" line = false →
       envdict_update envdict line = envdict)
    ∧ (∀ kw n1 name n2 c rest,
         kw = "export" ∨ kw = "EXPORT" →
         all_chars Py.isword name = true →
         Py.isword c = false → c ≠ " "%char → c ≠ "="%char →
         line = kw +:+ spaces (S n1) +:+ name +:+ spaces n2 +:+ String c rest →
         envdict_update envdict line = envdict).
Proof.
  intros line envdict. split; [| split; [| split; [| split; [| split]]]].
  - intros kw n1 name n2 tail. apply envdict_update_shaped.
  - intros Hno. rewrite envdict_update_scan_eq.
    destruct (scan_export line) as [[[kw name] v] |] eqn:E; [| done].
    destruct (scan_export_inv line kw name v E) as (n1 & n2 & tail & Hshape & _).
    by destruct (Hno kw n1 name n2 tail).
  - intros n3 q1 value q2 rest Hq1 Hv Hq2 Hsp Hrv Hrq.
    pose proof (envdict_update_export_line "export" 0 "A" 0 n3 q1 value q2 rest ∅
                  (or_introl eq_refl) eq_refl Hq1 Hv Hq2 Hsp Hrv Hrq) as Hquoted.
    rewrite (envdict_update_shaped "export" 0 "A" 0
               (spaces n3 +:+ q1 +:+ value +:+ q2 +:+ rest)) in Hquoted
      by (split; [by left | split; [done | reflexivity]]).
    apply (f_equal (λ d : gmap string string, d !! "A")) in Hquoted.
    rewrite !lookup_insert_eq in Hquoted. by injection Hquoted.
  - intros rest. reflexivity.
  - intros E1 E2. rewrite envdict_update_scan_eq. unfold scan_export. by rewrite E1, E2.
  - intros kw n1 name n2 c rest Hkw Hname Hw Hs He ->.
    by apply envdict_update_no_equal.
Qed.

Lemma envdict_update_recognized_witness :
  envdict_update ∅ ("EXPORT  PATH_1 =   ' a/b c'; x" +:+ NL) = <["PATH_1" := " a/b c"]> ∅
  ∧ envdict_update ∅ ("export FOO=" +:+ Py.chr TAB +:+ "bar" +:+ NL)
    = <["FOO" := EmptyString]> ∅
  ∧ envdict_update ∅ ("Export FOO = bar" +:+ NL) = ∅
  ∧ envdict_update ∅ ("export FOO" +:+ Py.chr TAB +:+ "= bar" +:+ NL) = ∅.
Proof.
  split; [| split; [| split]].
  - rewrite (proj1 (envdict_update_recognized ("EXPORT  PATH_1 =   ' a/b c'; x" +:+ NL) ∅)
               "EXPORT" 1%nat "PATH_1" 1%nat ("   ' a/b c'; x" +:+ NL))
      by (split; [by right | split; reflexivity]).
    reflexivity.
  - rewrite (proj1 (envdict_update_recognized
                      ("export FOO=" +:+ Py.chr TAB +:+ "bar" +:+ NL) ∅)
               "export" 0%nat "FOO" 0%nat (Py.chr TAB +:+ "bar" +:+ NL))
      by (split; [by left | split; reflexivity]).
    reflexivity.
  - apply (proj1 (proj2 (envdict_update_recognized ("Export FOO = bar" +:+ NL) ∅))).
    intros kw n1 name n2 tail ([-> | ->] & _ & H); simpl in H; discriminate H.
  - apply (proj2 (proj2 (proj2 (proj2 (proj2
             (envdict_update_recognized
                ("export FOO" +:+ Py.chr TAB +:+ "= bar" +:+ NL) ∅)))))
             "export" 0%nat "FOO" 0%nat TAB ("= bar" +:+ NL));
      [by left | reflexivity | reflexivity | discriminate | discriminate | reflexivity].
Defined.

(** ** The distributor, entry by entry *)

Lemma copy_cfg_file_skips dir repo overwrite exclude_lint exclude_regex disable fname st :
  qualifies fname = false →
  copy_cfg_file dir repo overwrite exclude_lint exclude_regex disable fname st = (Ok tt, st).
Proof.
  unfold qualifies, copy_cfg_file. intros H.
  apply orb_false_iff in H as [-> ->]. reflexivity.
Qed.

Lemma copy_cfg_file_no_template dir repo overwrite exclude_lint exclude_regex disable fname st :
  (∀ text, fs st !! Py.path_join dir fname ≠ Some (File text)) →
  copy_cfg_file dir repo overwrite exclude_lint exclude_regex disable fname st = (Ok tt, st).
Proof.
  intros H. unfold copy_cfg_file. destruct (_ && _); [done |].
  rewrite bind_isfile.
  by destruct (fs st !! Py.path_join dir fname) as [[text | ?] |];
    [destruct (H text) | |].
Qed.

(** ** Directories above a path *)

Lemma rstrip_slash_length s : (String.length (Py.rstrip_slash s) ≤ String.length s)%nat.
Proof.
  induction s as [| c s IH]; simpl; [done |].
  destruct (Py.rstrip_slash s) as [| c' r]; simpl in *; [| lia].
  destruct (Ascii.eqb c "/"); simpl; lia.
Qed.

Lemma dir_head_length p : (String.length (Py.dir_head p) ≤ String.length p)%nat.
Proof.
  induction p as [| c p IH]; simpl; [done |].
  destruct (Ascii.eqb c "/" || Py.contains "/" p); simpl; lia.
Qed.

Lemma dir_head_full p : String.length (Py.dir_head p) = String.length p → Py.dir_head p = p.
Proof.
  induction p as [| c p IH]; simpl; [done |].
  destruct (Ascii.eqb c "/" || Py.contains "/" p); simpl; [| done].
  intros H. f_equal. apply IH. lia.
Qed.

(** A path that is its own head ends with a slash. *)
Lemma dir_head_self p :
  Py.dir_head p = p →
  p = EmptyString ∨ (String.length (Py.rstrip_slash p) < String.length p)%nat.
Proof.
  induction p as [| c p IH]; intros H; [by left |]. right. revert H. simpl.
  destruct (Ascii.eqb c "/" || Py.contains "/" p) eqn:Hc; [| done].
  intros [= Hp]. destruct (IH Hp) as [-> | Hlt].
  - simpl in *. rewrite orb_false_r in Hc. rewrite Hc. simpl. lia.
  - destruct (Py.rstrip_slash p) as [| c' r]; simpl in *; [| lia].
    destruct (Ascii.eqb c "/"); simpl; lia.
Qed.

(** The directory of a path other than the root and the current directory
    is a shorter path. *)
Lemma dirname_shorter d :
  Py.rstrip_slash d ≠ EmptyString →
  (String.length (Py.dirname d) < String.length d)%nat.
Proof.
  intros Hd. unfold Py.dirname.
  pose proof (dir_head_length d) as Hle.
  destruct (decide (String.length (Py.dir_head d) = String.length d)) as [E | Hne].
  - apply dir_head_full in E. rewrite E.
    destruct (dir_head_self d E) as [-> | Hlt]; [done |].
    destruct (Py.rstrip_slash d); [done | exact Hlt].
  - pose proof (rstrip_slash_length (Py.dir_head d)) as Hr.
    destruct (Py.rstrip_slash (Py.dir_head d)); simpl in *; lia.
Qed.

(** The walk upwards of [below_file] ends within the length of the path:
    more fuel does not change its result. *)
Lemma below_file_fuel (m : gmap string node) fuel :
  ∀ fuel' d,
    (String.length d ≤ fuel)%nat → (String.length d ≤ fuel')%nat →
    below_file fuel m d = below_file fuel' m d.
Proof.
  induction fuel as [| k IH]; intros [| k'] d Hk Hk'; [done | | |].
  - destruct d; [| simpl in Hk; lia]. simpl. by destruct (m !! EmptyString) as [[] |].
  - destruct d; [| simpl in Hk'; lia]. simpl. by destruct (m !! EmptyString) as [[] |].
  - cbn [below_file]. destruct (m !! d) as [[] |]; [done | done |].
    destruct (Py.rstrip_slash d) eqn:E; [done |].
    assert (Py.rstrip_slash d ≠ EmptyString) as Hd by (by rewrite E).
    pose proof (dirname_shorter d Hd). apply IH; lia.
Qed.

(** ** Opening the destination *)

Lemma bind_open_w_writable {B} path (f : unit → M B) st :
  writable (fs st) path = true →
  (open_w path ≫= f) st = f tt (set_fs (insert path (File EmptyString)) st).
Proof. intros H. by rewrite bind_open_w, H. Qed.

(** Writing a regular file at [p] leaves every other path that could be
    written as writable as it was: a path that can be written is not the
    directory another one lies in. *)
Lemma writable_only_changes (m m' : gmap string node) p q :
  (∀ k, k ≠ p → m' !! k = m !! k) → q ≠ p →
  writable m p = true → writable m q = true → writable m' q = true.
Proof.
  intros Hframe Hne Hp Hq. unfold writable in *. rewrite (Hframe q Hne).
  destruct (m !! q) as [[? | ?] |]; [done | done |].
  unfold dir_exists in *. destruct (Py.rstrip_slash (Py.dirname q)); [done |].
  destruct (decide (Py.dirname q = p)) as [E | E].
  - rewrite E in Hq. by destruct (m !! p) as [[? | ?] |].
  - by rewrite (Hframe _ E).
Qed.

Lemma copy_cfg_file_only_changes dir repo overwrite exclude_lint exclude_regex disable fname :
  preserves (only_changes (Py.path_join repo fname))
    (copy_cfg_file dir repo overwrite exclude_lint exclude_regex disable fname).
Proof.
  intros st. unfold copy_cfg_file.
  destruct (_ && _); [reflexivity |].
  rewrite bind_isfile.
  destruct (fs st !! Py.path_join dir fname) as [[src_text | ?] |] eqn:Esrc;
    [| reflexivity | reflexivity].
  cbn [negb]. rewrite bind_isfile.
  destruct (negb overwrite && _).
  { apply (preserves_logger _ (only_changes_log _) _ _ st). }
  rewrite bind_open_r, Esrc, bind_open_w.
  destruct (writable _ _); [| reflexivity].
  rewrite bind_read.
  (etrans; [| apply copy_lines_only_changes]).
  intros p Hp. unfold set_fs; simpl. by rewrite lookup_insert_ne.
Qed.

Lemma copy_lines_ok exclude_lint exclude_regex disable fname dst lines st :
  (for_each lines
     (λ line, line ← patch_line exclude_lint exclude_regex disable fname dst line;
              write dst line) st).1 = Ok tt.
Proof.
  revert st. induction lines as [| line lines IH]; intros st; [done |].
  destruct (patch_line_run exclude_lint exclude_regex disable fname dst line st)
    as (st1 & Hp & _).
  simpl. unfold mbind at 1, M_bind at 1. rewrite (bind_ok _ _ _ _ _ Hp).
  unfold write, modify. apply IH.
Qed.

Lemma qualifies_relative fname : qualifies fname = true → Py.startswith fname "/" = false.
Proof.
  unfold qualifies, Py.startswith. intros [H | H]%orb_true_iff.
  - destruct fname as [| c f]; [done |]. cbn [String.prefix] in *.
    destruct (ascii_dec "." c) as [<- | ?]; done.
  - apply String.eqb_eq in H. by subst fname.
Qed.

Lemma destination_inj repo f f' :
  qualifies f = true → qualifies f' = true →
  Py.path_join repo f = Py.path_join repo f' → f = f'.
Proof. intros Hf Hf'. apply path_join_inj; by apply qualifies_relative. Qed.

(** The changes [copy_cfg_files] makes to the file system are at the
    destinations of the names it distributes. *)
Lemma copy_loop_frame dir repo overwrite exclude_lint exclude_regex disable names p :
  (∀ f, f ∈ names → qualifies f = true → p ≠ Py.path_join repo f) →
  ∀ st,
    fs (for_each names
          (copy_cfg_file dir repo overwrite exclude_lint exclude_regex disable) st).2 !! p
    = fs st !! p.
Proof.
  induction names as [| x names IH]; intros Hp st; [done |].
  simpl. unfold mbind, M_bind.
  pose proof (copy_cfg_file_only_changes dir repo overwrite exclude_lint exclude_regex
                disable x st) as Hx.
  pose proof (copy_cfg_file_skips dir repo overwrite exclude_lint exclude_regex
                disable x st) as Hskip.
  destruct (copy_cfg_file dir repo overwrite exclude_lint exclude_regex disable x st)
    as [[[] | e] st1]; simpl in *.
  - rewrite IH by (intros f Hf; apply Hp; by right).
    destruct (qualifies x) eqn:Hq.
    + apply Hx, Hp; [by left | done].
    + specialize (Hskip eq_refl). by inversion Hskip.
  - destruct (qualifies x) eqn:Hq.
    + apply Hx, Hp; [by left | done].
    + specialize (Hskip eq_refl). by inversion Hskip.
Qed.

(** X6. [copy_cfg_files] writes at the destinations of the entries of the
    template directory whose name starts with a dot or is [pyproject.toml],
    and nowhere else: every other path (the destination of a [README.md]
    of the template directory, for instance) holds after the call what it
    held before, whether the call returns or raises. *)
Theorem copy_cfg_files_writes_only_destinations :
  ∀ precommit_config_dir repo_dirname overwrite exclude_lint disable_pylint_checks
    st names path,
    fs st !! precommit_config_dir = Some (Dir names) →
    (∀ fname, fname ∈ names → qualifies fname = true →
              path ≠ Py.path_join repo_dirname fname) →
    fs (copy_cfg_files precommit_config_dir repo_dirname overwrite exclude_lint
          disable_pylint_checks st).2 !! path
    = fs st !! path.
Proof.
  intros dir repo overwrite exclude_lint disable st names p Hdir Hp.
  unfold copy_cfg_files. rewrite bind_logger, bind_listdir.
  unfold set_log at 1; simpl. rewrite Hdir.
  by rewrite copy_loop_frame.
Qed.

Lemma copy_cfg_files_writes_only_destinations_witness :
  fs (copy_cfg_files "/pkg/cfg" "/repo" true "a,b" "C0111" (start demo_files ∅)).2
    !! "/repo/README.md"
  = None.
Proof.
  apply (copy_cfg_files_writes_only_destinations "/pkg/cfg" "/repo" true "a,b" "C0111"
           (start demo_files ∅)
           [".pre-commit-config.yaml"; ".pylintrc"; "README.md"; "hooks"]
           "/repo/README.md").
  - reflexivity.
  - intros fname Hin Hq.
    repeat (apply elem_of_cons in Hin as [-> | Hin]); try discriminate Hq;
      [discriminate | discriminate | by apply elem_of_nil in Hin].
Defined.

(** One entry of the template directory.  Either the file system is left as
    it is (the name is not distributed, the template is not a regular file,
    or the repository keeps its own file), or the destination is written. *)
Lemma copy_cfg_file_step dir repo overwrite exclude_lint disable x st :
  (qualifies x = true →
   ∀ text, fs st !! Py.path_join dir x = Some (File text) →
           writable (fs st) (Py.path_join repo x) = true) →
  ∃ st1,
    copy_cfg_file dir repo overwrite exclude_lint (exclude_regex_of exclude_lint) disable x st
    = (Ok tt, st1)
    ∧ only_changes (Py.path_join repo x) st st1
    ∧ ((fs st1 = fs st
        ∧ ∀ text, qualifies x = true →
                  fs st !! Py.path_join dir x = Some (File text) →
                  uses_custom overwrite (fs st) (Py.path_join repo x) = true)
       ∨ (∃ text,
            qualifies x = true
            ∧ fs st !! Py.path_join dir x = Some (File text)
            ∧ uses_custom overwrite (fs st) (Py.path_join repo x) = false
            ∧ fs st1 !! Py.path_join repo x
              = Some (File (copied_text exclude_lint disable x (Py.path_join dir x)
                              (Py.path_join repo x) text)))).
Proof.
  intros Hw.
  destruct (qualifies x) eqn:Hq.
  2: { exists st. rewrite copy_cfg_file_skips by done.
       split; [done |]. split; [reflexivity |]. left. split; [done |]. intros; discriminate. }
  destruct (fs st !! Py.path_join dir x) as [[text | ns] |] eqn:Esrc.
  2, 3: exists st; rewrite copy_cfg_file_no_template by (by rewrite Esrc);
        (split; [done |]); (split; [reflexivity |]); left; (split; [done |]);
        intros; discriminate.
  specialize (Hw eq_refl text eq_refl).
  pose proof (copy_cfg_file_only_changes dir repo overwrite exclude_lint
                (exclude_regex_of exclude_lint) disable x st) as Hframe.
  revert Hframe. unfold copy_cfg_file.
  assert (negb (Py.startswith x ".") && negb (String.eqb x "pyproject.toml") = false)
    as ->.
  { unfold qualifies in Hq. by destruct (Py.startswith x "."), (String.eqb x _). }
  rewrite bind_isfile, Esrc. cbn [negb andb]. rewrite bind_isfile.
  change (negb overwrite
          && match fs st !! Py.path_join repo x with
             | Some (File _) => true
             | _ => false
             end)
    with (uses_custom overwrite (fs st) (Py.path_join repo x)).
  destruct (uses_custom overwrite (fs st) (Py.path_join repo x)) eqn:Hc.
  - intros Hframe. eexists. split; [reflexivity |]. split; [exact Hframe |].
    left. split; [reflexivity | done].
  - rewrite bind_open_r, Esrc, (bind_open_w_writable _ _ _ Hw), bind_read.
    set (st1 := set_fs _ st). set (lines := Py.file_lines _).
    intros Hframe.
    pose proof (copy_lines_ok exclude_lint (exclude_regex_of exclude_lint) disable x
                  (Py.path_join repo x) lines st1) as Hok.
    pose proof (copy_lines_run exclude_lint (exclude_regex_of exclude_lint) disable x
                  (Py.path_join repo x) lines st1 EmptyString) as Hrun.
    destruct (for_each lines _ st1) as [r st'] eqn:Eloop. simpl in Hok, Hrun, Hframe.
    subst r. exists st'. split; [done |]. split; [done |].
    right. exists text. split; [done |]. split; [done |]. split; [done |].
    rewrite Hrun by (unfold st1, set_fs; simpl; apply lookup_insert_eq).
    unfold copied_text. subst lines st1. unfold set_fs; simpl.
    case_bool_decide as Hsame.
    + rewrite Hsame, lookup_insert_eq. reflexivity.
    + by rewrite lookup_insert_ne, Esrc.
Qed.

Lemma uses_custom_same (m m' : gmap string node) overwrite dst :
  m' !! dst = m !! dst → uses_custom overwrite m' dst = uses_custom overwrite m dst.
Proof. unfold uses_custom. by intros ->. Qed.

(** The loop over the template directory.  No template is the destination
    of another entry, and every destination can be written.  Each entry
    with a regular template is then either kept (the repository has its own
    file and [overwrite] is false) or holds what was copied. *)
Lemma copy_loop_run dir repo overwrite exclude_lint disable names :
  (∀ f f', f ∈ names → f' ∈ names → qualifies f = true → qualifies f' = true →
           f ≠ f' → Py.path_join dir f ≠ Py.path_join repo f') →
  ∀ st,
    (∀ f text, f ∈ names → qualifies f = true →
               fs st !! Py.path_join dir f = Some (File text) →
               writable (fs st) (Py.path_join repo f) = true) →
    ∃ st',
      for_each names
        (copy_cfg_file dir repo overwrite exclude_lint (exclude_regex_of exclude_lint)
           disable) st
      = (Ok tt, st')
      ∧ (∀ f text, f ∈ names → qualifies f = true →
                   fs st !! Py.path_join dir f = Some (File text) →
                   fs st' !! Py.path_join repo f
                   = if uses_custom overwrite (fs st) (Py.path_join repo f)
                     then fs st !! Py.path_join repo f
                     else Some (File (copied_text exclude_lint disable f
                                        (Py.path_join dir f) (Py.path_join repo f) text))).
Proof.
  induction names as [| x names IH]; intros Halias st Hw.
  { exists st. split; [done |]. intros f text Hin. by apply elem_of_nil in Hin. }
  assert (∀ f f', f ∈ names → f' ∈ names → qualifies f = true → qualifies f' = true →
                  f ≠ f' → Py.path_join dir f ≠ Py.path_join repo f') as Halias'.
  { intros f f' Hf Hf'. apply Halias; by right. }
  specialize (IH Halias').
  simpl. unfold mbind, M_bind.
  destruct (copy_cfg_file_step dir repo overwrite exclude_lint disable x st)
    as (st1 & Ex & Hframe & Hstep).
  { intros Hq text. apply Hw; [by left | done]. }
  rewrite Ex.
  destruct Hstep as [(Hsame & Hcustom) | (tx & Hqx & Hsrcx & Hcx & Hdstx)].
  - (* the entry [x] leaves the files as they are *)
    destruct (IH st1) as (st' & Eloop & Hloop).
    { intros f text Hin Hq. rewrite Hsame. apply Hw; [by right | done]. }
    exists st'. split; [exact Eloop |].
    intros f text Hin Hq Hsrc.
    destruct (decide (f ∈ names)) as [Hin' | Hnotin].
    + specialize (Hloop f text Hin' Hq). rewrite Hsame in Hloop. by apply Hloop.
    + apply elem_of_cons in Hin as [-> | ?]; [| done].
      pose proof (copy_loop_frame dir repo overwrite exclude_lint
                    (exclude_regex_of exclude_lint) disable names (Py.path_join repo x))
        as Hrest.
      specialize (Hrest (λ f Hf Hqf E,
        Hnotin ltac:(by rewrite (destination_inj repo x f Hq Hqf E))) st1).
      rewrite Eloop in Hrest. cbn [snd] in Hrest.
      by rewrite Hrest, Hsame, (Hcustom text Hq Hsrc).
  - (* the entry [x] is written *)
    assert (writable (fs st) (Py.path_join repo x) = true) as Hwx.
    { by apply (Hw x tx); [left | |]. }
    assert (∀ f, f ∈ names → qualifies f = true → f ≠ x →
                 fs st1 !! Py.path_join dir f = fs st !! Py.path_join dir f) as Hsrc_same.
    { intros f Hin Hq Hne. apply Hframe. by apply (Halias f x); [right | left | | | ]. }
    destruct (IH st1) as (st' & Eloop & Hloop).
    { intros f text Hin Hq Hsrc1.
      destruct (decide (f = x)) as [-> | Hne].
      - unfold writable. by rewrite Hdstx.
      - rewrite (Hsrc_same f Hin Hq Hne) in Hsrc1.
        apply (writable_only_changes (fs st) (fs st1) (Py.path_join repo x)).
        + exact Hframe.
        + intros E. by apply Hne, (destination_inj repo).
        + exact Hwx.
        + by apply (Hw f text); [right | |]. }
    exists st'. split; [exact Eloop |].
    intros f text Hin Hq Hsrc.
    destruct (decide (f = x)) as [-> | Hne].
    + (* the entry itself *)
      rewrite Hsrcx in Hsrc. injection Hsrc as <-. rewrite Hcx.
      destruct (decide (x ∈ names)) as [Hin' | Hnotin].
      * destruct (decide (Py.path_join dir x = Py.path_join repo x)) as [Esd | Hsd].
        -- (* the template is its own destination *)
           assert (overwrite = true) as ->.
           { unfold uses_custom in Hcx. rewrite <- Esd, Hsrcx in Hcx.
             by destruct overwrite. }
           assert (fs st1 !! Py.path_join dir x = Some (File EmptyString)) as Hsrc1.
           { rewrite Esd, Hdstx. unfold copied_text. by rewrite bool_decide_eq_true_2. }
           rewrite (Hloop x EmptyString Hin' Hq Hsrc1).
           unfold uses_custom, copied_text. cbn [negb andb].
           by rewrite !bool_decide_eq_true_2.
        -- assert (fs st1 !! Py.path_join dir x = Some (File tx)) as Hsrc1.
           { by rewrite (Hframe _ Hsd). }
           rewrite (Hloop x tx Hin' Hq Hsrc1).
           by destruct (uses_custom overwrite (fs st1) (Py.path_join repo x)).
      * pose proof (copy_loop_frame dir repo overwrite exclude_lint
                      (exclude_regex_of exclude_lint) disable names (Py.path_join repo x))
          as Hrest.
        specialize (Hrest (λ f Hf Hqf E,
          Hnotin ltac:(by rewrite (destination_inj repo x f Hq Hqf E))) st1).
        rewrite Eloop in Hrest. cbn [snd] in Hrest.
        by rewrite Hrest.
    + (* another entry *)
      assert (f ∈ names) as Hin' by (by apply elem_of_cons in Hin as [-> | ?]).
      assert (Py.path_join repo f ≠ Py.path_join repo x) as Hdst.
      { intros E. by apply Hne, (destination_inj repo). }
      rewrite <- (Hsrc_same f Hin' Hq Hne) in Hsrc.
      rewrite (Hloop f text Hin' Hq Hsrc).
      by rewrite (uses_custom_same (fs st) (fs st1)), (Hframe _ Hdst)
        by (by rewrite (Hframe _ Hdst)).
Qed.

Lemma copy_cfg_files_loop dir repo overwrite exclude_lint disable st names :
  fs st !! dir = Some (Dir names) →
  copy_cfg_files dir repo overwrite exclude_lint disable st
  = for_each names
      (copy_cfg_file dir repo overwrite exclude_lint (exclude_regex_of exclude_lint) disable)
      (set_log (λ l, l ++ [(logging.INFO,
                            "Copying configuration files 'cp -rnT " +:+ dir +:+ "/ "
                            +:+ repo +:+ "/")]) st).
Proof.
  intros Hdir. unfold copy_cfg_files. rewrite bind_logger, bind_listdir.
  unfold set_log at 1; simpl. by rewrite Hdir.
Qed.

(** What [copy_cfg_files] leaves at the destinations, under the conditions
    of the theorems below. *)
Lemma copy_cfg_files_run dir repo overwrite exclude_lint disable st names :
  fs st !! dir = Some (Dir names) →
  (∀ f f', f ∈ names → f' ∈ names → qualifies f = true → qualifies f' = true →
           f ≠ f' → Py.path_join dir f ≠ Py.path_join repo f') →
  (∀ f text, f ∈ names → qualifies f = true →
             fs st !! Py.path_join dir f = Some (File text) →
             writable (fs st) (Py.path_join repo f) = true) →
  (copy_cfg_files dir repo overwrite exclude_lint disable st).1 = Ok tt
  ∧ ∀ f text, f ∈ names → qualifies f = true →
              fs st !! Py.path_join dir f = Some (File text) →
              fs (copy_cfg_files dir repo overwrite exclude_lint disable st).2
                !! Py.path_join repo f
              = if uses_custom overwrite (fs st) (Py.path_join repo f)
                then fs st !! Py.path_join repo f
                else Some (File (copied_text exclude_lint disable f
                                   (Py.path_join dir f) (Py.path_join repo f) text)).
Proof.
  intros Hdir Halias Hw.
  rewrite (copy_cfg_files_loop dir repo overwrite exclude_lint disable st names Hdir).
  destruct (copy_loop_run dir repo overwrite exclude_lint disable names Halias
              (set_log (λ l, l ++ [(logging.INFO,
                                    "Copying configuration files 'cp -rnT " +:+ dir +:+ "/ "
                                    +:+ repo +:+ "/")]) st) Hw)
    as (st' & E & Hcontent).
  rewrite E. split; [done |]. exact Hcontent.
Qed.

Lemma uses_custom_false (m : gmap string node) overwrite dst :
  overwrite = true ∨ (∀ text, m !! dst ≠ Some (File text)) →
  uses_custom overwrite m dst = false.
Proof.
  unfold uses_custom. intros [-> | Hno]; [done |].
  destruct (m !! dst) as [[text | ?] |]; [by destruct (Hno text) | |];
    by rewrite andb_false_r.
Qed.

(** X7. When no template path is a destination and every destination can
    be written (a regular file is there, or nothing is there and the target
    directory exists), [copy_cfg_files] returns, and the destination of every
    distributed entry that is a regular file either is the repository's own
    file, left as it is ([overwrite] false and a regular file there), or holds
    the lines of the template, each as [written_line] gives it: the exclusion
    line in place of a marker line, the token in place of the placeholder,
    every other line as it is.  Entries that are not regular files (a hidden
    directory of the template directory) are passed. *)
Theorem copy_cfg_files_destinations :
  ∀ precommit_config_dir repo_dirname overwrite exclude_lint disable_pylint_checks st names,
    fs st !! precommit_config_dir = Some (Dir names) →
    (∀ f f', f ∈ names → f' ∈ names →
             Py.path_join precommit_config_dir f ≠ Py.path_join repo_dirname f') →
    (∀ f text, f ∈ names → qualifies f = true →
               fs st !! Py.path_join precommit_config_dir f = Some (File text) →
               writable (fs st) (Py.path_join repo_dirname f) = true) →
    let out := copy_cfg_files precommit_config_dir repo_dirname overwrite exclude_lint
                 disable_pylint_checks st in
    out.1 = Ok tt
    ∧ ∀ fname text,
        fname ∈ names → qualifies fname = true →
        fs st !! Py.path_join precommit_config_dir fname = Some (File text) →
        fs out.2 !! Py.path_join repo_dirname fname
        = if uses_custom overwrite (fs st) (Py.path_join repo_dirname fname)
          then fs st !! Py.path_join repo_dirname fname
          else Some (File (Py.concat_str
                             (map (written_line exclude_lint (exclude_regex_of exclude_lint)
                                     disable_pylint_checks fname)
                                  (Py.file_lines text)))).
Proof.
  intros dir repo overwrite exclude_lint disable st names Hdir Halias Hw out. subst out.
  destruct (copy_cfg_files_run dir repo overwrite exclude_lint disable st names Hdir
              (λ f f' Hf Hf' _ _ _, Halias f f' Hf Hf') Hw) as (Hok & Hcontent).
  split; [exact Hok |]. intros fname text Hin Hq Hsrc.
  rewrite (Hcontent fname text Hin Hq Hsrc). unfold copied_text.
  rewrite bool_decide_eq_false_2; [done |]. by apply Halias.
Qed.

Lemma copy_cfg_files_destinations_witness :
  let out := copy_cfg_files "/pkg/cfg" "/repo" false "a,b" "C0111" (start demo_files ∅) in
  out.1 = Ok tt
  ∧ fs out.2 !! Py.path_join "/repo" ".pre-commit-config.yaml"
    = Some (File (Py.concat_str
                    (map (written_line "a,b" (exclude_regex_of "a,b") "C0111"
                            ".pre-commit-config.yaml")
                         (Py.file_lines demo_config_yaml))))
  ∧ fs out.2 !! Py.path_join "/repo" ".pylintrc" = Some (File ("custom" +:+ NL)).
Proof.
  destruct (copy_cfg_files_destinations "/pkg/cfg" "/repo" false "a,b" "C0111"
              (start demo_files ∅)
              [".pre-commit-config.yaml"; ".pylintrc"; "README.md"; "hooks"])
    as (Hok & Hcontent).
  - reflexivity.
  - intros f f' Hf Hf'.
    repeat (apply elem_of_cons in Hf as [-> | Hf]); try (by apply elem_of_nil in Hf);
      repeat (apply elem_of_cons in Hf' as [-> | Hf']); try (by apply elem_of_nil in Hf');
      discriminate.
  - intros f text Hf Hq Hsrc.
    repeat (apply elem_of_cons in Hf as [-> | Hf]); try (by apply elem_of_nil in Hf);
      try discriminate Hq; vm_compute; reflexivity.
  - split; [exact Hok |]. split.
    + apply (Hcontent ".pre-commit-config.yaml" demo_config_yaml);
        [by left | reflexivity | reflexivity].
    + apply (Hcontent ".pylintrc" demo_pylintrc);
        [by right; left | reflexivity | reflexivity].
Defined.

Example copy_cfg_files_destinations_text :
  Py.concat_str
    (map (written_line "a,b" (exclude_regex_of "a,b") "C0111" ".pre-commit-config.yaml")
         (Py.file_lines demo_config_yaml))
  = "repos:" +:+ NL +:+ "    (a|b)|" +:+ NL +:+ "  args: [--disable=C0111]" +:+ NL.
Proof. reflexivity. Qed.

(** A target directory that does not exist: nothing is written, the first
    entry that is copied raises. *)
Example copy_cfg_files_no_target :
  copy_cfg_files "/pkg/cfg" "/repo/missing" true EmptyString EmptyString
    (start demo_files ∅)
  = (Raise (FileNotFoundError "/repo/missing/.pre-commit-config.yaml"),
     set_log (λ _, [(logging.INFO,
                     "Copying configuration files 'cp -rnT /pkg/cfg/ /repo/missing/")])
       (start demo_files ∅))
  ∧ (copy_cfg_files "/pkg/cfg" "/repo/.pylintrc" true EmptyString EmptyString
       (start demo_files ∅)).1
    = Raise (NotADirectoryError "/repo/.pylintrc/.pre-commit-config.yaml").
Proof. split; vm_compute; reflexivity. Qed.

(** X8. Without an exclusion list and without a token, when no template
    path is a destination and every destination can be written, the
    destination of every distributed regular file that is copied
    ([overwrite], or no regular file there) holds the very text of its
    template. *)
Theorem copy_cfg_files_verbatim :
  ∀ precommit_config_dir repo_dirname overwrite st names,
    fs st !! precommit_config_dir = Some (Dir names) →
    (∀ f f', f ∈ names → f' ∈ names →
             Py.path_join precommit_config_dir f ≠ Py.path_join repo_dirname f') →
    (∀ f text, f ∈ names → qualifies f = true →
               fs st !! Py.path_join precommit_config_dir f = Some (File text) →
               writable (fs st) (Py.path_join repo_dirname f) = true) →
    ∀ fname text,
      fname ∈ names → qualifies fname = true →
      fs st !! Py.path_join precommit_config_dir fname = Some (File text) →
      overwrite = true ∨ (∀ own, fs st !! Py.path_join repo_dirname fname ≠ Some (File own)) →
      fs (copy_cfg_files precommit_config_dir repo_dirname overwrite EmptyString EmptyString
            st).2
        !! Py.path_join repo_dirname fname
      = Some (File text).
Proof.
  intros dir repo overwrite st names Hdir Halias Hw fname text Hin Hq Hsrc Hcopy.
  destruct (copy_cfg_files_run dir repo overwrite EmptyString EmptyString st names Hdir
              (λ f f' Hf Hf' _ _ _, Halias f f' Hf Hf') Hw) as (_ & Hcontent).
  rewrite (Hcontent fname text Hin Hq Hsrc), (uses_custom_false _ _ _ Hcopy).
  unfold copied_text. rewrite bool_decide_eq_false_2 by by apply Halias.
  rewrite (map_ext _ id) by (intros line; apply written_line_verbatim).
  by rewrite map_id, concat_file_lines.
Qed.

Lemma copy_cfg_files_verbatim_witness :
  fs (copy_cfg_files "/pkg/cfg" "/repo" false EmptyString EmptyString
        (start demo_files ∅)).2
    !! Py.path_join "/repo" ".pre-commit-config.yaml"
  = Some (File demo_config_yaml).
Proof.
  apply (copy_cfg_files_verbatim "/pkg/cfg" "/repo" false (start demo_files ∅)
           [".pre-commit-config.yaml"; ".pylintrc"; "README.md"; "hooks"]).
  - reflexivity.
  - intros f f' Hf Hf'.
    repeat (apply elem_of_cons in Hf as [-> | Hf]); try (by apply elem_of_nil in Hf);
      repeat (apply elem_of_cons in Hf' as [-> | Hf']); try (by apply elem_of_nil in Hf');
      discriminate.
  - intros f text Hf Hq Hsrc.
    repeat (apply elem_of_cons in Hf as [-> | Hf]); try (by apply elem_of_nil in Hf);
      try discriminate Hq; vm_compute; reflexivity.
  - by left.
  - reflexivity.
  - reflexivity.
  - right. intros own. vm_compute. discriminate.
Defined.

(** X9. When the template directory is the target directory itself and
    [overwrite] is true, [copy_cfg_files] returns and every distributed
    regular file of the directory is left empty: the destination, which is
    the template, is emptied when it is opened for writing, before the first
    line is read. *)
Theorem copy_cfg_files_onto_itself :
  ∀ dirname exclude_lint disable_pylint_checks st names,
    fs st !! dirname = Some (Dir names) →
    let out := copy_cfg_files dirname dirname true exclude_lint disable_pylint_checks st in
    out.1 = Ok tt
    ∧ ∀ fname text,
        fname ∈ names → qualifies fname = true →
        fs st !! Py.path_join dirname fname = Some (File text) →
        fs out.2 !! Py.path_join dirname fname = Some (File EmptyString).
Proof.
  intros dir exclude_lint disable st names Hdir out. subst out.
  destruct (copy_cfg_files_run dir dir true exclude_lint disable st names Hdir)
    as (Hok & Hcontent).
  - intros f f' _ _ Hq Hq' Hne Heq. by apply Hne, (destination_inj dir).
  - intros f text _ _ Hsrc. unfold writable. by rewrite Hsrc.
  - split; [exact Hok |]. intros fname text Hin Hq Hsrc.
    rewrite (Hcontent fname text Hin Hq Hsrc). unfold uses_custom, copied_text.
    cbn [negb andb]. by rewrite bool_decide_eq_true_2.
Qed.

Lemma copy_cfg_files_onto_itself_witness :
  let out := copy_cfg_files "/pkg/cfg" "/pkg/cfg" true "a,b" "C0111" (start demo_files ∅) in
  out.1 = Ok tt
  ∧ fs out.2 !! Py.path_join "/pkg/cfg" ".pylintrc" = Some (File EmptyString).
Proof.
  destruct (copy_cfg_files_onto_itself "/pkg/cfg" "a,b" "C0111" (start demo_files ∅)
              [".pre-commit-config.yaml"; ".pylintrc"; "README.md"; "hooks"] eq_refl)
    as (Hok & Hcontent).
  split; [exact Hok |].
  apply (Hcontent ".pylintrc" demo_pylintrc); [by right; left | reflexivity | reflexivity].
Defined.

(** ** The exclusion line *)

Lemma guarded_escape s : ∀ prev, guarded prev (Py.re_escape s) = true.
Proof.
  induction s as [| c s IH]; intros prev; [done |]. simpl.
  destruct (Py.special_char c) eqn:Hc.
  - cbn [guarded]. rewrite IH.
    change (Ascii.eqb Py.BACKSLASH " " || Ascii.eqb Py.BACKSLASH "-") with false.
    cbn. by destruct (Ascii.eqb c " " || Ascii.eqb c "-").
  - cbn [guarded]. rewrite IH, andb_true_r.
    destruct (Ascii.eqb c " ") eqn:E1; [apply Ascii.eqb_eq in E1; by subst c |].
    destruct (Ascii.eqb c "-") eqn:E2; [apply Ascii.eqb_eq in E2; by subst c |].
    done.
Qed.

Lemma guarded_app a b :
  (∀ q, guarded q b = true) → ∀ prev, guarded prev a = true → guarded prev (a +:+ b) = true.
Proof.
  intros Hb. induction a as [| c a IH]; intros prev Ha; simpl; [apply Hb |].
  cbn [guarded] in Ha. apply andb_true_iff in Ha as [-> Ha]. by rewrite IH.
Qed.

Lemma guarded_join entries :
  (∀ e, e ∈ entries → ∀ q, guarded q e = true) →
  ∀ prev, guarded prev (Py.join "|" entries) = true.
Proof.
  induction entries as [| x [| y entries] IH]; intros He prev; [done | |].
  - apply He. by left.
  - change (Py.join "|" (x :: y :: entries)) with (x +:+ "|" +:+ Py.join "|" (y :: entries)).
    apply guarded_app; [| apply He; by left].
    intros q. cbn [String.append guarded]. simpl orb. cbn iota. apply IH.
    intros e Hin. apply He. by right.
Qed.

Lemma guarded_contains c1 c2 pattern s :
  Ascii.eqb c1 Py.BACKSLASH = false →
  Ascii.eqb c2 " " || Ascii.eqb c2 "-" = true →
  ∀ prev, guarded prev s = true →
          Py.contains (String c1 (String c2 pattern)) s = false.
Proof.
  intros H1 H2. induction s as [| c s IH]; intros prev Hg; [done |].
  cbn [guarded] in Hg. apply andb_true_iff in Hg as [_ Hg].
  cbn [Py.contains String.prefix]. rewrite (IH _ Hg), orb_false_r.
  destruct (ascii_dec c1 c) as [<- | ?]; [| done].
  destruct s as [| c' s]; [done |]. cbn [String.prefix].
  destruct (ascii_dec c2 c') as [<- | ?]; [| done].
  cbn [guarded] in Hg. rewrite H2, H1 in Hg. done.
Qed.

Lemma contains_skip c1 pattern c s :
  c1 ≠ c → Py.contains (String c1 pattern) (String c s) = Py.contains (String c1 pattern) s.
Proof.
  intros Hne. cbn [Py.contains String.prefix].
  by destruct (ascii_dec c1 c) as [-> | ?].
Qed.

Lemma exclude_regex_guarded exclude_lint :
  ∀ prev, guarded prev (exclude_regex_of exclude_lint +:+ NL) = true.
Proof.
  intros prev. unfold exclude_regex_of.
  destruct (Py.truthy exclude_lint); [| done].
  rewrite !append_assoc. cbn [String.append guarded]. simpl orb. cbn iota.
  apply guarded_app; [done |]. apply guarded_join.
  intros e He q. apply list_elem_of_fmap in He as (p & -> & _). apply guarded_escape.
Qed.

Lemma exclusion_line_contains c1 c2 pattern exclude_lint :
  c1 ≠ " "%char →
  Ascii.eqb c1 Py.BACKSLASH = false →
  Ascii.eqb c2 " " || Ascii.eqb c2 "-" = true →
  Py.contains (String c1 (String c2 pattern))
    ("    " +:+ exclude_regex_of exclude_lint +:+ NL) = false.
Proof.
  intros Hsp H1 H2. cbn [String.append].
  rewrite !contains_skip by done.
  by apply (guarded_contains c1 c2 pattern _ H1 H2 None), exclude_regex_guarded.
Qed.

(** X10. For every exclusion list that is not empty, in a file whose name
    starts with [.pre-commit-config], a line that contains the marker is
    written as four spaces, the exclusion regex and a newline, whatever the
    token of disabled checks: the escaped entries never hold the
    placeholder.  The line written does not contain the marker. *)
Theorem patch_line_exclusion :
  ∀ exclude_lint disable_pylint_checks fname dst line st,
    Py.truthy exclude_lint = true →
    Py.startswith fname ".pre-commit-config" = true →
    Py.contains "# EXCLUDE_LINT" line = true →
    (patch_line exclude_lint (exclude_regex_of exclude_lint) disable_pylint_checks
       fname dst line st).1
      = Ok ("    " +:+ exclude_regex_of exclude_lint +:+ NL)
    ∧ Py.contains "# EXCLUDE_LINT" ("    " +:+ exclude_regex_of exclude_lint +:+ NL) = false.
Proof.
  intros exclude_lint disable fname dst line st He Hf Hl.
  split; [| by apply exclusion_line_contains].
  destruct (patch_line_run exclude_lint (exclude_regex_of exclude_lint) disable fname dst
              line st) as (st' & -> & _).
  cbn [fst]. f_equal. unfold written_line. rewrite He, Hf, Hl. cbn [andb].
  fold NL. rewrite (exclusion_line_contains "-" "-") by done.
  by rewrite andb_false_r.
Qed.

Lemma patch_line_exclusion_witness :
  (patch_line "docs/, --disable=R0000 ,," (exclude_regex_of "docs/, --disable=R0000 ,,")
     "C0111" ".pre-commit-config.yaml" "/repo/.pre-commit-config.yaml"
     ("  # EXCLUDE_LINT --disable=R0000" +:+ NL) (start ∅ ∅)).1
    = Ok ("    " +:+ exclude_regex_of "docs/, --disable=R0000 ,," +:+ NL)
  ∧ Py.contains "# EXCLUDE_LINT"
      ("    " +:+ exclude_regex_of "docs/, --disable=R0000 ,," +:+ NL) = false.
Proof.
  apply (patch_line_exclusion "docs/, --disable=R0000 ,," "C0111" ".pre-commit-config.yaml"
           "/repo/.pre-commit-config.yaml" ("  # EXCLUDE_LINT --disable=R0000" +:+ NL)
           (start ∅ ∅)); reflexivity.
Defined.

Example exclude_regex_of_example :
  exclude_regex_of "docs/, --disable=R0000 ,,"
  = "(docs/|" +:+ Py.chr Py.BACKSLASH +:+ "-" +:+ Py.chr Py.BACKSLASH +:+ "-disable=R0000)|".
Proof. reflexivity. Qed.

(** ** The two substitutions in the copied files *)

Lemma prefix_qualifies fname :
  Py.startswith fname ".pre-commit-config" = true → qualifies fname = true.
Proof.
  unfold qualifies, Py.startswith. intros H.
  destruct fname as [| c f]; cbn [String.prefix] in *; [discriminate H |].
  destruct (ascii_dec "." c); [by destruct f | discriminate H].
Qed.

(** The line written in a file whose name has the prefix: the exclusion line
    for a marker line (it never holds the placeholder, so the token is not
    put in it), the token in place of the placeholder otherwise. *)
Lemma written_line_with_prefix exclude_lint token fname line :
  Py.startswith fname ".pre-commit-config" = true →
  written_line exclude_lint (exclude_regex_of exclude_lint) token fname line
  = if Py.truthy exclude_lint && Py.contains "# EXCLUDE_LINT" line
    then "    " +:+ exclude_regex_of exclude_lint +:+ NL
    else if Py.truthy token && Py.contains "--disable=R0000" line
         then Py.replace "R0000" token line
         else line.
Proof.
  intros Hf. unfold written_line. rewrite Hf, !andb_true_r.
  destruct (Py.truthy exclude_lint && Py.contains "# EXCLUDE_LINT" line); [| done].
  fold NL. rewrite (exclusion_line_contains "-" "-") by done.
  by rewrite andb_false_r.
Qed.


(** C5. When [copy_cfg_files] copies a file whose name starts with
    [.pre-commit-config], with the exclusion list [a,b], the destination
    holds the lines of the template with every line that contains the marker
    [# EXCLUDE_LINT] replaced, as a whole, by the line of four spaces and
    [(a|b)|]: the escaped, trimmed, non-empty entries of the list joined by
    [|] in a group, followed by [|].  The replacing line does not contain the
    marker.  (The other lines are as the token of disabled checks leaves
    them.)  The file is copied when [overwrite] is true or no regular file is
    at the destination; the conditions on the file system make the call
    return: no template path is a destination and every destination can be
    written. *)
Theorem copy_cfg_files_exclude_a_b :
  ∀ precommit_config_dir repo_dirname overwrite disable_pylint_checks st names fname text,
    fs st !! precommit_config_dir = Some (Dir names) →
    (∀ f f', f ∈ names → f' ∈ names →
             Py.path_join precommit_config_dir f ≠ Py.path_join repo_dirname f') →
    (∀ f t, f ∈ names → qualifies f = true →
            fs st !! Py.path_join precommit_config_dir f = Some (File t) →
            writable (fs st) (Py.path_join repo_dirname f) = true) →
    fname ∈ names →
    Py.startswith fname ".pre-commit-config" = true →
    fs st !! Py.path_join precommit_config_dir fname = Some (File text) →
    overwrite = true ∨ (∀ own, fs st !! Py.path_join repo_dirname fname ≠ Some (File own)) →
    let out := copy_cfg_files precommit_config_dir repo_dirname overwrite "a,b"
                 disable_pylint_checks st in
    out.1 = Ok tt
    ∧ fs out.2 !! Py.path_join repo_dirname fname
      = Some (File (Py.concat_str
                      (map (λ line,
                              if Py.contains "# EXCLUDE_LINT" line
                              then "    (a|b)|" +:+ NL
                              else if Py.truthy disable_pylint_checks
                                      && Py.contains "--disable=R0000" line
                                   then Py.replace "R0000" disable_pylint_checks line
                                   else line)
                           (Py.file_lines text))))
    ∧ "    (a|b)|" +:+ NL
      = "    " +:+ "("
        +:+ Py.join "|"
              (map (λ exclude_path, Py.re_escape (Py.strip exclude_path))
                 (filter (λ exclude_path,
                            Py.truthy exclude_path && Py.truthy (Py.strip exclude_path) = true)
                         (Py.split "," "a,b")))
        +:+ ")|" +:+ NL
    ∧ Py.contains "# EXCLUDE_LINT" ("    (a|b)|" +:+ NL) = false.
Proof.
  intros dir repo overwrite token st names fname text Hdir Halias Hw Hin Hf Hsrc Hcopy out.
  subst out.
  destruct (copy_cfg_files_run dir repo overwrite "a,b" token st names Hdir
              (λ f f' Hf Hf' _ _ _, Halias f f' Hf Hf') Hw) as (Hok & Hcontent).
  split; [exact Hok |]. split; [| split; reflexivity].
  rewrite (Hcontent fname text Hin (prefix_qualifies _ Hf) Hsrc).
  rewrite (uses_custom_false _ _ _ Hcopy). unfold copied_text.
  rewrite bool_decide_eq_false_2 by by apply Halias.
  do 3 f_equal. apply map_ext. intros line.
  by rewrite (written_line_with_prefix "a,b" token fname line Hf).
Qed.

Lemma copy_cfg_files_exclude_a_b_witness :
  let out := copy_cfg_files "/pkg/cfg" "/repo" true "a,b" EmptyString (start demo_files ∅) in
  out.1 = Ok tt
  ∧ fs out.2 !! "/repo/.pre-commit-config.yaml"
    = Some (File ("repos:" +:+ NL +:+ "    (a|b)|" +:+ NL
                  +:+ "  args: [--disable=R0000]" +:+ NL)).
Proof.
  destruct (copy_cfg_files_exclude_a_b "/pkg/cfg" "/repo" true EmptyString
              (start demo_files ∅)
              [".pre-commit-config.yaml"; ".pylintrc"; "README.md"; "hooks"]
              ".pre-commit-config.yaml" demo_config_yaml)
    as (Hok & Hcontent & _).
  - reflexivity.
  - intros f f' Hf Hf'.
    repeat (apply elem_of_cons in Hf as [-> | Hf]); try (by apply elem_of_nil in Hf);
      repeat (apply elem_of_cons in Hf' as [-> | Hf']); try (by apply elem_of_nil in Hf');
      discriminate.
  - intros f t Hf Hq Hsrc.
    repeat (apply elem_of_cons in Hf as [-> | Hf]); try (by apply elem_of_nil in Hf);
      try discriminate Hq; vm_compute; reflexivity.
  - by left.
  - reflexivity.
  - reflexivity.
  - by left.
  - split; [exact Hok | exact Hcontent].
Defined.

(** The text of the line is [(a|b)|], one group around the alternation; the
    spelling [(a)|(b)|], one group for each entry, has the same alternatives
    ([a], [b] and the empty string) and is not what the file holds. *)
Example copy_cfg_files_exclude_a_b_text :
  ∃ text,
    fs (copy_cfg_files "/pkg/cfg" "/repo" true "a,b" EmptyString (start demo_files ∅)).2
      !! "/repo/.pre-commit-config.yaml" = Some (File text)
    ∧ Py.file_lines text
      = ["repos:" +:+ NL; "    (a|b)|" +:+ NL; "  args: [--disable=R0000]" +:+ NL]
    ∧ Py.contains "(a)|(b)|" text = false.
Proof.
  eexists. split; [vm_compute; reflexivity |]. split; vm_compute; reflexivity.
Qed.




(** ** The orchestrator: environment, tiers, commands *)

#[local] Instance same_environ_preorder : PreOrder same_environ.
Proof.
  split; [by intros st | intros a b c H1 H2; unfold same_environ in *; congruence].
Qed.

(** What the set-up of a run that reaches the checks has read and done. *)
Lemma main_setup_inv w st l st1 :
  main_setup w st = (Ok l, st1) →
  ∃ repo envdict,
    git_toplevel w = Some repo
    ∧ (envfile2envdict repo "variables.sh" st).1 = Ok envdict
    ∧ envdict !! EmptyString = None
    ∧ environ st1 = envdict ∪ environ st
    ∧ repo_dirname l = repo
    ∧ enable_auto_fix l
      = String.eqb (default EmptyString ((envdict ∪ environ st) !! "PRECOMMIT_AUTOFIX")) "1".
Proof.
  assert (Hlog : ∀ f s, same_environ s (set_log f s)) by done.
  assert (Hfs : ∀ f s, same_environ s (set_fs f s)) by done.
  unfold main_setup, get_repo. intros H.
  destruct (git_toplevel w) as [repo |]; [| discriminate H].
  apply bind_inv_ok in H as (r & s0 & E & H). inversion E. subst r s0. clear E.
  apply bind_inv_ok in H as (envdict & st0 & Eenv & H).
  destruct (envfile2envdict_run repo "variables.sh" st) as (st0' & Erun & _ & He0 & _).
  rewrite Eenv in Erun. injection Erun as _ Hst0. subst st0'.
  apply bind_inv_ok in H as ([] & st2 & Eupd & H).
  unfold environ_update in Eupd.
  case_bool_decide as Hempty; [discriminate Eupd |].
  inversion Eupd as [Hst2]. clear Eupd.
  assert (envdict !! EmptyString = None) as Hnone.
  { destruct (envdict !! EmptyString) eqn:E; [| done]. destruct Hempty. eauto. }
  assert (environ st2 = envdict ∪ environ st) as He2.
  { rewrite <- Hst2. simpl. by rewrite He0. }
  clear Hst2.
  do 4 (apply bind_inv_ok in H as (? & ? & E & H); inversion E; subst; clear E).
  apply bind_inv_ok in H as ([] & st3 & Ecopy & H).
  pose proof (preserves_run _ _ _ _ _
                (preserves_copy_cfg_files same_environ Hlog Hfs _ _ _ _ _) Ecopy) as He3.
  unfold same_environ in He3. clear Ecopy.
  exists repo, envdict. split; [done |]. split; [by rewrite Eenv |]. split; [done |].
  revert H. run_monad.
  match goal with |- context [if ?c then _ else _] => destruct c eqn:Hc end;
    intros H; inversion H; subst; simpl; rewrite He3, He2 in *; repeat split; try done;
    by rewrite <- Hc.
Qed.

Lemma main_calls w do_exit st l st1 cmd st2 :
  main_setup w st = (Ok l, st1) → main_scope w l st1 = (Ok cmd, st2) →
  calls (main w do_exit st).2 = calls st ++ setup_calls l ++ tier_calls l cmd.
Proof.
  intros H1 H2. rewrite (main_reaches_tiers w do_exit st l st1 cmd st2 H1 H2).
  rewrite main_tiers_calls.
  pose proof (main_setup_calls w st) as Hs. rewrite H1 in Hs.
  pose proof (main_scope_calls w l st1) as Hc. rewrite H2 in Hc. simpl in Hc.
  by rewrite Hc, Hs, app_assoc.
Qed.

Lemma main_scope_root w l st :
  cwd l = repo_dirname l →
  main_scope w l st = (Ok ["pre-commit"; "run"; "--color=always"; "--all"], st).
Proof. intros H. unfold main_scope. by rewrite H, String.eqb_refl. Qed.

Lemma main_scope_files w l st f files :
  cwd l ≠ repo_dirname l → git_ls_files w (cwd l) = Some (f :: files) →
  ∃ st', main_scope w l st
         = (Ok (["pre-commit"; "run"; "--color=always"; "--files"] ++ f :: files), st').
Proof.
  intros Hne Hls. unfold main_scope, get_files.
  apply String.eqb_neq in Hne. rewrite Hne, Hls. cbn [negb]. rewrite bind_logger.
  eexists. reflexivity.
Qed.

(** X11. A run whose set-up has gone through calls, after the
    installations, the autofix check (when enabled), the mandatory check and
    the optional check, each once and in that order, whatever the checks
    return.  At the root of the repository the checks are given [--all] and
    git is not asked for a list of files; in a sub-path they are given
    [--files] followed by the files git lists. *)
Theorem main_check_commands :
  ∀ w do_exit files env l st1,
    main_setup w (start files env) = (Ok l, st1) →
    (getcwd w = repo_dirname l →
     calls (main w do_exit (start files env)).2
     = setup_calls l ++ tier_calls l ["pre-commit"; "run"; "--color=always"; "--all"])
    ∧ (∀ f listed,
         getcwd w ≠ repo_dirname l →
         git_ls_files w (getcwd w) = Some (f :: listed) →
         calls (main w do_exit (start files env)).2
         = setup_calls l
           ++ tier_calls l (["pre-commit"; "run"; "--color=always"; "--files"] ++ f :: listed)).
Proof.
  intros w do_exit files env l st1 Hsetup.
  destruct (main_setup_locals w _ l st1 Hsetup) as (_ & Hcwd & _).
  split.
  - intros Hroot. rewrite <- Hcwd in Hroot.
    by rewrite (main_calls w do_exit _ l st1 _ st1 Hsetup (main_scope_root w l st1 Hroot)).
  - intros f listed Hsub Hls. rewrite <- Hcwd in Hsub, Hls.
    destruct (main_scope_files w l st1 f listed Hsub Hls) as (st2 & Hscope).
    by rewrite (main_calls w do_exit _ l st1 _ st2 Hsetup Hscope).
Qed.

Lemma main_check_commands_witness :
  calls (main (World (Some "/repo") "/repo/sub" "/pkg" (λ _, Some ["sub/a.py"; "sub/b.py"])
                (λ _, 1) (λ _ _, "sub") (λ msg _, msg))
           true (start demo_files ∅)).2
  = [["pre-commit"; "install-hooks"; "--color=always"; "-c"; "/repo/.pre-commit-config.yaml"];
     ["pre-commit"; "install-hooks"; "--color=always"; "-c";
      "/repo/.pre-commit-config-optional.yaml"];
     ["pre-commit"; "install-hooks"; "--color=always"; "-c";
      "/repo/.pre-commit-config-autofix.yaml"];
     ["pre-commit"; "run"; "--color=always"; "--files"; "sub/a.py"; "sub/b.py"; "-c";
      "/repo/.pre-commit-config-autofix.yaml"];
     ["pre-commit"; "run"; "--color=always"; "--files"; "sub/a.py"; "sub/b.py"; "-c";
      "/repo/.pre-commit-config.yaml"];
     ["pre-commit"; "run"; "--color=always"; "--files"; "sub/a.py"; "sub/b.py"; "-c";
      "/repo/.pre-commit-config-optional.yaml"]].
Proof.
  eapply eq_trans.
  - eapply (main_check_commands
              (World (Some "/repo") "/repo/sub" "/pkg"
                 (λ _, Some ["sub/a.py"; "sub/b.py"])
                 (λ _, 1) (λ _ _, "sub") (λ msg _, msg))
              true demo_files ∅).
    + vm_compute. reflexivity.
    + vm_compute. discriminate.
    + reflexivity.
  - vm_compute. reflexivity.
Defined.

(** X12. A run that reaches the checks records the tiers in the order
    autofix, mandatory, optional, the autofix tier only when it is enabled.
    Each entry keeps the return code of its check; the autofix tier is INFO,
    Passed for 0 and ERROR, Reformatted otherwise; the optional tier is INFO,
    Passed for 0 and WARNING, Failed otherwise. *)
Theorem main_records_tiers :
  ∀ w do_exit st l st1 cmd st2,
    main_setup w st = (Ok l, st1) →
    main_scope w l st1 = (Ok cmd, st2) →
    all_status (main w do_exit st).2
    = (if enable_auto_fix l
       then [("Autofix checks",
              if autofix_status w l cmd =? 0
              then TierResult (autofix_status w l cmd) logging.INFO "Passed"
              else TierResult (autofix_status w l cmd) logging.ERROR "Reformatted")]
       else [])
      ++ [("Mandatory checks",
           if cumulative_status w l cmd =? 0
           then TierResult (mandatory_status w l cmd) logging.INFO "Passed"
           else TierResult (mandatory_status w l cmd) logging.ERROR "Failed");
          ("Optional checks",
           if status_optional w l cmd =? 0
           then TierResult (status_optional w l cmd) logging.INFO "Passed"
           else TierResult (status_optional w l cmd) logging.WARNING "Failed")].
Proof.
  intros w do_exit st l st1 cmd st2 H1 H2.
  rewrite (main_reaches_tiers w do_exit st l st1 cmd st2 H1 H2).
  apply main_tiers_all_status.
Qed.

Lemma main_records_tiers_witness :
  all_status (main (demo_world 0 0 3 "/repo") false
                (start demo_files {["PRECOMMIT_AUTOFIX" := "0"]})).2
  = [("Autofix checks", TierResult 0 logging.INFO "Passed");
     ("Mandatory checks", TierResult 0 logging.INFO "Passed");
     ("Optional checks", TierResult 3 logging.WARNING "Failed")].
Proof.
  erewrite (main_records_tiers (demo_world 0 0 3 "/repo") false
              (start demo_files {["PRECOMMIT_AUTOFIX" := "0"]}));
    [| vm_compute; reflexivity | vm_compute; reflexivity].
  vm_compute. reflexivity.
Defined.

(** X13. With the autofix tier disabled, a run that reaches the checks and
    is asked to exit ends with the exit code 0 when the mandatory check
    returns 0 and with 1 otherwise; the return code of the optional check
    has no part in it. *)
Theorem main_exit_code_without_autofix :
  ∀ w st l st1 cmd st2,
    main_setup w st = (Ok l, st1) →
    main_scope w l st1 = (Ok cmd, st2) →
    enable_auto_fix l = false →
    (main w true st).1
    = Raise (SystemExit (if mandatory_status w l cmd =? 0 then 0 else 1)).
Proof.
  intros w st l st1 cmd st2 H1 H2 Hoff.
  rewrite (main_exit_code_sum w st l st1 cmd st2 H1 H2).
  unfold cumulative_status. by rewrite Hoff.
Qed.

Lemma main_exit_code_without_autofix_witness :
  (main (demo_world 7 0 5 "/repo") true
     (start (delete "/repo/variables.sh" demo_files) ∅)).1
  = Raise (SystemExit 0).
Proof.
  erewrite (main_exit_code_without_autofix (demo_world 7 0 5 "/repo")
              (start (delete "/repo/variables.sh" demo_files) ∅));
    [| vm_compute; reflexivity | vm_compute; reflexivity | vm_compute; reflexivity].
  vm_compute. reflexivity.
Defined.

(** X14. When the return codes of the autofix and of the mandatory checks
    are not negative (no check was ended by a signal), a run that reaches the
    checks exits with 0 exactly when the mandatory check and, if enabled, the
    autofix check both return 0, and with 1 otherwise. *)
Theorem main_exit_code_without_signals :
  ∀ w st l st1 cmd st2,
    main_setup w st = (Ok l, st1) →
    main_scope w l st1 = (Ok cmd, st2) →
    0 ≤ autofix_status w l cmd →
    0 ≤ mandatory_status w l cmd →
    exit_code (main w true st).1
    = if bool_decide ((enable_auto_fix l = true → autofix_status w l cmd = 0)
                      ∧ mandatory_status w l cmd = 0)
      then 0 else 1.
Proof. intros w st l st1 cmd st2. apply main_exit_code_nonnegative. Qed.

Lemma main_exit_code_without_signals_witness :
  exit_code (main (demo_world 1 0 0 "/repo") true (start demo_files ∅)).1 = 1.
Proof.
  erewrite (main_exit_code_without_signals (demo_world 1 0 0 "/repo")
              (start demo_files ∅));
    [| vm_compute; reflexivity | vm_compute; reflexivity
     | vm_compute; discriminate | vm_compute; discriminate].
  vm_compute. reflexivity.
Defined.

(** X15. No run of [main] gives the same command to [subprocess.call]
    twice: every installation and every check is attempted once. *)
Theorem main_calls_each_command_once :
  ∀ w do_exit files env, NoDup (calls (main w do_exit (start files env)).2).
Proof. intros w do_exit files env. apply main_calls_distinct. Qed.

Lemma main_setup_returncode w rc st :
  main_setup (with_returncode w rc) st = main_setup w st.
Proof. reflexivity. Qed.

Lemma main_scope_returncode w rc l st :
  main_scope (with_returncode w rc) l st = main_scope w l st.
Proof. reflexivity. Qed.

Lemma main_tiers_returncode w rc l cmd do_exit st :
  (∀ command, is_run command = true → rc command = returncode w command) →
  is_run cmd = true →
  main_tiers (with_returncode w rc) l cmd do_exit st = main_tiers w l cmd do_exit st.
Proof.
  intros Hrc Hcmd.
  assert (∀ cfg, rc (cmd ++ ["-c"; cfg]) = returncode w (cmd ++ ["-c"; cfg])) as Hcfg.
  { intros cfg. apply Hrc. destruct cmd as [|prog [|sub rest]]; done. }
  unfold main_tiers, subprocess_call.
  cbn [with_returncode returncode colorized_msg].
  rewrite !Hcfg. reflexivity.
Qed.

(** X16. The return codes of the three [pre-commit install-hooks] calls are
    discarded: two environments that differ only in what commands other than
    [pre-commit run ...] return give the same run of [main], result and final
    state alike. *)
Theorem main_ignores_install_codes :
  ∀ w rc do_exit st,
    (∀ command, is_run command = true → rc command = returncode w command) →
    main (with_returncode w rc) do_exit st = main w do_exit st.
Proof.
  intros w rc do_exit st Hrc. unfold main, mbind, M_bind.
  rewrite main_setup_returncode. destruct (main_setup w st) as [[l | e] st1]; [| done].
  rewrite main_scope_returncode.
  destruct (main_scope w l st1) as [[cmd | e] st2] eqn:Hscope; [| done].
  apply main_tiers_returncode; [done |].
  by destruct (main_scope_run w l st1 cmd st2 Hscope) as (_ & rest & ->).
Qed.

Lemma main_ignores_install_codes_witness :
  main (with_returncode (demo_world 0 2 0 "/repo")
          (λ command, if is_run command then returncode (demo_world 0 2 0 "/repo") command
                      else 127))
    true (start demo_files ∅)
  = main (demo_world 0 2 0 "/repo") true (start demo_files ∅).
Proof.
  apply (main_ignores_install_codes (demo_world 0 2 0 "/repo")).
  intros command Hrun. by rewrite Hrun.
Defined.

Lemma main_scope_environ w l st : environ (main_scope w l st).2 = environ st.
Proof.
  unfold main_scope, get_files. destruct (String.eqb _ _); simpl; [reflexivity |].
  rewrite bind_logger. destruct (git_ls_files w (cwd l)) as [[| f files] |]; reflexivity.
Qed.

Lemma main_tiers_environ w l cmd do_exit st :
  environ (main_tiers w l cmd do_exit st).2 = environ st.
Proof.
  unfold main_tiers. run_monad.
  destruct (enable_auto_fix l), do_exit; simpl;
    repeat (simpl; match goal with |- context [?x =? 0] => destruct (x =? 0) eqn:? end);
    reflexivity.
Qed.

(** X17. In a run whose set-up goes through, the variables read from
    [variables.sh] are put over the inherited environment (the file wins,
    the other inherited variables stay) and nothing later in the run changes
    the environment again.  The autofix tier is enabled exactly when
    [PRECOMMIT_AUTOFIX] is [1] in that merged environment. *)
Theorem main_environment :
  ∀ w do_exit st l st1,
    main_setup w st = (Ok l, st1) →
    ∃ envdict,
      (envfile2envdict (repo_dirname l) "variables.sh" st).1 = Ok envdict
      ∧ environ (main w do_exit st).2 = envdict ∪ environ st
      ∧ (enable_auto_fix l = true
         ↔ (envdict ∪ environ st) !! "PRECOMMIT_AUTOFIX" = Some "1").
Proof.
  intros w do_exit st l st1 Hsetup.
  destruct (main_setup_inv w st l st1 Hsetup)
    as (repo & envdict & _ & Henv & _ & He1 & Hrepo & Hfix).
  exists envdict. rewrite Hrepo. split; [done |]. split.
  - rewrite <- He1. unfold main. rewrite (bind_ok _ _ _ _ _ Hsetup).
    apply (bind_split (main_scope w l) _ st1 (λ r, environ r.2 = environ st1)).
    + intros e st2 E. pose proof (main_scope_environ w l st1) as H. by rewrite E in H.
    + intros cmd st2 E. rewrite main_tiers_environ.
      pose proof (main_scope_environ w l st1) as H. by rewrite E in H.
  - rewrite Hfix. destruct ((envdict ∪ environ st) !! "PRECOMMIT_AUTOFIX") as [v |]; simpl.
    + split; [by intros ->%String.eqb_eq | intros [= ->]; reflexivity].
    + split; discriminate.
Qed.

Lemma main_environment_witness :
  ∃ envdict,
    (envfile2envdict "/repo" "variables.sh"
       (start demo_files {["PRECOMMIT_AUTOFIX" := "0"; "HOME" := "/home/u"]})).1 = Ok envdict
    ∧ environ (main (demo_world 0 0 0 "/repo") true
                 (start demo_files {["PRECOMMIT_AUTOFIX" := "0"; "HOME" := "/home/u"]})).2
      = envdict ∪ {["PRECOMMIT_AUTOFIX" := "0"; "HOME" := "/home/u"]}
    ∧ (true = true
       ↔ (envdict ∪ {["PRECOMMIT_AUTOFIX" := "0"; "HOME" := "/home/u"]})
           !! "PRECOMMIT_AUTOFIX" = Some "1").
Proof.
  eassert (main_setup (demo_world 0 0 0 "/repo")
             (start demo_files {["PRECOMMIT_AUTOFIX" := "0"; "HOME" := "/home/u"]})
           = (Ok _, _)) as Hsetup.
  { vm_compute. reflexivity. }
  exact (main_environment (demo_world 0 0 0 "/repo") true _ _ _ Hsetup).
Defined.

Lemma foldl_envdict_update_is_Some k lines :
  ∀ envdict : gmap string string,
    is_Some (envdict !! k)
    ∨ (∃ line, line ∈ lines ∧ is_Some (envdict_update ∅ line !! k)) →
    is_Some (foldl envdict_update envdict lines !! k).
Proof.
  induction lines as [| l lines IH]; intros envdict H.
  - destruct H as [H | (line & Hin & _)]; [done | by apply elem_of_nil in Hin].
  - simpl. apply IH.
    destruct H as [H | (line & Hin & Hline)].
    + left. rewrite envdict_update_lookup. by destruct (envdict_update ∅ l !! k).
    + apply elem_of_cons in Hin as [-> | Hin].
      * left. rewrite envdict_update_lookup. destruct Hline as [v ->]. eauto.
      * right. eauto.
Qed.

(** X18. A line of [variables.sh] that has the sign [=] right after the
    keyword and its spaces sets the variable of empty name, and the run ends
    there: [main] raises the [OSError] of [os.environ.update] whatever the
    other lines say, before any configuration file is copied and before any
    command is called. *)
Theorem main_empty_variable_name :
  ∀ w do_exit st repo text kw n tail,
    git_toplevel w = Some repo →
    fs st !! Py.path_join repo "variables.sh" = Some (File text) →
    kw = "export" ∨ kw = "EXPORT" →
    kw +:+ spaces (S n) +:+ "=" +:+ tail ∈ Py.file_lines text →
    (main w do_exit st).1 = Raise (OSError "[Errno 22] Invalid argument")
    ∧ fs (main w do_exit st).2 = fs st
    ∧ calls (main w do_exit st).2 = calls st.
Proof.
  intros w do_exit st repo text kw n tail Hrepo Hfile Hkw Hin.
  destruct (envfile2envdict_run repo "variables.sh" st) as (st' & Erun & Hfs & _ & Hcalls & _).
  rewrite Hfile in Erun.
  assert (is_Some (foldl envdict_update ∅ (Py.file_lines text) !! EmptyString)) as Hempty.
  { apply foldl_envdict_update_is_Some. right. eexists. split; [exact Hin |].
    rewrite envdict_update_scan_eq.
    pose proof (scan_export_shape kw n EmptyString 0 tail Hkw eq_refl (λ _, eq_refl)
                : scan_export (kw +:+ spaces (S n) +:+ "=" +:+ tail)
                  = Some (kw, EmptyString, value_after_equal tail)) as Hscan.
    rewrite Hscan, lookup_insert_eq. eauto. }
  assert (main w do_exit st = (Raise (OSError "[Errno 22] Invalid argument"), st')) as ->.
  { unfold main. apply bind_raise. unfold main_setup, get_repo. rewrite Hrepo.
    rewrite (bind_ok _ _ _ repo st eq_refl).
    rewrite (bind_ok _ _ _ _ _ Erun).
    apply bind_raise. unfold environ_update. by rewrite bool_decide_eq_true_2. }
  done.
Qed.

Lemma main_empty_variable_name_witness :
  (main (demo_world 0 0 0 "/repo") true
     (start {["/repo/variables.sh" :=
                File ("export A=1" +:+ NL +:+ "export  =x" +:+ NL +:+ "export B=2" +:+ NL)]}
        ∅)).1
  = Raise (OSError "[Errno 22] Invalid argument").
Proof.
  apply (main_empty_variable_name (demo_world 0 0 0 "/repo") true _ "/repo"
           ("export A=1" +:+ NL +:+ "export  =x" +:+ NL +:+ "export B=2" +:+ NL)
           "export" 1 ("x" +:+ NL)).
  - reflexivity.
  - reflexivity.
  - by left.
  - vm_compute. apply list_elem_of_lookup. by exists 1%nat.
Defined.

(** ** The summary table *)

Lemma lookup_map {A B} (f : A → B) (l : list A) i : map f l !! i = f <$> l !! i.
Proof. revert i. induction l as [| x l IH]; intros [| i]; simpl; auto. Qed.

(** X19. The summary has one row for each tier recorded, in the order of
    recording, between a heading of three lines and a closing border.  A row
    is the name of the tier, never cut, then spaces, then the coloured
    outcome: the outcome starts at column 30 for a name of at most 28
    characters and right after the name for a longer one. *)
Theorem summary_msg_rows :
  ∀ w d i test_name r,
    d !! i = Some (test_name, r) →
    length (summary_msg w d) = (length d + 4)%nat
    ∧ ∃ pad,
        summary_msg w d !! (3 + i)%nat
        = Some ("| " +:+ test_name +:+ pad +:+ colorized_msg w (status_msg r) (level r))
        ∧ all_chars (is_char " ") pad = true
        ∧ String.length ("| " +:+ test_name +:+ pad)
          = Nat.max 30 (2 + String.length test_name).
Proof.
  intros w d i test_name r Hrow. unfold summary_msg. split.
  { rewrite !length_app, length_map. simpl. lia. }
  exists (spaces (28 - String.length test_name)). split; [| split].
  - assert (∀ (a b c : string) rows, ([a; b; c] ++ rows) !! (3 + i)%nat = rows !! i)
      as -> by done.
    rewrite lookup_app_l by (rewrite length_map; by eapply lookup_lt_Some).
    rewrite lookup_map, Hrow. simpl. unfold Py.ljust.
    rewrite <- append_assoc. by destruct (status r =? 0).
  - apply all_chars_spaces.
  - simpl. rewrite length_append, length_spaces. lia.
Qed.

Lemma summary_msg_rows_witness :
  length (summary_msg (demo_world 0 0 0 "/repo")
            [("Mandatory checks", TierResult 2 logging.ERROR "Failed");
             ("A tier with a name of thirty-five chars", TierResult 0 logging.INFO "Passed")])
  = 6%nat
  ∧ ∃ pad,
      summary_msg (demo_world 0 0 0 "/repo")
        [("Mandatory checks", TierResult 2 logging.ERROR "Failed");
         ("A tier with a name of thirty-five chars", TierResult 0 logging.INFO "Passed")]
        !! 4%nat
      = Some ("| " +:+ "A tier with a name of thirty-five chars" +:+ pad
              +:+ colorized_msg (demo_world 0 0 0 "/repo") "Passed" logging.INFO)
      ∧ all_chars (is_char " ") pad = true
      ∧ String.length ("| " +:+ "A tier with a name of thirty-five chars" +:+ pad)
        = Nat.max 30 (2 + String.length "A tier with a name of thirty-five chars").
Proof.
  apply (summary_msg_rows (demo_world 0 0 0 "/repo")
           [("Mandatory checks", TierResult 2 logging.ERROR "Failed");
            ("A tier with a name of thirty-five chars", TierResult 0 logging.INFO "Passed")]
           1 "A tier with a name of thirty-five chars" (TierResult 0 logging.INFO "Passed")).
  reflexivity.
Defined.

Lemma bind_gets {A B} (g : state → A) (f : A → M B) st : (gets g ≫= f) st = f (g st) st.
Proof. reflexivity. Qed.

Lemma throws_logger Q lvl msg : throws Q (logger lvl msg).
Proof. intros st e st' H. discriminate H. Qed.

Lemma bind_never_raises {A B} (m : M A) (f : A → M B) (P : result B * state → Prop) st :
  throws (λ _, False) m → (∀ a st', P (f a st')) → P ((m ≫= f) st).
Proof.
  intros Hm Hf. unfold mbind, M_bind. destruct (m st) as [[a | e] st1] eqn:E; [apply Hf |].
  destruct (Hm _ _ _ E).
Qed.

(** The computation raises nothing: a goal [throws (λ _, False) m]. *)
Ltac never_raises :=
  solve [ repeat first
            [ apply throws_bind; [| intros ?] | apply throws_ret | apply throws_modify
            | apply throws_logger | apply throws_subprocess_call
            | match goal with |- throws _ (if ?c then _ else _) => destruct c end ] ].

Lemma main_tiers_log_last w l cmd do_exit st :
  last (log (main_tiers w l cmd do_exit st).2)
  = Some (logging.INFO,
          "Tests summary" +:+ NL
          +:+ Py.join NL (summary_msg w (all_status (main_tiers w l cmd do_exit st).2))).
Proof.
  set (P := λ out : result unit * state,
         last (log out.2)
         = Some (logging.INFO,
                 "Tests summary" +:+ NL +:+ Py.join NL (summary_msg w (all_status out.2)))).
  change (P (main_tiers w l cmd do_exit st)).
  assert (∀ code st0,
            P ((d ← gets all_status;
                print_summary w d;;
                if do_exit then raise (SystemExit code) else mret tt) st0)) as Hfin.
  { intros code st0. subst P. cbv beta. rewrite bind_gets. unfold print_summary.
    rewrite bind_logger. destruct do_exit; apply last_snoc. }
  clearbody P.
  unfold main_tiers, record_tier. revert st.
  repeat (intros ?; apply bind_never_raises; [never_raises | intros ?]).
  intros ?. apply Hfin.
Qed.

(** X20. A run that reaches the checks logs the summary of the tiers it
    has recorded as its last record, at level INFO, also when it then exits
    with a failure. *)
Theorem main_logs_summary_last :
  ∀ w do_exit st l st1 cmd st2,
    main_setup w st = (Ok l, st1) →
    main_scope w l st1 = (Ok cmd, st2) →
    last (log (main w do_exit st).2)
    = Some (logging.INFO,
            "Tests summary" +:+ NL
            +:+ Py.join NL (summary_msg w (all_status (main w do_exit st).2))).
Proof.
  intros w do_exit st l st1 cmd st2 H1 H2.
  rewrite (main_reaches_tiers w do_exit st l st1 cmd st2 H1 H2).
  apply main_tiers_log_last.
Qed.

Lemma main_logs_summary_last_witness :
  last (log (main (demo_world 0 1 0 "/repo") true (start demo_files ∅)).2)
  = Some (logging.INFO,
          "Tests summary" +:+ NL
          +:+ Py.join NL
                (summary_msg (demo_world 0 1 0 "/repo")
                   (all_status (main (demo_world 0 1 0 "/repo") true
                                  (start demo_files ∅)).2))).
Proof.
  eapply (main_logs_summary_last (demo_world 0 1 0 "/repo") true (start demo_files ∅));
    vm_compute; reflexivity.
Defined.

(** ** How a run ends *)

Lemma throws_main_scope w l : throws not_exit (main_scope w l).
Proof.
  intros st e st' H. unfold main_scope, get_files in H.
  destruct (String.eqb _ _); cbn [negb] in H; [discriminate H |].
  rewrite bind_logger in H.
  destruct (git_ls_files w (cwd l)) as [[| f files] |]; inversion H; by intros c.
Qed.

(** X21. [main] ends with [SystemExit] only when it is asked to exit and
    only after the installations and every enabled check have been called;
    the exit code is then 0 or 1.  No failure before the checks (git, the
    variables file, the configuration files, an empty list of files) is
    turned into an exit code by [main] itself. *)
Theorem main_exit_after_checks :
  ∀ w do_exit st code st',
    main w do_exit st = (Raise (SystemExit code), st') →
    do_exit = true
    ∧ (code = 0 ∨ code = 1)
    ∧ ∃ l cmd, calls st' = calls st ++ setup_calls l ++ tier_calls l cmd.
Proof.
  intros w do_exit st code st' H.
  destruct (main_setup w st) as [[l | e] st1] eqn:E1.
  - destruct (main_scope w l st1) as [[cmd | e] st2] eqn:E2.
    + pose proof (main_calls w do_exit st l st1 cmd st2 E1 E2) as Hcalls.
      pose proof (main_tiers_result w l cmd do_exit st2) as Hres.
      rewrite <- (main_reaches_tiers w do_exit st l st1 cmd st2 E1 E2) in Hres.
      rewrite H in Hres, Hcalls. cbn [fst snd] in Hres, Hcalls.
      destruct do_exit; [| discriminate Hres].
      split; [done |]. split; [| eauto].
      injection Hres as ->. destruct (cumulative_status w l cmd =? 0); auto.
    + unfold main in H. rewrite (bind_ok _ _ _ _ _ E1), (bind_raise _ _ _ _ _ E2) in H.
      inversion H; subst. by destruct (throws_main_scope w l _ _ _ E2 code).
  - unfold main in H. rewrite (bind_raise _ _ _ _ _ E1) in H.
    inversion H; subst. by destruct (throws_main_setup w _ _ _ E1 code).
Qed.

Lemma main_exit_after_checks_witness :
  true = true
  ∧ (1 = 0 ∨ 1 = 1)
  ∧ ∃ l cmd,
      calls (main (demo_world 0 4 0 "/repo") true (start demo_files ∅)).2
      = calls (start demo_files ∅) ++ setup_calls l ++ tier_calls l cmd.
Proof.
  eapply (main_exit_after_checks (demo_world 0 4 0 "/repo") true (start demo_files ∅) 1).
  vm_compute. reflexivity.
Defined.
